(** * convec: the particle integrator of the convection visualiser

    A shallow embedding of [FluidParticles.tsx] (the ensemble initialiser,
    the parameter smoother, the per-frame integrator and the colour mapper)
    and of the derived-quantity calculator of [App.tsx].

    Numbers.  A JavaScript number is modelled by [num]: a finite real, one
    of the two infinities, or NaN.  The special values follow IEEE-754
    (NaN is absorbing, every comparison with NaN is false, [Inf - Inf],
    [0 * Inf], [0 / 0] and [Inf / Inf] are NaN).  Arithmetic on finite
    values is exact: rounding, overflow to infinity, the sign of zero and
    the narrowing of a [Float32Array] store are idealised away.

    Randomness.  [Math.random()] reads an oracle [rnd : nat -> R] at a
    cursor that is threaded through the code; every draw advances it. *)

From Stdlib Require Import Reals Lra Lia List Bool Arith.
Import ListNotations.

Open Scope R_scope.

(* ================================================================= *)
(** ** JavaScript numbers *)

Inductive num : Type :=
| Fin (r : R)
| PInf
| NInf
| NaN.

Coercion Fin : R >-> num.

Declare Scope js_scope.
Delimit Scope js_scope with js.
Bind Scope js_scope with num.

Definition Rltb (a b : R) : bool := if Rlt_dec a b then true else false.
Definition Rleb (a b : R) : bool := if Rle_dec a b then true else false.

Module Js.

Definition neg (a : num) : num :=
  match a with
  | Fin r => Fin (- r)
  | PInf => NInf
  | NInf => PInf
  | NaN => NaN
  end.

Definition add (a b : num) : num :=
  match a, b with
  | NaN, _ | _, NaN => NaN
  | Fin x, Fin y => Fin (x + y)
  | PInf, NInf | NInf, PInf => NaN
  | PInf, _ | _, PInf => PInf
  | NInf, _ | _, NInf => NInf
  end.

Definition sub (a b : num) : num := add a (neg b).

(** The infinity of the given sign. *)
Definition inf (positive : bool) : num := if positive then PInf else NInf.

(** An infinity of sign [positive] scaled by the finite [r]. *)
Definition inf_times (positive : bool) (r : R) : num :=
  if Rlt_dec 0 r then inf positive
  else if Rlt_dec r 0 then inf (negb positive)
  else NaN.

Definition mul (a b : num) : num :=
  match a, b with
  | NaN, _ | _, NaN => NaN
  | Fin x, Fin y => Fin (x * y)
  | PInf, Fin y | Fin y, PInf => inf_times true y
  | NInf, Fin y | Fin y, NInf => inf_times false y
  | PInf, PInf | NInf, NInf => PInf
  | PInf, NInf | NInf, PInf => NInf
  end.

(** Division; a zero divisor is taken to be [+0]. *)
Definition div (a b : num) : num :=
  match a, b with
  | NaN, _ | _, NaN => NaN
  | Fin x, Fin y =>
      if Req_dec_T y 0 then inf_times true x else Fin (x / y)
  | Fin _, PInf | Fin _, NInf => Fin 0
  | PInf, Fin y => if Rlt_dec y 0 then NInf else PInf
  | NInf, Fin y => if Rlt_dec y 0 then PInf else NInf
  | _, _ => NaN
  end.

(** [a < b]. *)
Definition lt (a b : num) : bool :=
  match a, b with
  | NaN, _ | _, NaN => false
  | Fin x, Fin y => Rltb x y
  | _, NInf => false
  | PInf, _ => false
  | NInf, _ => true
  | Fin _, PInf => true
  end.

(** [a > b]. *)
Definition gt (a b : num) : bool := lt b a.

(** [a >= b]. *)
Definition ge (a b : num) : bool :=
  match a, b with
  | NaN, _ | _, NaN => false
  | Fin x, Fin y => Rleb y x
  | PInf, _ => true
  | _, NInf => true
  | _, _ => false
  end.

(** [Math.max(a, b)] and [Math.min(a, b)]: NaN as soon as an argument is. *)
Definition max (a b : num) : num :=
  match a, b with
  | NaN, _ | _, NaN => NaN
  | _, _ => if lt a b then b else a
  end.

Definition min (a b : num) : num :=
  match a, b with
  | NaN, _ | _, NaN => NaN
  | _, _ => if lt b a then b else a
  end.

(** [Math.sqrt]. *)
Definition sqrt (a : num) : num :=
  match a with
  | Fin x => if Rlt_dec x 0 then NaN else Fin (R_sqrt.sqrt x)
  | PInf => PInf
  | _ => NaN
  end.

(** [Math.cos] and [Math.sin]. *)
Definition cos (a : num) : num :=
  match a with Fin x => Fin (Rtrigo_def.cos x) | _ => NaN end.

Definition sin (a : num) : num :=
  match a with Fin x => Fin (Rtrigo_def.sin x) | _ => NaN end.

(** The angle of the finite point [(x, z)], in [(-PI, PI]]. *)
Definition angle (z x : R) : R :=
  if Rlt_dec 0 x then atan (z / x)
  else if Rlt_dec x 0 then
         (if Rlt_dec z 0 then atan (z / x) - PI else atan (z / x) + PI)
  else if Rlt_dec 0 z then PI / 2
  else if Rlt_dec z 0 then - (PI / 2)
  else 0.

(** [Math.atan2(z, x)]. *)
Definition atan2 (z x : num) : num :=
  match z, x with
  | NaN, _ | _, NaN => NaN
  | Fin a, Fin b => Fin (angle a b)
  | Fin _, PInf => Fin 0
  | Fin a, NInf => if Rlt_dec a 0 then Fin (- PI) else Fin PI
  | PInf, Fin _ => Fin (PI / 2)
  | NInf, Fin _ => Fin (- (PI / 2))
  | PInf, PInf => Fin (PI / 4)
  | PInf, NInf => Fin (3 * PI / 4)
  | NInf, PInf => Fin (- (PI / 4))
  | NInf, NInf => Fin (- (3 * PI / 4))
  end.

(** [isFinite]. *)
Definition isFinite (a : num) : bool :=
  match a with Fin _ => true | _ => false end.

(** [a ** 2] and [Math.pow(a, 3)]. *)
Definition sq (a : num) : num := mul a a.
Definition cube (a : num) : num :=
  match a with
  | Fin x => Fin (x * x * x)
  | PInf => PInf
  | NInf => NInf
  | NaN => NaN
  end.

(** [a || b] on numbers: [undefined], [0] and NaN are falsy. *)
Definition or_else (a : option num) (b : num) : num :=
  match a with
  | None => b
  | Some NaN => b
  | Some (Fin x) => if Req_dec_T x 0 then b else Fin x
  | Some v => v
  end.

End Js.

Notation "- x" := (Js.neg x) : js_scope.
Infix "+" := Js.add : js_scope.
Infix "-" := Js.sub : js_scope.
Infix "*" := Js.mul : js_scope.
Infix "/" := Js.div : js_scope.
Infix "<?" := Js.lt (at level 70) : js_scope.
Infix ">?" := Js.gt (at level 70) : js_scope.
Infix ">=?" := Js.ge (at level 70) : js_scope.

(** [THREE.MathUtils.lerp(x, y, t)], as three.js defines it:
    [(1 - t) * x + t * y]. *)
Definition lerp (x y t : num) : num := ((1 - t) * x + t * y)%js.

(** The real number of a finite [num]; [0] otherwise (used in statements
    only, under a finiteness hypothesis). *)
Definition real (a : num) : R :=
  match a with Fin r => r | _ => 0 end.

Definition finite (a : num) : Prop := exists r, a = Fin r.

(* ================================================================= *)
(** ** Data model *)

(** [SimulationParams] of [types.ts] (the fields the simulation reads). *)
Record SimulationParams : Type := {
  containerRadius : num;
  containerHeight : num;
  tempSurface : num;
  tempFluidInitial : num;
  boilingPoint : num;
  density : num;
  expansionCoefficient : num;
  viscosityDynamic : num;
  thermalDiffusivity : num;
  gravity : num;
  particleCount : nat;
  densityEffect : option num
}.

(** The persistent [simState] record of the component. *)
Record SimState : Type := {
  s_tempSurface : num;
  s_tempFluidInitial : num;
  s_gravity : num;
  s_viscosity : num;
  s_expansion : num;
  s_diffusivity : num;
  s_density : num;
  s_avgSystemTemp : num
}.

(** The columnar typed arrays of the ensemble: [positions], [velocities]
    and [colors] hold three cells per particle. *)
Record Ensemble : Type := {
  positions : list num;
  velocities : list num;
  temperatures : list num;
  colors : list num;
  state : list nat;
  meta : list num
}.

(** Reading a typed array: past the end the read is [undefined], which
    every arithmetic use turns into NaN. *)
Definition get (a : list num) (i : nat) : num := nth i a NaN.

(** Reading the [Uint8Array] of phases; past the end [undefined === 1] is
    false, as for a stored [0]. *)
Definition get_state (a : list nat) (i : nat) : nat := nth i a 0%nat.

(** Writing a typed array: a write past the end is ignored. *)
Fixpoint set {A : Type} (a : list A) (i : nat) (v : A) : list A :=
  match a, i with
  | [], _ => []
  | _ :: t, O => v :: t
  | h :: t, S j => h :: set t j v
  end.

(** Three writes in a row, to the three cells from [idx] on. *)
Definition set3 (a : list num) (idx : nat) (u v w : num) : list num :=
  set (set (set a idx u) (idx + 1) v) (idx + 2) w.

(** What the program carries from frame to frame: the smoothed state, the
    ensemble and the cursor of the random oracle. *)
Record World : Type := {
  sim : SimState;
  ens : Ensemble;
  cursor : nat
}.

(** The colour constants. *)
Definition Color : Type := (num * num * num)%type.
Definition _cBlue : Color := (Fin 0.1, Fin 0.3, Fin 1.0).
Definition _cCyan : Color := (Fin 0.2, Fin 0.8, Fin 0.9).
Definition _cGreen : Color := (Fin 0.2, Fin 0.9, Fin 0.3).
Definition _cYellow : Color := (Fin 0.9, Fin 0.9, Fin 0.2).
Definition _cRed : Color := (Fin 1.0, Fin 0.2, Fin 0.1).
Definition _cGlow : Color := (Fin 1.0, Fin 1.0, Fin 1.0).
Definition _cGas : Color := (Fin 0.95, Fin 0.95, Fin 1.0).

Definition cr (c : Color) : num := fst (fst c).
Definition cg (c : Color) : num := snd (fst c).
Definition cb (c : Color) : num := snd c.

(** [Color.lerpColors(c1, c2, alpha)] of three.js. *)
Definition lerpColors (c1 c2 : Color) (alpha : num) : Color :=
  ((cr c1 + (cr c2 - cr c1) * alpha)%js,
   (cg c1 + (cg c2 - cg c1) * alpha)%js,
   (cb c1 + (cb c2 - cb c1) * alpha)%js).

(** [c.lerp(color, alpha)] of three.js. *)
Definition color_lerp (c color : Color) (alpha : num) : Color :=
  ((cr c + (cr color - cr c) * alpha)%js,
   (cg c + (cg color - cg c) * alpha)%js,
   (cb c + (cb color - cb c) * alpha)%js).

(* ================================================================= *)
(** ** The program *)

Section Program.

(** The oracle behind [Math.random()]. *)
Variable rnd : nat -> R.

Definition random (k : nat) : num := Fin (rnd k).

(** *** Ensemble initialiser ([useMemo]) *)

(** The values a new particle gets, drawn at cursor [k]: its position,
    its temperature and its variance; four draws. *)
Definition fresh (params : SimulationParams) (k : nat)
    : num * num * num * num * num :=
  let r := Js.max 0.001
             (Js.sqrt (random k) * containerRadius params * 0.9)%js in
  let theta := (random (k + 1) * 2 * PI)%js in
  ((r * Js.cos theta)%js,
   ((random (k + 2) - 0.5) * containerHeight params)%js,
   (r * Js.sin theta)%js,
   tempFluidInitial params,
   (0.8 + random (k + 3) * 0.4)%js).

Definition init_particle (params : SimulationParams) (i : nat)
    (acc : Ensemble * nat) : Ensemble * nat :=
  let (e, k) := acc in
  let '(x, y, z, T, m) := fresh params k in
  ({| positions := set3 (positions e) (i * 3) x y z;
      velocities := velocities e;
      temperatures := set (temperatures e) i T;
      colors := colors e;
      state := state e;
      meta := set (meta e) i m |},
   (k + 4)%nat).

Definition init_ensemble (params : SimulationParams) (k : nat)
    : Ensemble * nat :=
  let count := particleCount params in
  let zeros := fun n => repeat (Fin 0) n in
  fold_left (fun acc i => init_particle params i acc) (seq 0 count)
    ({| positions := zeros (count * 3)%nat;
        velocities := zeros (count * 3)%nat;
        temperatures := zeros count;
        colors := zeros (count * 3)%nat;
        state := repeat 0%nat count;
        meta := zeros count |}, k).

(** The initial [simState]. *)
Definition init_sim (params : SimulationParams) : SimState :=
  {| s_tempSurface := tempSurface params;
     s_tempFluidInitial := tempFluidInitial params;
     s_gravity := gravity params;
     s_viscosity := viscosityDynamic params;
     s_expansion := expansionCoefficient params;
     s_diffusivity := thermalDiffusivity params;
     s_density := density params;
     s_avgSystemTemp := tempFluidInitial params |}.

(** *** 1. Smooth parameter interpolation *)

Definition lerpRate : num := Fin 0.05.

Definition smooth (params : SimulationParams) (s : SimState) : SimState :=
  {| s_tempSurface := lerp (s_tempSurface s) (tempSurface params) lerpRate;
     s_tempFluidInitial :=
       lerp (s_tempFluidInitial s) (tempFluidInitial params) lerpRate;
     s_gravity := lerp (s_gravity s) (gravity params) lerpRate;
     s_viscosity := lerp (s_viscosity s) (viscosityDynamic params) lerpRate;
     s_expansion :=
       lerp (s_expansion s) (expansionCoefficient params) lerpRate;
     s_diffusivity :=
       lerp (s_diffusivity s) (thermalDiffusivity params) lerpRate;
     s_density := lerp (s_density s) (density params) lerpRate;
     s_avgSystemTemp := s_avgSystemTemp s |}.

Definition set_avgSystemTemp (s : SimState) (v : num) : SimState :=
  {| s_tempSurface := s_tempSurface s;
     s_tempFluidInitial := s_tempFluidInitial s;
     s_gravity := s_gravity s;
     s_viscosity := s_viscosity s;
     s_expansion := s_expansion s;
     s_diffusivity := s_diffusivity s;
     s_density := s_density s;
     s_avgSystemTemp := v |}.

(** *** 2. Physics constants, shared by every particle of a frame *)

Record Frame : Type := {
  dt : num;
  halfH : num;
  radius : num;
  inertiaFactor : num;
  dragFactor : num;
  thermalRate : num;
  avgT : num;
  canConvect : bool
}.

Definition MAX_VELOCITY : num := Fin 10.0.

Definition sum_temperatures (temps : list num) (count : nat) : num :=
  fold_left (fun sumT k => (sumT + get temps k)%js) (seq 0 count) (Fin 0).

Definition frameAvgT (temps : list num) (count : nat) : num :=
  (sum_temperatures temps count / Fin (INR count))%js.


Definition mkFrame (params : SimulationParams) (rayleigh : num)
    (s : SimState) (delta : num) : Frame :=
  let dt := Js.min delta 0.05 in
  let halfH := (containerHeight params / 2)%js in
  let radius := containerRadius params in
  let densityFactor := Js.or_else (densityEffect params) 1.0 in
  let safeDensity := Js.max 1 (s_density s) in
  let inertiaFactor := Js.max 0.01 (safeDensity * 0.001 * densityFactor)%js in
  let dragCoeff := (s_viscosity s * 100 / inertiaFactor)%js in
  let dragFactor := Js.max 0.0 (Js.min 0.999 (1.0 - dragCoeff * dt)%js) in
  let thermalRate := (s_diffusivity s * 80000)%js in
  {| dt := dt; halfH := halfH; radius := radius;
     inertiaFactor := inertiaFactor; dragFactor := dragFactor;
     thermalRate := thermalRate; avgT := s_avgSystemTemp s;
     canConvect := (rayleigh >? 1000)%js |}.

(** *** 3. The body of the main particle loop *)

(** The cells of one particle: [positions[idx..idx+2]],
    [velocities[idx..idx+2]], [temperatures[i]], [state[i]] and
    [colors[idx..idx+2]]. *)
Record Cells : Type := {
  c_x : num; c_y : num; c_z : num;
  c_vx : num; c_vy : num; c_vz : num;
  c_T : num;
  c_state : nat;
  c_color : Color
}.

(** A. Thermal physics: the temperature after conduction at the bottom,
    cooling at the walls and the top, and bulk mixing. *)
Definition thermal (f : Frame) (s : SimState) (y r T : num) : num :=
  let distToSurface := (y + halfH f)%js in
  let distToWall := (radius f - r)%js in
  let T :=
    if (distToSurface <? 0.02)%js then
      let contactFactor := Js.max 0 (1 - distToSurface / 0.02)%js in
      lerp T (s_tempSurface s) (thermalRate f * 20 * contactFactor * dt f)%js
    else T in
  let T :=
    if (distToWall <? 0.015)%js || (halfH f - y <? 0.01)%js then
      lerp T (s_tempFluidInitial s) (thermalRate f * 5 * dt f)%js
    else T in
  if canConvect f then lerp T (avgT f) (thermalRate f * 0.1 * dt f)%js
  else T.

(** B.1 Buoyancy and the boiling phase change: the phase written to
    [state[i]] and the vertical force. *)
Definition buoyancy (f : Frame) (s : SimState) (T : num) : num :=
  (s_gravity s * s_expansion s * (T - avgT f) * 250)%js.

Definition phase_force (params : SimulationParams) (f : Frame)
    (s : SimState) (T : num) : nat * num :=
  if (T >? boilingPoint params)%js
  then (1%nat, (0 + s_gravity s * 2.0)%js)
  else (0%nat, (0 + buoyancy f s T)%js).

(** B.2 Toroidal circulation heuristic: the horizontal force [(fx, fz)]. *)
Definition toroidal (params : SimulationParams) (f : Frame)
    (x y z r T : num) : num * num :=
  let tempDiff := (T - avgT f)%js in
  let fx : num := 0 in
  let fz : num := 0 in
  if canConvect f && (r >? 0.001)%js then
    let rNorm := (r / radius f)%js in
    let yNorm := ((y + halfH f) / containerHeight params)%js in
    let '(fx, fz) :=
      if (tempDiff >? 0)%js && (yNorm >? 0.8)%js then
        let spread := (2.0 * rNorm)%js in
        ((fx + x / r * spread)%js, (fz + z / r * spread)%js)
      else (fx, fz) in
    if (tempDiff <? 0)%js && (yNorm <? 0.2)%js then
      let suck : num := 2.0 in
      ((fx - x / r * suck)%js, (fz - z / r * suck)%js)
    else (fx, fz)
  else (fx, fz).

(** B.3 Brownian motion: one draw of the oracle per axis. *)
Definition jitter (T : num) : num := (T / 500 * 0.05)%js.

Definition brownian (k : nat) (T fa : num) : num :=
  (fa + (random k - 0.5) * jitter T)%js.

(** C. Euler integration, drag and the velocity clamp, per axis. *)
Definition clampV (v : num) : num :=
  Js.max (- MAX_VELOCITY)%js (Js.min MAX_VELOCITY v).

Definition integrate (f : Frame) (v fa : num) : num :=
  let v := (v + fa * dt f / inertiaFactor f)%js in
  let v := (v * dragFactor f)%js in
  clampV v.

Definition advance (f : Frame) (p v : num) : num := (p + v * dt f)%js.

(** D. Boundary constraints. *)
Definition floor_hit (f : Frame) (y : num) : bool := (y <? - halfH f)%js.

Definition ceiling_hit (f : Frame) (y : num) : bool := (y >? halfH f)%js.

Definition floor_ceiling (f : Frame) (s : SimState) (y vy T : num)
    : num * num * num :=
  let '(y, vy, T) :=
    if floor_hit f y then
      ((- halfH f + 0.001)%js, (vy * (-0.4))%js,
       lerp T (s_tempSurface s) 0.2)
    else (y, vy, T) in
  if ceiling_hit f y then ((halfH f - 0.001)%js, (vy * (-0.4))%js, T)
  else (y, vy, T).

Definition walls (f : Frame) (x z vx vz : num) : num * num * num * num :=
  let newR := Js.sqrt (x * x + z * z)%js in
  if (newR >? radius f)%js then
    let angle := Js.atan2 z x in
    ((radius f * Js.cos angle)%js, (radius f * Js.sin angle)%js,
     (vx * (-0.5))%js, (vz * (-0.5))%js)
  else (x, z, vx, vz).

(** The safety check for NaN and Infinity. *)
Definition blown_up (x y z : num) : bool :=
  negb (Js.isFinite x) || negb (Js.isFinite y) || negb (Js.isFinite z).

(** The safe random state a blown-up particle is reset to; three draws. *)
Definition safe_state (f : Frame) (s : SimState) (k : nat) (st : nat)
    (col : Color) : Cells :=
  let safeR := (random k * radius f * 0.8)%js in
  let safeTheta := (random (k + 1) * 2 * PI)%js in
  {| c_x := (safeR * Js.cos safeTheta)%js;
     c_y := ((random (k + 2) - 0.5) * halfH f)%js;
     c_z := (safeR * Js.sin safeTheta)%js;
     c_vx := 0; c_vy := 0; c_vz := 0;
     c_T := s_tempFluidInitial s;
     c_state := st;
     c_color := col |}.

(** E. Visualisation colour. *)
Definition tNorm (s : SimState) (T : num) : num :=
  let t := ((T - s_tempFluidInitial s)
            / Js.max 1 (s_tempSurface s - s_tempFluidInitial s))%js in
  Js.max 0 (Js.min 1 t).

Definition isConducting (f : Frame) (s : SimState) (y T : num) : bool :=
  (y + halfH f <? 0.015)%js && (T >? s_tempFluidInitial s + 5)%js.

Definition gradient (t : num) : Color :=
  if (t <? 0.25)%js then lerpColors _cBlue _cCyan (t * 4)%js
  else if (t <? 0.5)%js then lerpColors _cCyan _cGreen ((t - 0.25) * 4)%js
  else if (t <? 0.75)%js then lerpColors _cGreen _cYellow ((t - 0.5) * 4)%js
  else lerpColors _cYellow _cRed ((t - 0.75) * 4)%js.

Definition watery (conducting : bool) (vx vy vz : num) : Color :=
  let speed := Js.sqrt (Js.sq vx + Js.sq vy + Js.sq vz)%js in
  let bright := Js.min 1 (speed * 2)%js in
  let c : Color :=
    ((0.1 + bright * 0.2)%js, (0.4 + bright * 0.2)%js,
     (0.8 + bright * 0.2)%js) in
  if conducting then color_lerp c _cGlow 0.5 else c.

Definition color_of (f : Frame) (s : SimState) (showHeatMap : bool)
    (c : Cells) : Color :=
  let t := tNorm s (c_T c) in
  let conducting := isConducting f s (c_y c) (c_T c) in
  if Nat.eqb (c_state c) 1 then _cGas
  else if showHeatMap then
         (if conducting then _cGlow else gradient t)
  else watery conducting (c_vx c) (c_vy c) (c_vz c).

(** Sections A to D of the loop body on the cells of one particle, up to
    the walls: the coordinates, velocity, temperature and phase the safety
    check finds.  The phase and the colour the particle had before are
    overwritten without being read; three draws of the oracle from cursor
    [k]. *)
Definition move (params : SimulationParams) (f : Frame) (s : SimState)
    (k : nat) (c : Cells) : Cells :=
  let x := c_x c in
  let y := c_y c in
  let z := c_z c in
  let r := Js.sqrt (x * x + z * z)%js in
  let T := thermal f s y r (c_T c) in
  let '(st, fy) := phase_force params f s T in
  let '(fx, fz) := toroidal params f x y z r T in
  let fx := brownian k T fx in
  let fy := brownian (k + 1) T fy in
  let fz := brownian (k + 2) T fz in
  let vx := integrate f (c_vx c) fx in
  let vy := integrate f (c_vy c) fy in
  let vz := integrate f (c_vz c) fz in
  let x := advance f x vx in
  let y := advance f y vy in
  let z := advance f z vz in
  let '(y, vy, T) := floor_ceiling f s y vy T in
  let '(x, z, vx, vz) := walls f x z vx vz in
  {| c_x := x; c_y := y; c_z := z;
     c_vx := vx; c_vy := vy; c_vz := vz;
     c_T := T; c_state := st;
     c_color := c_color c |}.

(** The safety check on what [move] left, with the cursor after it. *)
Definition recover (f : Frame) (s : SimState) (k : nat) (q : Cells)
    : Cells * nat :=
  if blown_up (c_x q) (c_y q) (c_z q)
  then (safe_state f s (k + 3) (c_state q) (c_color q), (k + 6)%nat)
  else (q, (k + 3)%nat).

(** Section E: the colour of the particle, from its final cells. *)
Definition paint (f : Frame) (s : SimState) (showHeatMap : bool)
    (q : Cells) : Cells :=
  {| c_x := c_x q; c_y := c_y q; c_z := c_z q;
     c_vx := c_vx q; c_vy := c_vy q; c_vz := c_vz q;
     c_T := c_T q; c_state := c_state q;
     c_color := color_of f s showHeatMap q |}.

(** One iteration of the main loop on the cells of particle [i], read at
    cursor [k] of the oracle: the new cells and the new cursor. *)
Definition particle_body (params : SimulationParams) (f : Frame)
    (s : SimState) (showHeatMap : bool) (k : nat) (c : Cells)
    : Cells * nat :=
  let (q, k') := recover f s k (move params f s k c) in
  (paint f s showHeatMap q, k').

(** The cells of particle [i] in the arrays. *)
Definition read (e : Ensemble) (i : nat) : Cells :=
  let idx := (i * 3)%nat in
  {| c_x := get (positions e) idx;
     c_y := get (positions e) (idx + 1);
     c_z := get (positions e) (idx + 2);
     c_vx := get (velocities e) idx;
     c_vy := get (velocities e) (idx + 1);
     c_vz := get (velocities e) (idx + 2);
     c_T := get (temperatures e) i;
     c_state := get_state (state e) i;
     c_color := (get (colors e) idx, get (colors e) (idx + 1),
                 get (colors e) (idx + 2)) |}.

Definition write (e : Ensemble) (i : nat) (c : Cells) : Ensemble :=
  let idx := (i * 3)%nat in
  {| positions := set3 (positions e) idx (c_x c) (c_y c) (c_z c);
     velocities := set3 (velocities e) idx (c_vx c) (c_vy c) (c_vz c);
     temperatures := set (temperatures e) i (c_T c);
     colors := set3 (colors e) idx (cr (c_color c)) (cg (c_color c))
                 (cb (c_color c));
     state := set (state e) i (c_state c);
     meta := meta e |}.

Definition particle_iter (params : SimulationParams) (f : Frame)
    (s : SimState) (showHeatMap : bool) (i : nat) (acc : Ensemble * nat)
    : Ensemble * nat :=
  let (e, k) := acc in
  let (c, k') := particle_body params f s showHeatMap k (read e i) in
  (write e i c, k').

Definition particle_loop (params : SimulationParams) (f : Frame)
    (s : SimState) (showHeatMap : bool) (count : nat)
    (acc : Ensemble * nat) : Ensemble * nat :=
  fold_left (fun acc i => particle_iter params f s showHeatMap i acc)
    (seq 0 count) acc.

(** *** The frame callback ([useFrame]) *)

(** The smoothed state of the frame: the seven parameters, then the
    running average temperature. *)
Definition frame_state (params : SimulationParams) (w : World) : SimState :=
  let s := smooth params (sim w) in
  set_avgSystemTemp s
    (lerp (s_avgSystemTemp s)
       (frameAvgT (temperatures (ens w)) (particleCount params)) 0.1).

Definition useFrame (params : SimulationParams) (rayleigh : num)
    (hasPoints isPlaying showHeatMap : bool) (delta : num) (w : World)
    : World :=
  if negb hasPoints || negb isPlaying then w
  else
    let s := frame_state params w in
    let f := mkFrame params rayleigh s delta in
    let (e, k) :=
      particle_loop params f s showHeatMap (particleCount params)
        (ens w, cursor w) in
    {| sim := s; ens := e; cursor := k |}.

(** The world after a run of frames under a constant configuration, one
    frame per elapsed time of [deltas]. *)
Fixpoint frames (params : SimulationParams) (rayleigh : num)
    (showHeatMap : bool) (deltas : list num) (w : World) : World :=
  match deltas with
  | [] => w
  | delta :: rest =>
      frames params rayleigh showHeatMap rest
        (useFrame params rayleigh true true showHeatMap delta w)
  end.

End Program.

(* ================================================================= *)
(** ** The derived-quantity calculator of [App.tsx] *)

Inductive FlowRegime : Type :=
| Conductive
| LaminarConvection
| TurbulentConvection
| BoilingPhaseChange.

Inductive FluidState : Type := liquid | gas.

(** The fields of [ComputedValues] that do not go through the Nusselt
    correlation. *)
Record ComputedValues : Type := {
  rayleigh : num;
  prandtl : num;
  avgFluidTemp : num;
  flowRegime : FlowRegime;
  fluidState : FluidState
}.

Definition computed (params : SimulationParams) : ComputedValues :=
  let kinematicViscosity := (viscosityDynamic params / density params)%js in
  let prandtl := (kinematicViscosity / thermalDiffusivity params)%js in
  let deltaT := Js.max 0 (tempSurface params - tempFluidInitial params)%js in
  let rayleigh :=
    (gravity params * expansionCoefficient params * deltaT
     * Js.cube (containerHeight params)
     / (kinematicViscosity * thermalDiffusivity params))%js in
  let estimatedInternalTemp := (tempFluidInitial params + deltaT * 0.4)%js in
  let '(flowRegime, fluidState) :=
    if (estimatedInternalTemp >=? boilingPoint params)%js
       || (tempSurface params >? boilingPoint params)%js
    then (BoilingPhaseChange, gas)
    else if (rayleigh >? 1708)%js then
           ((if (rayleigh >? 1e9)%js then TurbulentConvection
             else LaminarConvection), liquid)
    else (Conductive, liquid) in
  {| rayleigh := rayleigh; prandtl := prandtl;
     avgFluidTemp := estimatedInternalTemp;
     flowRegime := flowRegime; fluidState := fluidState |}.

(** [Math.abs]. *)
Definition Math_abs (a : num) : num :=
  match a with
  | Fin x => Fin (Rabs x)
  | PInf | NInf => PInf
  | NaN => NaN
  end.

(** [Math.pow(a, y)] for a fractional exponent [0 < y < 1], which the
    three exponents of the Nusselt correlation are: a negative base gives
    NaN, zero gives zero, both infinities give [+Infinity]. *)
Definition Math_pow_frac (a : num) (y : R) : num :=
  match a with
  | Fin x =>
      if Rlt_dec 0 x then Fin (Rpower x y)
      else if Rlt_dec x 0 then NaN else Fin 0
  | PInf | NInf => PInf
  | NaN => NaN
  end.

(** The fields of [ComputedValues] that go through the Nusselt
    correlation. *)
Record HeatValues : Type := {
  nusselt : num;
  heatTransferCoeff : num;
  heatTransferRate : num
}.

(** The rest of the calculator of [App.tsx]: the Nusselt number, the heat
    transfer coefficient and the heat transfer rate; the conductivity of
    the fluid and the area of the hot surface are the two fields of the
    configuration that only this part reads. *)
Definition computed_heat (params : SimulationParams)
    (thermalConductivityFluid surfaceAreaHot : num) : HeatValues :=
  let kinematicViscosity := (viscosityDynamic params / density params)%js in
  let prandtl := (kinematicViscosity / thermalDiffusivity params)%js in
  let deltaT := Js.max 0 (tempSurface params - tempFluidInitial params)%js in
  let rayleigh :=
    (gravity params * expansionCoefficient params * deltaT
     * Js.cube (containerHeight params)
     / (kinematicViscosity * thermalDiffusivity params))%js in
  let estimatedInternalTemp := (tempFluidInitial params + deltaT * 0.4)%js in
  let nusselt :=
    if (estimatedInternalTemp >=? boilingPoint params)%js
       || (tempSurface params >? boilingPoint params)%js
    then (100 + (Js.max estimatedInternalTemp (tempSurface params)
                 - boilingPoint params) * 10)%js
    else if (rayleigh >? 1708)%js then
           let numerator :=
             (0.387 * Math_pow_frac (Math_abs rayleigh) (1 / 6))%js in
           let denominator :=
             Math_pow_frac (1 + Math_pow_frac (0.492 / prandtl) (9 / 16))%js
               (8 / 27) in
           Js.sq (0.825 + numerator / denominator)%js
    else Fin 1 in
  let h := (thermalConductivityFluid / containerHeight params * nusselt)%js in
  let q := (h * surfaceAreaHot * deltaT)%js in
  {| nusselt := nusselt; heatTransferCoeff := h; heatTransferRate := q |}.

(** The integrator as the component runs it: with the Rayleigh number of
    the calculator. *)
Definition FluidSystem_frame (rnd : nat -> R) (params : SimulationParams)
    (showHeatMap : bool) (delta : num) (w : World) : World :=
  useFrame rnd params (rayleigh (computed params)) true true showHeatMap
    delta w.

(** The world of a component that has just mounted: the initial smoothed
    state and the ensemble of the initialiser, drawn from cursor [k]. *)
Definition mount (rnd : nat -> R) (params : SimulationParams) (k : nat)
    : World :=
  {| sim := init_sim params;
     ens := fst (init_ensemble rnd params k);
     cursor := snd (init_ensemble rnd params k) |}.

(* ================================================================= *)
(** ** Vocabulary of the statements *)

(** Every draw of the oracle lies in [[0, 1)]. *)
Definition valid_oracle (rnd : nat -> R) : Prop :=
  forall k, 0 <= rnd k < 1.

(** An oracle that always draws one half, and one that always draws zero. *)
Definition half_oracle : nat -> R := fun _ => 1 / 2.
Definition zero_oracle : nat -> R := fun _ => 0.

(** The arrays of an ensemble of [n] particles. *)
Definition wf_ensemble (n : nat) (e : Ensemble) : Prop :=
  length (positions e) = (n * 3)%nat /\
  length (velocities e) = (n * 3)%nat /\
  length (temperatures e) = n /\
  length (colors e) = (n * 3)%nat /\
  length (state e) = n.

(** The seven smoothed parameters: the field of the persistent state and
    the field of the configuration it follows. *)
Definition smoothed_fields
    : list ((SimState -> num) * (SimulationParams -> num)) :=
  [ (s_tempSurface, tempSurface);
    (s_tempFluidInitial, tempFluidInitial);
    (s_gravity, gravity);
    (s_viscosity, viscosityDynamic);
    (s_expansion, expansionCoefficient);
    (s_diffusivity, thermalDiffusivity);
    (s_density, density) ].

(** The horizontal distance of a point to the axis. *)
Definition hdist (x z : R) : R := sqrt (x * x + z * z).

(** What every frame establishes for the cells of a particle in a
    container of radius [rad] and half height [hh]: finite coordinates
    and velocity, every velocity component in [[-10, 10]], the horizontal
    distance within the radius, and the height within the half height, up
    to the 0.001 of the floor and ceiling snaps (exactly, once the snaps
    fit in the container). *)
Definition cell_bounds (rad hh : R) (c : Cells) : Prop :=
  exists x y z vx vy vz : R,
    c_x c = Fin x /\ c_y c = Fin y /\ c_z c = Fin z /\
    c_vx c = Fin vx /\ c_vy c = Fin vy /\ c_vz c = Fin vz /\
    (-10 <= vx <= 10 /\ -10 <= vy <= 10 /\ -10 <= vz <= 10) /\
    hdist x z <= rad /\
    Rabs y <= hh + 0.001 /\ (0.0005 <= hh -> Rabs y <= hh).



(** What the initialiser writes for particle [i]: position, temperature
    and variance. *)
Definition read_init (e : Ensemble) (i : nat)
    : num * num * num * num * num :=
  (get (positions e) (i * 3), get (positions e) (i * 3 + 1),
   get (positions e) (i * 3 + 2), get (temperatures e) i, get (meta e) i).

(** The example scenario: water in a small beaker, three particles. *)
Definition water : SimulationParams :=
  {| containerRadius := 0.1;
     containerHeight := 0.2;
     tempSurface := 350;
     tempFluidInitial := 293;
     boilingPoint := 373.15;
     density := 998;
     expansionCoefficient := 0.000207;
     viscosityDynamic := 0.001002;
     thermalDiffusivity := 1.43e-7;
     gravity := 9.81;
     particleCount := 3;
     densityEffect := Some (Fin 1) |}.

(** Three particles at rest just above the floor, at the ambient
    temperature, anywhere horizontally. *)
Definition scenario_ensemble (x0 z0 x1 z1 x2 z2 : R) : Ensemble :=
  {| positions := [Fin x0; Fin (-0.099); Fin z0;
                   Fin x1; Fin (-0.099); Fin z1;
                   Fin x2; Fin (-0.099); Fin z2];
     velocities := repeat (Fin 0) 9;
     temperatures := repeat (Fin 293) 3;
     colors := repeat (Fin 0) 9;
     state := repeat 0%nat 3;
     meta := repeat (Fin 1) 3 |}.

Definition scenario_world (x0 z0 x1 z1 x2 z2 : R) (k : nat) : World :=
  {| sim := init_sim water;
     ens := scenario_ensemble x0 z0 x1 z1 x2 z2;
     cursor := k |}.

(** The configuration [p] with another radius, and with another gravity. *)
Definition with_radius (rad : R) (p : SimulationParams) : SimulationParams :=
  {| containerRadius := Fin rad;
     containerHeight := containerHeight p;
     tempSurface := tempSurface p;
     tempFluidInitial := tempFluidInitial p;
     boilingPoint := boilingPoint p;
     density := density p;
     expansionCoefficient := expansionCoefficient p;
     viscosityDynamic := viscosityDynamic p;
     thermalDiffusivity := thermalDiffusivity p;
     gravity := gravity p;
     particleCount := particleCount p;
     densityEffect := densityEffect p |}.

Definition with_gravity (g : R) (p : SimulationParams) : SimulationParams :=
  {| containerRadius := containerRadius p;
     containerHeight := containerHeight p;
     tempSurface := tempSurface p;
     tempFluidInitial := tempFluidInitial p;
     boilingPoint := boilingPoint p;
     density := density p;
     expansionCoefficient := expansionCoefficient p;
     viscosityDynamic := viscosityDynamic p;
     thermalDiffusivity := thermalDiffusivity p;
     gravity := Fin g;
     particleCount := particleCount p;
     densityEffect := densityEffect p |}.

(** The scenario as it stands when the gravity slider has just been moved
    from the Moon's to the Earth's. *)
Definition moon_world : World :=
  {| sim := init_sim (with_gravity 1.62 water);
     ens := scenario_ensemble 0.05 0 0 0.05 0 0;
     cursor := 0 |}.

(** The configuration [p] with another particle count. *)
Definition with_count (n : nat) (p : SimulationParams) : SimulationParams :=
  {| containerRadius := containerRadius p;
     containerHeight := containerHeight p;
     tempSurface := tempSurface p;
     tempFluidInitial := tempFluidInitial p;
     boilingPoint := boilingPoint p;
     density := density p;
     expansionCoefficient := expansionCoefficient p;
     viscosityDynamic := viscosityDynamic p;
     thermalDiffusivity := thermalDiffusivity p;
     gravity := gravity p;
     particleCount := n;
     densityEffect := densityEffect p |}.

(** The world of a component mounted with no particle. *)
Definition empty_world : World :=
  {| sim := init_sim (with_count 0 water);
     ens := fst (init_ensemble zero_oracle (with_count 0 water) 0);
     cursor := 0 |}.

(** A slow flow under a plate hotter than the boiling point, and the same
    flow under a cooler plate; both within the ranges of the sliders. *)
Definition simmering : SimulationParams :=
  {| containerRadius := 0.1;
     containerHeight := 0.05;
     tempSurface := 375;
     tempFluidInitial := 370;
     boilingPoint := 373.15;
     density := 1000;
     expansionCoefficient := 0.00001;
     viscosityDynamic := 0.001;
     thermalDiffusivity := 4.17e-7;
     gravity := 0.1;
     particleCount := 3;
     densityEffect := Some (Fin 1) |}.

Definition tepid : SimulationParams :=
  {| containerRadius := 0.1;
     containerHeight := 0.05;
     tempSurface := 350;
     tempFluidInitial := 345;
     boilingPoint := 373.15;
     density := 1000;
     expansionCoefficient := 0.00001;
     viscosityDynamic := 0.001;
     thermalDiffusivity := 4.17e-7;
     gravity := 0.1;
     particleCount := 3;
     densityEffect := Some (Fin 1) |}.

(** The frame [f] with the convection flag off. *)
Definition still (f : Frame) : Frame :=
  {| dt := dt f; halfH := halfH f; radius := radius f;
     inertiaFactor := inertiaFactor f; dragFactor := dragFactor f;
     thermalRate := thermalRate f; avgT := avgT f; canConvect := false |}.

(** The temperature the phase test of the loop body reads: the
    temperature of the cells after the thermal physics of the frame. *)
Definition tested_temperature (f : Frame) (s : SimState) (c : Cells) : num :=
  thermal f s (c_y c) (Js.sqrt (c_x c * c_x c + c_z c * c_z c)%js) (c_T c).

(** What the reset leaves of a particle in a container of radius [rad] and
    height [H], with ambient temperature [ambient]. *)
Definition reset_cells (rad H : R) (ambient : num) (c : Cells) : Prop :=
  exists x y z : R,
    c_x c = Fin x /\ c_y c = Fin y /\ c_z c = Fin z /\
    hdist x z <= 0.8 * rad /\ Rabs y <= H / 2 /\
    c_vx c = Fin 0 /\ c_vy c = Fin 0 /\ c_vz c = Fin 0 /\
    c_T c = ambient.

(** The coordinates the safety check finds are not all finite. *)
Definition blown_at_check (q : Cells) : Prop :=
  blown_up (c_x q) (c_y q) (c_z q) = true.

(** The velocity clamp on the reals. *)
Definition clamp10 (r : R) : R := Rmax (-10) (Rmin 10 r).

Definition finite_sim (s : SimState) : Prop :=
  finite (s_tempSurface s) /\ finite (s_tempFluidInitial s) /\
  finite (s_gravity s) /\ finite (s_viscosity s) /\
  finite (s_expansion s) /\ finite (s_diffusivity s) /\
  finite (s_density s) /\ finite (s_avgSystemTemp s).

Definition finite_params (p : SimulationParams) : Prop :=
  finite (tempSurface p) /\ finite (tempFluidInitial p) /\
  finite (gravity p) /\ finite (viscosityDynamic p) /\
  finite (expansionCoefficient p) /\ finite (thermalDiffusivity p) /\
  finite (density p) /\
  (densityEffect p = None \/ exists r, densityEffect p = Some (Fin r)).

Definition finite_temperatures (n : nat) (e : Ensemble) : Prop :=
  forall j, (j < n)%nat -> finite (get (temperatures e) j).

Definition finite_cells (c : Cells) : Prop :=
  finite (c_x c) /\ finite (c_y c) /\ finite (c_z c) /\
  finite (c_vx c) /\ finite (c_vy c) /\ finite (c_vz c) /\ finite (c_T c).

(** A frame of zero duration between finite quantities. *)
Definition still_frame (f : Frame) (rad H : R) : Prop :=
  dt f = Fin 0 /\ halfH f = Fin (H / 2) /\ radius f = Fin rad /\
  (exists m, inertiaFactor f = Fin m /\ 0 < m) /\
  dragFactor f = Fin 0.999 /\
  finite (thermalRate f) /\ finite (avgT f).

(** The frame of the example scenario: 16 ms, no convection. *)
Definition heated_frame (f : Frame) : Prop :=
  dt f = Fin 0.016 /\ halfH f = Fin 0.1 /\ radius f = Fin 0.1 /\
  inertiaFactor f = Fin 0.998 /\
  (exists g, dragFactor f = Fin g /\ 0.99 < g < 1) /\
  thermalRate f = Fin 0.01144 /\ avgT f = Fin 293 /\ canConvect f = false.

(** The example scenario with a NaN injected in its first particle. *)
Definition nan_world : World :=
  {| sim := init_sim water;
     ens := {| positions := [NaN; Fin (-0.099); Fin 0;
                             Fin 0; Fin (-0.099); Fin 0.05;
                             Fin 0; Fin (-0.099); Fin 0];
               velocities := repeat (Fin 0) 9;
               temperatures := repeat (Fin 293) 3;
               colors := repeat (Fin 0) 9;
               state := repeat 0%nat 3;
               meta := repeat (Fin 1) 3 |};
     cursor := 0 |}.

(** The example scenario with its first particle thrown to
    [y = +Infinity], on the axis, at 300 K. *)
Definition lofted_world : World :=
  {| sim := init_sim water;
     ens := {| positions := [Fin 0; PInf; Fin 0;
                             Fin 0; Fin (-0.099); Fin 0.05;
                             Fin 0; Fin (-0.099); Fin 0];
               velocities := repeat (Fin 0) 9;
               temperatures := [Fin 300; Fin 293; Fin 293];
               colors := repeat (Fin 0) 9;
               state := repeat 0%nat 3;
               meta := repeat (Fin 1) 3 |};
     cursor := 0 |}.

(** A frame of 16 ms in the beaker, the gate open or not, around an
    average temperature between 293 K and 300 K. *)
Definition beaker_frame (f : Frame) : Prop :=
  dt f = Fin 0.016 /\ halfH f = Fin 0.1 /\ radius f = Fin 0.1 /\
  inertiaFactor f = Fin 0.998 /\
  (exists g, dragFactor f = Fin g) /\
  thermalRate f = Fin 0.01144 /\
  (exists av, avgT f = Fin av /\ 293 <= av <= 300).

(** The example scenario with its first particle drifting at 1 m/s from
    the centre of the beaker. *)
Definition drifting_world : World :=
  {| sim := init_sim water;
     ens := {| positions := [Fin 0; Fin 0; Fin 0;
                             Fin 0; Fin (-0.099); Fin 0.05;
                             Fin 0; Fin (-0.099); Fin 0];
               velocities := [Fin 1; Fin 0; Fin 0;
                              Fin 0; Fin 0; Fin 0;
                              Fin 0; Fin 0; Fin 0];
               temperatures := repeat (Fin 293) 3;
               colors := repeat (Fin 0) 9;
               state := repeat 0%nat 3;
               meta := repeat (Fin 1) 3 |};
     cursor := 0 |}.

(** Two ensembles with the same positions, velocities and temperatures. *)
Definition same_motion (e1 e2 : Ensemble) : Prop :=
  positions e1 = positions e2 /\ velocities e1 = velocities e2 /\
  temperatures e1 = temperatures e2.

(** The example scenario with a NaN as the temperature of its last
    particle. *)
Definition nan_temperature_world : World :=
  {| sim := init_sim water;
     ens := {| positions := [Fin 0.05; Fin (-0.099); Fin 0;
                             Fin 0; Fin (-0.099); Fin 0.05;
                             Fin 0; Fin (-0.099); Fin 0];
               velocities := repeat (Fin 0) 9;
               temperatures := [Fin 293; Fin 293; NaN];
               colors := repeat (Fin 0) 9;
               state := repeat 0%nat 3;
               meta := repeat (Fin 1) 3 |};
     cursor := 0 |}.

(** The three components of the heat-map gradient, as reals. *)
Definition gradient_rgb (t : R) : R * R * R :=
  (real (cr (gradient (Fin t))), real (cg (gradient (Fin t))),
   real (cb (gradient (Fin t)))).

(** The beaker of the example on a plate colder than the water. *)
Definition cold_plate : SimulationParams :=
  {| containerRadius := 0.1;
     containerHeight := 0.2;
     tempSurface := 280;
     tempFluidInitial := 293;
     boilingPoint := 373.15;
     density := 998;
     expansionCoefficient := 0.000207;
     viscosityDynamic := 0.001002;
     thermalDiffusivity := 1.43e-7;
     gravity := 9.81;
     particleCount := 3;
     densityEffect := Some (Fin 1) |}.

(** The configuration [p] with another height. *)
Definition with_height (H : R) (p : SimulationParams) : SimulationParams :=
  {| containerRadius := containerRadius p;
     containerHeight := Fin H;
     tempSurface := tempSurface p;
     tempFluidInitial := tempFluidInitial p;
     boilingPoint := boilingPoint p;
     density := density p;
     expansionCoefficient := expansionCoefficient p;
     viscosityDynamic := viscosityDynamic p;
     thermalDiffusivity := thermalDiffusivity p;
     gravity := gravity p;
     particleCount := particleCount p;
     densityEffect := densityEffect p |}.

(** A finite number between [lo] and [hi]. *)
Definition within (lo hi : R) (a : num) : Prop :=
  exists t, a = Fin t /\ lo <= t <= hi.

(** What a run keeps of the temperatures, between [lo] and [hi], in a
    container of height [H]: the smoothed surface and ambient
    temperatures and the running average are in the range, the smoothed
    diffusivity is at most [1.25e-5] (a thermal rate of at most 1), and
    every particle has its temperature in the range and is not below the
    floor. *)
Definition thermal_invariant (params : SimulationParams) (lo hi H : R)
    (w : World) : Prop :=
  within lo hi (s_tempSurface (sim w)) /\
  within lo hi (s_tempFluidInitial (sim w)) /\
  within lo hi (s_avgSystemTemp (sim w)) /\
  within 0 1.25e-5 (s_diffusivity (sim w)) /\
  forall i, (i < particleCount params)%nat ->
    within lo hi (c_T (read (ens w) i)) /\
    exists y, c_y (read (ens w) i) = Fin y /\ - (H / 2) <= y.

(** An elapsed time the renderer reports: finite, not negative. *)
Definition elapsed (delta : num) : Prop :=
  exists d, delta = Fin d /\ 0 <= d.

Ltac decide_reals :=
  repeat match goal with
    | |- context [Rlt_dec ?a ?b] => destruct (Rlt_dec a b)
    | |- context [Rle_dec ?a ?b] => destruct (Rle_dec a b)
    | |- context [Req_dec_T ?a ?b] => destruct (Req_dec_T a b)
    end.

Ltac decide_reals_in H :=
  repeat match type of H with
    | context [Rlt_dec ?a ?b] => destruct (Rlt_dec a b); cbn in H
    | context [Rle_dec ?a ?b] => destruct (Rle_dec a b); cbn in H
    | context [Req_dec_T ?a ?b] => destruct (Req_dec_T a b); cbn in H
    end.

Ltac js_unfold :=
  unfold Js.gt, Js.max, Js.min, Js.lt, Js.ge, Js.sub, Js.neg, Js.add,
    Js.mul, Js.div, Js.inf_times, Js.inf, Js.isFinite, Rltb, Rleb in *.

(* ================================================================= *)
(** ** Typed arrays *)

Lemma length_set {A : Type} (a : list A) (i : nat) (v : A) :
  length (set a i v) = length a.
Proof.
  revert i; induction a as [|h t IH]; intros [|j]; simpl; auto.
Qed.

Lemma nth_set_eq {A : Type} (a : list A) (i : nat) (v d : A) :
  (i < length a)%nat -> nth i (set a i v) d = v.
Proof.
  revert i; induction a as [|h t IH]; intros [|j]; simpl; intros H;
    try lia; auto.
  apply IH; lia.
Qed.

Lemma nth_set_neq {A : Type} (a : list A) (i j : nat) (v d : A) :
  i <> j -> nth j (set a i v) d = nth j a d.
Proof.
  revert i j; induction a as [|h t IH]; intros [|i] [|j] H; simpl; auto;
    try congruence.
Qed.

Lemma length_set3 (a : list num) (idx : nat) (u v w : num) :
  length (set3 a idx u v w) = length a.
Proof. unfold set3; now rewrite !length_set. Qed.

Lemma get_set3_other (a : list num) (idx j : nat) (u v w : num) :
  j <> idx -> j <> (idx + 1)%nat -> j <> (idx + 2)%nat ->
  get (set3 a idx u v w) j = get a j.
Proof.
  intros H0 H1 H2; unfold get, set3.
  rewrite !nth_set_neq; auto.
Qed.

Lemma get_set3_0 (a : list num) (idx : nat) (u v w : num) :
  (idx + 2 < length a)%nat -> get (set3 a idx u v w) idx = u.
Proof.
  intros H; unfold get, set3.
  rewrite !nth_set_neq by lia. apply nth_set_eq; lia.
Qed.

Lemma get_set3_1 (a : list num) (idx : nat) (u v w : num) :
  (idx + 2 < length a)%nat -> get (set3 a idx u v w) (idx + 1) = v.
Proof.
  intros H; unfold get, set3.
  rewrite nth_set_neq by lia. apply nth_set_eq; rewrite length_set; lia.
Qed.

Lemma get_set3_2 (a : list num) (idx : nat) (u v w : num) :
  (idx + 2 < length a)%nat -> get (set3 a idx u v w) (idx + 2) = w.
Proof.
  intros H; unfold get, set3.
  apply nth_set_eq; rewrite !length_set; lia.
Qed.

(** *** The loop writes the cells of its own particle only *)

Lemma wf_write (n i : nat) (e : Ensemble) (c : Cells) :
  wf_ensemble n e -> wf_ensemble n (write e i c).
Proof.
  unfold wf_ensemble, write; simpl.
  rewrite !length_set3, !length_set; auto.
Qed.

Lemma read_write_same (n i : nat) (e : Ensemble) (c : Cells) :
  wf_ensemble n e -> (i < n)%nat -> read (write e i c) i = c.
Proof.
  intros (Hp & Hv & Ht & Hc & Hs) Hi.
  unfold read, write; simpl.
  rewrite !get_set3_0, !get_set3_1, !get_set3_2 by lia.
  unfold get, get_state; rewrite !nth_set_eq by lia.
  destruct c as [x y z vx vy vz T st [[r g] b]]; reflexivity.
Qed.

Lemma read_write_other (i j : nat) (e : Ensemble) (c : Cells) :
  i <> j -> read (write e i c) j = read e j.
Proof.
  intros Hij; unfold read, write; simpl.
  rewrite !get_set3_other by lia.
  unfold get, get_state; rewrite !nth_set_neq by lia.
  reflexivity.
Qed.

Lemma meta_write (i : nat) (e : Ensemble) (c : Cells) :
  meta (write e i c) = meta e.
Proof. reflexivity. Qed.

Section Loop.

Variable rnd : nat -> R.
Variables (params : SimulationParams) (f : Frame) (s : SimState)
          (showHeatMap : bool).


Lemma particle_iter_eq (i : nat) (e : Ensemble) (k : nat) :
  particle_iter rnd params f s showHeatMap i (e, k) = (write e i (fst (particle_body rnd params f s showHeatMap k (read e i))),
                   snd (particle_body rnd params f s showHeatMap k (read e i))).
Proof.
  unfold particle_iter.
  destruct (particle_body rnd params f s showHeatMap k (read e i));
    reflexivity.
Qed.

(** Running the loop over a duplicate-free list of particles below [n]:
    the arrays keep their lengths, a particle outside the list keeps its
    cells, and a particle of the list gets the cells the loop body makes
    from the cells it had before the loop. *)
Lemma loop_over (n : nat) (l : list nat) :
  forall (e : Ensemble) (k : nat),
    wf_ensemble n e -> NoDup l -> (forall i, In i l -> (i < n)%nat) ->
    let r := fold_left (fun acc i => particle_iter rnd params f s showHeatMap i acc) l (e, k) in
    wf_ensemble n (fst r) /\
    meta (fst r) = meta e /\
    (forall j, ~ In j l -> read (fst r) j = read e j) /\
    (forall i, In i l ->
       exists ki, read (fst r) i = fst (particle_body rnd params f s showHeatMap ki (read e i))).
Proof.
  induction l as [|a l IH]; intros e k Hwf Hnd Hlt r; subst r;
    cbn [fold_left fst].
  - split; [assumption|]. split; [reflexivity|].
    split; [reflexivity|]. intros i [].
  - inversion Hnd as [|? ? Hna Hnd']; subst.
    rewrite particle_iter_eq.
    set (e1 := write e a (fst (particle_body rnd params f s showHeatMap k (read e a)))).
    set (k1 := snd (particle_body rnd params f s showHeatMap k (read e a))).
    assert (Hwf1 : wf_ensemble n e1) by (apply wf_write; auto).
    destruct (IH e1 k1 Hwf1 Hnd' (fun i Hi => Hlt i (or_intror Hi)))
      as (Hw & Hm & Hout & Hin).
    split; [assumption|]. split; [assumption|]. split.
    + intros j Hj. simpl in Hj.
      rewrite Hout by (intros Hc; apply Hj; now right).
      apply read_write_other. intros ->; apply Hj; now left.
    + intros i [Hi | Hi].
      * subst i. exists k. rewrite Hout by assumption.
        apply (read_write_same n); auto. apply Hlt; now left.
      * destruct (Hin i Hi) as (ki & Hki). exists ki.
        rewrite Hki. f_equal. f_equal.
        apply read_write_other. intros ->; contradiction.
Qed.

Lemma particle_loop_spec (n : nat) (e : Ensemble) (k : nat) :
  wf_ensemble n e ->
  let r := particle_loop rnd params f s showHeatMap n (e, k) in
  wf_ensemble n (fst r) /\
  meta (fst r) = meta e /\
  (forall i, (i < n)%nat ->
     exists ki, read (fst r) i = fst (particle_body rnd params f s showHeatMap ki (read e i))).
Proof.
  intros Hwf r; subst r.
  destruct (loop_over n (seq 0 n) e k Hwf (seq_NoDup n 0)) as (H1 & H2 & _ & H4).
  { intros i Hi; apply in_seq in Hi; lia. }
  split; [assumption|]. split; [assumption|].
  intros i Hi; apply H4, in_seq; lia.
Qed.

End Loop.

(* ================================================================= *)
(** ** The special values *)

Lemma add_nan_r (a : num) : (a + NaN)%js = NaN.
Proof. destruct a; reflexivity. Qed.

Lemma mul_nan_r (a : num) : (a * NaN)%js = NaN.
Proof. destruct a; reflexivity. Qed.

Lemma is_finite_true (a : num) : Js.isFinite a = true -> exists r, a = Fin r.
Proof. destruct a; try discriminate; eauto. Qed.

Lemma clampV_spec (v : num) :
  (v = NaN /\ clampV v = NaN) \/
  (v <> NaN /\ exists r, clampV v = Fin r /\ -10 <= r <= 10).
Proof.
  destruct v; [right | right | right | left]; try (split; [discriminate|]);
    unfold clampV, MAX_VELOCITY; js_unfold; decide_reals;
    try (eexists; split; [reflexivity | lra]); try lra.
  auto.
Qed.

Lemma advance_nan_v (f : Frame) (p : num) : advance f p NaN = NaN.
Proof. unfold advance. simpl. apply add_nan_r. Qed.

Lemma integrate_spec (f : Frame) (v fa : num) :
  integrate f v fa = NaN \/
  exists r, integrate f v fa = Fin r /\ -10 <= r <= 10.
Proof.
  unfold integrate.
  destruct (clampV_spec ((v + fa * dt f / inertiaFactor f) * dragFactor f)%js)
    as [[_ H] | [_ H]]; auto.
Qed.

Lemma integrate_nan_force (f : Frame) (v : num) : integrate f v NaN = NaN.
Proof.
  unfold integrate. cbn [Js.mul Js.div]. rewrite add_nan_r. reflexivity.
Qed.

Lemma brownian_nan_T (rnd : nat -> R) (k : nat) (fa : num) :
  brownian rnd k NaN fa = NaN.
Proof.
  unfold brownian, jitter. cbn [Js.div Js.mul]. rewrite mul_nan_r.
  apply add_nan_r.
Qed.

Lemma lerp_bounce_not_nan (T : num) (a : R) :
  T <> NaN -> lerp T (Fin a) 0.2 <> NaN.
Proof.
  intros HT. unfold lerp. destruct T; try congruence; js_unfold; cbn;
    decide_reals; try discriminate; lra.
Qed.

(* ================================================================= *)
(** ** Geometry *)

Lemma sumsq_nonneg (x z : R) : 0 <= x * x + z * z.
Proof. nra. Qed.

Lemma hdist_polar (rad a : R) :
  0 <= rad -> hdist (rad * cos a) (rad * sin a) = rad.
Proof.
  intros Hrad. unfold hdist.
  replace (rad * cos a * (rad * cos a) + rad * sin a * (rad * sin a))
    with (rad * rad * ((sin a)² + (cos a)²)) by (unfold Rsqr; ring).
  rewrite sin2_cos2, Rmult_1_r. now apply sqrt_square.
Qed.

(* ================================================================= *)
(** ** The stages of the loop body *)

Lemma floor_ceiling_spec (f : Frame) (s : SimState) (y vy T y' vy' T' : num)
    (hh ry : R) :
  halfH f = Fin hh -> 0 <= hh ->
  floor_ceiling f s y vy T = (y', vy', T') -> y' = Fin ry ->
  (Rabs ry <= hh + 0.001 /\ (0.0005 <= hh -> Rabs ry <= hh)) /\
  y <> NaN /\
  (vy' = vy \/ vy' = (vy * (-0.4))%js \/ vy' = (vy * (-0.4) * (-0.4))%js) /\
  (T' = T \/ T' = lerp T (s_tempSurface s) 0.2).
Proof.
  intros Hh Hpos Hfc Hy. subst y'.
  unfold floor_ceiling, floor_hit, ceiling_hit in Hfc. rewrite Hh in Hfc.
  destruct y; js_unfold; cbn in Hfc; decide_reals_in Hfc;
    inversion Hfc; subst; clear Hfc;
    (split; [split; [|intros]; apply Rabs_le; lra |
             split; [discriminate | auto]]).
Qed.

Lemma walls_spec (f : Frame) (x z vx vz x' z' vx' vz' : num) (rad rx rz : R) :
  radius f = Fin rad -> 0 <= rad ->
  walls f x z vx vz = (x', z', vx', vz') -> x' = Fin rx -> z' = Fin rz ->
  hdist rx rz <= rad /\ x <> NaN /\ z <> NaN /\
  ((vx' = vx /\ vz' = vz) \/
   (vx' = (vx * (-0.5))%js /\ vz' = (vz * (-0.5))%js)).
Proof.
  intros HR Hpos Hw Hx Hz. subst x' z'.
  unfold walls in Hw. rewrite HR in Hw.
  destruct x as [a| | |], z as [b| | |]; js_unfold; cbn in Hw;
    decide_reals_in Hw;
    try discriminate;
    try (exfalso; pose proof (sumsq_nonneg a b); lra);
    inversion Hw; subst; clear Hw;
    (split; [ try (rewrite hdist_polar by assumption; lra)
            | split; [discriminate | split; [discriminate | auto]]]).
  unfold hdist; lra.
Qed.

Lemma safe_state_spec (rnd : nat -> R) (f : Frame) (s : SimState) (k st : nat)
    (col : Color) (rad hh : R) :
  valid_oracle rnd -> radius f = Fin rad -> 0 <= rad ->
  halfH f = Fin hh -> 0 <= hh ->
  exists x y z : R,
    c_x (safe_state rnd f s k st col) = Fin x /\
    c_y (safe_state rnd f s k st col) = Fin y /\
    c_z (safe_state rnd f s k st col) = Fin z /\
    hdist x z <= 0.8 * rad /\ Rabs y <= hh / 2.
Proof.
  intros Hr HR HRpos Hh Hhpos.
  unfold safe_state, random. rewrite HR, Hh. cbn.
  do 3 eexists. do 3 (split; [reflexivity|]).
  pose proof (Hr k) as H0. pose proof (Hr (k + 2)%nat) as H2.
  split.
  - rewrite hdist_polar by nra. nra.
  - apply Rabs_le. nra.
Qed.

(** What the safety check leaves: either the safe state, or the cells
    [move] made, which then are finite, in the container, and carry a
    temperature made from a thermal temperature that is not NaN. *)
Lemma physics_spec rnd params f s k c rad hh :
  valid_oracle rnd -> radius f = Fin rad -> 0 <= rad ->
  halfH f = Fin hh -> 0 <= hh ->
  cell_bounds rad hh (fst (recover rnd f s k (move rnd params f s k c))) /\
  (forall a b, s_tempSurface s = Fin a -> s_tempFluidInitial s = Fin b ->
     c_T (fst (recover rnd f s k (move rnd params f s k c))) <> NaN).
Proof.
  intros Hr HR HRpos Hh Hhpos. unfold recover, move.
  set (r0 := Js.sqrt (c_x c * c_x c + c_z c * c_z c)%js).
  set (T3 := thermal f s (c_y c) r0 (c_T c)).
  destruct (phase_force params f s T3) as [st fy].
  destruct (toroidal params f _ _ _ _ _) as [fx fz].
  set (vx := integrate f (c_vx c) _).
  set (vy := integrate f (c_vy c) _).
  set (vz := integrate f (c_vz c) _).
  destruct (floor_ceiling f s _ vy _) as [[y' vy'] T'] eqn:Hfc.
  destruct (walls f _ _ vx vz) as [[[x' z'] vx'] vz'] eqn:Hw.
  cbn [c_x c_y c_z c_state c_color].
  destruct (blown_up x' y' z') eqn:Hb; cbn [fst].
  - destruct (safe_state_spec rnd f s (k + 3) st (c_color c) rad hh
                Hr HR HRpos Hh Hhpos)
      as (x & y & z & Hx & Hy & Hz & Hd & Hay).
    split.
    + exists x, y, z, 0, 0, 0.
      repeat (split; [assumption || reflexivity || lra|]).
      intros; lra.
    + intros a b Ha Hb'. cbn. rewrite Hb'. discriminate.
  - unfold blown_up in Hb.
    apply orb_false_iff in Hb; destruct Hb as [Hb Hz].
    apply orb_false_iff in Hb; destruct Hb as [Hx Hy].
    apply negb_false_iff, is_finite_true in Hx, Hy, Hz.
    destruct Hx as [rx Hx], Hy as [ry Hy], Hz as [rz Hz].
    destruct (floor_ceiling_spec _ _ _ _ _ _ _ _ _ _ Hh Hhpos Hfc Hy)
      as ((Hy1 & Hy2) & Hyn & Hvy & HT').
    destruct (walls_spec _ _ _ _ _ _ _ _ _ _ _ _ HR HRpos Hw Hx Hz)
      as (Hd & Hxn & Hzn & Hvxz).
    assert (Hvx : vx <> NaN).
    { intros E; apply Hxn; rewrite E; apply advance_nan_v. }
    assert (Hvy0 : vy <> NaN).
    { intros E; apply Hyn; rewrite E; apply advance_nan_v. }
    assert (Hvz : vz <> NaN).
    { intros E; apply Hzn; rewrite E; apply advance_nan_v. }
    split.
    + destruct (integrate_spec f (c_vx c) (brownian rnd k T3 fx))
        as [E | (ax & Eax & Bax)]; [contradiction|].
      destruct (integrate_spec f (c_vy c) (brownian rnd (k + 1) T3 fy))
        as [E | (ay & Eay & Bay)]; [contradiction|].
      destruct (integrate_spec f (c_vz c) (brownian rnd (k + 2) T3 fz))
        as [E | (az & Eaz & Baz)]; [contradiction|].
      fold vx in Eax; fold vy in Eay; fold vz in Eaz.
      rewrite Eax, Eaz in Hvxz. rewrite Eay in Hvy.
      assert (Hvy' : exists r, vy' = Fin r /\ -10 <= r <= 10).
      { destruct Hvy as [-> | [-> | ->]]; cbn; eexists;
          (split; [reflexivity|]); nra. }
      assert (Hvxz' : exists a b, vx' = Fin a /\ vz' = Fin b /\
                                  -10 <= a <= 10 /\ -10 <= b <= 10).
      { destruct Hvxz as [[-> ->] | [-> ->]]; cbn; do 2 eexists;
          (split; [reflexivity|]); (split; [reflexivity|]); nra. }
      destruct Hvy' as (by' & -> & Hby).
      destruct Hvxz' as (bx & bz & -> & -> & Hbx & Hbz).
      subst x' y' z'.
      exists rx, ry, rz, bx, by', bz. cbn.
      repeat (split; [reflexivity|]).
      split; [lra|]. split; [assumption|]. split; assumption.
    + intros a b Ha Hb'. cbn [c_T].
      assert (HT3 : T3 <> NaN).
      { intros E. apply Hvx. unfold vx. rewrite E, brownian_nan_T.
        apply integrate_nan_force. }
      destruct HT' as [-> | ->]; [assumption|].
      rewrite Ha. now apply lerp_bounce_not_nan.
Qed.

(* ================================================================= *)
(** ** Colours *)





(* ================================================================= *)
(** ** One frame *)

Lemma particle_body_fst (rnd : nat -> R) (params : SimulationParams)
    (f : Frame) (s : SimState) (show : bool) (k : nat) (c : Cells) :
  fst (particle_body rnd params f s show k c)
  = paint f s show (fst (recover rnd f s k (move rnd params f s k c))).
Proof.
  unfold particle_body.
  destruct (recover rnd f s k (move rnd params f s k c)); reflexivity.
Qed.

Lemma halfH_mkFrame (params : SimulationParams) (ra : num) (s : SimState)
    (delta : num) (H : R) :
  containerHeight params = Fin H ->
  halfH (mkFrame params ra s delta) = Fin (H / 2).
Proof.
  intros E. unfold mkFrame; cbn [halfH]. rewrite E. unfold Js.div.
  destruct (Req_dec_T 2 0); [lra | reflexivity].
Qed.

Lemma radius_mkFrame (params : SimulationParams) (ra : num) (s : SimState)
    (delta : num) :
  radius (mkFrame params ra s delta) = containerRadius params.
Proof. reflexivity. Qed.

(** A frame that runs: the state it leaves is the smoothed state, the
    arrays keep their lengths, [meta] is not written, and the cells of
    every particle are those the loop body makes, at some cursor, from the
    cells the particle had before the frame. *)
Lemma useFrame_spec (rnd : nat -> R) (params : SimulationParams) (ra : num)
    (show : bool) (delta : num) (w : World) :
  wf_ensemble (particleCount params) (ens w) ->
  let s := frame_state params w in
  let f := mkFrame params ra s delta in
  let w' := useFrame rnd params ra true true show delta w in
  sim w' = s /\
  wf_ensemble (particleCount params) (ens w') /\
  meta (ens w') = meta (ens w) /\
  forall i, (i < particleCount params)%nat ->
    exists ki,
      read (ens w') i
      = fst (particle_body rnd params f s show ki (read (ens w) i)).
Proof.
  intros Hwf s f w'. subst w'. unfold useFrame. cbn [negb orb].
  fold s. fold f.
  pose proof (particle_loop_spec rnd params f s show (particleCount params)
                (ens w) (cursor w) Hwf) as Hl.
  cbv zeta in Hl.
  destruct (particle_loop rnd params f s show (particleCount params)
              (ens w, cursor w)) as [e k].
  cbn [sim ens fst] in *. split; [reflexivity | exact Hl].
Qed.


Lemma half_oracle_valid : valid_oracle half_oracle.
Proof. intros k; unfold half_oracle; lra. Qed.

Lemma zero_oracle_valid : valid_oracle zero_oracle.
Proof. intros k; unfold zero_oracle; lra. Qed.

Lemma scenario_wf (x0 z0 x1 z1 x2 z2 : R) :
  wf_ensemble 3 (scenario_ensemble x0 z0 x1 z1 x2 z2).
Proof. repeat split. Qed.

(* ================================================================= *)
(** ** Bounds after a frame *)

(** C1.  After a frame, whatever the configured fluid, the smoothed state,
    the elapsed time and the cells the particles had before (NaN and the
    infinities included), every particle of a container of radius
    [rad >= 0] and height [H >= 0] has a finite velocity with every
    component in [[-10, 10]], a horizontal distance [sqrt (x^2 + z^2)] of
    at most [rad], and a height with [|y| <= H/2 + 0.001]; and
    [|y| <= H/2] exactly as soon as [H >= 0.001]. *)
Theorem C1_frame_bounds (rnd : nat -> R) (params : SimulationParams)
    (ra : num) (show : bool) (delta : num) (w : World) (rad H : R) :
  valid_oracle rnd ->
  containerRadius params = Fin rad -> 0 <= rad ->
  containerHeight params = Fin H -> 0 <= H ->
  wf_ensemble (particleCount params) (ens w) ->
  forall i, (i < particleCount params)%nat ->
    cell_bounds rad (H / 2)
      (read (ens (useFrame rnd params ra true true show delta w)) i).
Proof.
  intros Hr Hrad Hrad0 HH HH0 Hwf i Hi.
  destruct (useFrame_spec rnd params ra show delta w Hwf)
    as (_ & _ & _ & Hcells).
  destruct (Hcells i Hi) as (ki & ->).
  rewrite particle_body_fst.
  set (s := frame_state params w).
  set (f := mkFrame params ra s delta).
  destruct (physics_spec rnd params f s ki (read (ens w) i) rad (H / 2))
    as (Hb & _); auto.
  - apply halfH_mkFrame; assumption.
  - lra.
Qed.

Lemma C1_frame_bounds_witness :
  cell_bounds 0.1 (0.2 / 2)
    (read (ens (useFrame half_oracle water (rayleigh (computed water))
                  true true true 0.016
                  (scenario_world 0.05 0 0 0.05 0 0 0))) 1).
Proof.
  apply (C1_frame_bounds half_oracle water (rayleigh (computed water)) true
           0.016 (scenario_world 0.05 0 0 0.05 0 0 0) 0.1 0.2).
  - exact half_oracle_valid.
  - reflexivity.
  - lra.
  - reflexivity.
  - lra.
  - apply scenario_wf.
  - simpl; lia.
Defined.

(* ================================================================= *)
(** ** Colours after a frame *)



(* ================================================================= *)
(** ** Parameter smoothing *)

Lemma sim_useFrame rnd params ra show delta w :
  sim (useFrame rnd params ra true true show delta w) = frame_state params w.
Proof.
  unfold useFrame; cbn [negb orb].
  destruct (particle_loop _ _ _ _ _ _ _); reflexivity.
Qed.

Lemma lerp_finite (x y t : R) :
  lerp (Fin x) (Fin y) (Fin t) = Fin (x + t * (y - x)).
Proof. unfold lerp; cbn. f_equal. ring. Qed.

Lemma smoothed_field_step params w field target :
  In (field, target) smoothed_fields ->
  field (frame_state params w)
  = lerp (field (sim w)) (target params) lerpRate.
Proof.
  unfold smoothed_fields. intros H.
  repeat (destruct H as [H | H];
          [injection H as <- <-; reflexivity|]).
  destruct H.
Qed.

Lemma smoothed_after_frames rnd params ra show field target (t : R) :
  In (field, target) smoothed_fields -> target params = Fin t ->
  forall deltas w s0, field (sim w) = Fin s0 ->
    field (sim (frames rnd params ra show deltas w))
    = Fin (t + 0.95 ^ length deltas * (s0 - t)).
Proof.
  intros Hin Ht. induction deltas as [|d ds IH]; intros w s0 Hs; cbn [frames length pow].
  - rewrite Hs. f_equal. lra.
  - rewrite (IH _ (s0 + 0.05 * (t - s0))).
    + f_equal. generalize (0.95 ^ length ds); intros p. nra.
    + rewrite sim_useFrame, (smoothed_field_step params w field target Hin).
      rewrite Hs, Ht. apply lerp_finite.
Qed.

Lemma pow95_pos n : 0 < 0.95 ^ n.
Proof. apply pow_lt; lra. Qed.

Lemma geometric_small (c eps : R) :
  0 < eps -> exists N, forall n, (N <= n)%nat -> Rabs (0.95 ^ n * c) < eps.
Proof.
  intros He.
  destruct (pow_lt_1_zero 0.95) with (y := eps / (Rabs c + 1)) as [N HN].
  - rewrite Rabs_pos_eq; lra.
  - apply Rdiv_lt_0_compat; [lra | pose proof (Rabs_pos c); lra].
  - exists N. intros n Hn. specialize (HN n Hn).
    rewrite Rabs_mult.
    pose proof (Rabs_pos c) as Hc. pose proof (Rabs_pos (0.95 ^ n)) as Hp.
    assert (Rabs (0.95 ^ n) * (Rabs c + 1) < eps).
    { apply (Rmult_lt_compat_r (Rabs c + 1)) in HN; [|lra].
      unfold Rdiv in HN. rewrite Rmult_assoc, Rinv_l, Rmult_1_r in HN by lra.
      exact HN. }
    nra.
Qed.

Lemma frames_app rnd params ra show ds1 ds2 w :
  frames rnd params ra show (ds1 ++ ds2) w
  = frames rnd params ra show ds2 (frames rnd params ra show ds1 w).
Proof.
  revert w; induction ds1 as [|d ds IH]; intros w; cbn [frames app]; auto.
Qed.

(** C5.  Each of the seven smoothed parameters that is finite and follows
    a finite target is updated by a frame to [s + 0.05 * (target - s)],
    whatever the elapsed time of the frame; with the configuration held
    constant it is [target + 0.95^n * (s - target)] after [n] frames, so
    from one frame to the next it moves toward the target without ever
    passing it, and it converges to the target. *)
Theorem C5_smoothing (rnd : nat -> R) (params : SimulationParams) (ra : num)
    (show : bool) (w : World) (field : SimState -> num)
    (target : SimulationParams -> num) (s0 t : R) :
  In (field, target) smoothed_fields ->
  field (sim w) = Fin s0 -> target params = Fin t ->
  (forall delta,
     field (sim (useFrame rnd params ra true true show delta w))
     = Fin (s0 + 0.05 * (t - s0))) /\
  (forall deltas,
     field (sim (frames rnd params ra show deltas w))
     = Fin (t + 0.95 ^ length deltas * (s0 - t))) /\
  (forall deltas delta,
     let a := real (field (sim (frames rnd params ra show deltas w))) in
     let b :=
       real (field (sim (frames rnd params ra show (deltas ++ [delta]) w))) in
     (s0 <= t -> a <= b <= t) /\ (t <= s0 -> t <= b <= a)) /\
  (forall eps, 0 < eps ->
     exists N, forall deltas, (N <= length deltas)%nat ->
       Rabs (real (field (sim (frames rnd params ra show deltas w))) - t)
       < eps).
Proof.
  intros Hin Hs Ht.
  pose proof (smoothed_after_frames rnd params ra show field target t Hin Ht)
    as Hclosed.
  split; [|split; [|split]].
  - intros delta.
    rewrite sim_useFrame, (smoothed_field_step params w field target Hin).
    rewrite Hs, Ht. apply lerp_finite.
  - intros deltas. now apply Hclosed.
  - intros deltas delta a b. subst a b.
    rewrite (Hclosed deltas w s0 Hs), (Hclosed (deltas ++ [delta]) w s0 Hs).
    rewrite length_app. cbn [length real]. rewrite Nat.add_1_r. cbn [pow].
    pose proof (pow95_pos (length deltas)) as Hp.
    generalize dependent (0.95 ^ length deltas). intros p Hp.
    split; intros Hle; nra.
  - intros eps He.
    destruct (geometric_small (s0 - t) eps He) as [N HN].
    exists N. intros deltas Hlen.
    rewrite (Hclosed deltas w s0 Hs). cbn [real].
    replace (t + 0.95 ^ length deltas * (s0 - t) - t)
      with (0.95 ^ length deltas * (s0 - t)) by lra.
    now apply HN.
Qed.

Lemma C5_smoothing_witness :
  s_gravity
    (sim (useFrame half_oracle water (rayleigh (computed water)) true true
            true 0.016 moon_world))
  = Fin (1.62 + 0.05 * (9.81 - 1.62)).
Proof.
  refine (proj1 (C5_smoothing half_oracle water (rayleigh (computed water))
                   true moon_world s_gravity gravity 1.62 9.81 _ _ _)
            (Fin 0.016)).
  - unfold smoothed_fields. right; right; left; reflexivity.
  - reflexivity.
  - reflexivity.
Defined.

(* ================================================================= *)
(** ** The ensemble initialiser *)

Section Init.

Variable rnd : nat -> R.
Variable params : SimulationParams.

Lemma init_particle_eq (i : nat) (e : Ensemble) (k : nat) :
  exists e',
    init_particle rnd params i (e, k) = (e', (k + 4)%nat) /\
    length (positions e') = length (positions e) /\
    length (temperatures e') = length (temperatures e) /\
    length (meta e') = length (meta e) /\
    velocities e' = velocities e /\
    ((i * 3 + 2 < length (positions e))%nat ->
     (i < length (temperatures e))%nat -> (i < length (meta e))%nat ->
     read_init e' i = fresh rnd params k) /\
    (forall j, j <> i -> read_init e' j = read_init e j).
Proof.
  unfold init_particle.
  destruct (fresh rnd params k) as [[[[x y] z] T] m].
  eexists; split; [reflexivity|]; cbn [positions temperatures meta velocities].
  rewrite length_set3, !length_set.
  repeat (split; [reflexivity|]).
  split.
  - intros Hp Ht Hm. unfold read_init; cbn [positions temperatures meta].
    rewrite get_set3_0, get_set3_1, get_set3_2 by lia.
    unfold get; rewrite !nth_set_eq by lia. reflexivity.
  - intros j Hj. unfold read_init; cbn [positions temperatures meta].
    rewrite !get_set3_other by lia.
    unfold get; rewrite !nth_set_neq by lia. reflexivity.
Qed.

Lemma init_over (n : nat) (l : list nat) :
  forall (e : Ensemble) (k : nat),
    length (positions e) = (n * 3)%nat -> length (temperatures e) = n ->
    length (meta e) = n ->
    NoDup l -> (forall i, In i l -> (i < n)%nat) ->
    velocities (fst (fold_left (fun acc i => init_particle rnd params i acc)
                       l (e, k))) = velocities e /\
    (forall i, In i l ->
       exists ki,
         read_init (fst (fold_left (fun acc i => init_particle rnd params i acc)
                           l (e, k))) i = fresh rnd params ki) /\
    (forall j, ~ In j l ->
       read_init (fst (fold_left (fun acc i => init_particle rnd params i acc)
                         l (e, k))) j = read_init e j).
Proof.
  induction l as [|a l IH]; intros e k Hp Ht Hm Hnd Hlt; cbn [fold_left fst].
  - split; [reflexivity|]. split; [intros i []|reflexivity].
  - apply NoDup_cons_iff in Hnd; destruct Hnd as [Hna Hnd'].
    destruct (init_particle_eq a e k)
      as (e1 & -> & Hp1 & Ht1 & Hm1 & Hv1 & Hsame & Hother).
    assert (Ha : (a < length (temperatures e))%nat)
      by (rewrite Ht; apply Hlt; now left).
    destruct (IH e1 (k + 4)%nat) as (Hv & Hin & Hout); try congruence.
    { intros i Hi; apply Hlt; now right. }
    split; [congruence|]. split.
    + intros i [Hi | Hi].
      * subst i. exists k. rewrite Hout by assumption.
        apply Hsame; lia.
      * apply Hin; assumption.
    + intros j Hj. simpl in Hj.
      rewrite Hout by (intros Hc; apply Hj; now right).
      apply Hother. intros ->; apply Hj; now left.
Qed.

End Init.

Lemma get_repeat (a : num) (n i : nat) :
  (i < n)%nat -> get (repeat a n) i = a.
Proof.
  unfold get. revert i; induction n as [|n IH]; intros [|i] Hi; simpl;
    try lia; auto. apply IH; lia.
Qed.

Lemma sqrt_unit (u : R) : 0 <= u < 1 -> 0 <= sqrt u <= 1.
Proof.
  intros Hu. split; [apply sqrt_pos|].
  rewrite <- sqrt_1. apply sqrt_le_1_alt. lra.
Qed.

Lemma fresh_spec (rnd : nat -> R) (params : SimulationParams) (k : nat)
    (rad H : R) :
  valid_oracle rnd ->
  containerRadius params = Fin rad -> 0 <= rad ->
  containerHeight params = Fin H -> 0 <= H ->
  exists x y z m : R,
    fresh rnd params k = (Fin x, Fin y, Fin z, tempFluidInitial params, Fin m) /\
    0.001 <= hdist x z <= Rmax 0.001 (0.9 * rad) /\
    Rabs y <= H / 2 /\ 0.8 <= m <= 1.2.
Proof.
  intros Hr Hrad Hrad0 HH HH0. unfold fresh, random. rewrite Hrad, HH.
  pose proof (Hr k) as H0. pose proof (Hr (k + 2)%nat) as H2.
  pose proof (Hr (k + 3)%nat) as H3.
  pose proof (sqrt_unit _ H0) as Hs.
  unfold Js.sqrt. destruct (Rlt_dec (rnd k) 0) as [Hn | _]; [lra|].
  cbn [Js.mul]. set (v := sqrt (rnd k) * rad * 0.9).
  assert (Hv : 0 <= v <= 0.9 * rad) by (unfold v; nra).
  assert (Hmax : exists r, Js.max 0.001 (Fin v) = Fin r /\
                           0.001 <= r <= Rmax 0.001 (0.9 * rad)).
  { pose proof (Rmax_l 0.001 (0.9 * rad)). pose proof (Rmax_r 0.001 (0.9 * rad)).
    js_unfold. destruct (Rlt_dec 0.001 v); eexists; (split; [reflexivity|]); lra. }
  destruct Hmax as (r & -> & Hr1).
  cbn. do 4 eexists. split; [reflexivity|].
  split; [rewrite hdist_polar by lra; lra|].
  split; [apply Rabs_le; nra | lra].
Qed.

Lemma init_ensemble_spec (rnd : nat -> R) (params : SimulationParams)
    (k i : nat) :
  (i < particleCount params)%nat ->
  (exists ki,
     read_init (fst (init_ensemble rnd params k)) i = fresh rnd params ki) /\
  get (velocities (fst (init_ensemble rnd params k))) (i * 3) = Fin 0 /\
  get (velocities (fst (init_ensemble rnd params k))) (i * 3 + 1) = Fin 0 /\
  get (velocities (fst (init_ensemble rnd params k))) (i * 3 + 2) = Fin 0.
Proof.
  intros Hi. unfold init_ensemble.
  set (n := particleCount params) in *.
  set (e0 := {| positions := repeat (Fin 0) (n * 3);
                velocities := repeat (Fin 0) (n * 3);
                temperatures := repeat (Fin 0) n;
                colors := repeat (Fin 0) (n * 3);
                state := repeat 0%nat n;
                meta := repeat (Fin 0) n |}).
  destruct (init_over rnd params n (seq 0 n) e0 k) as (Hv & Hin & _).
  - apply repeat_length.
  - apply repeat_length.
  - apply repeat_length.
  - apply seq_NoDup.
  - intros j Hj; apply in_seq in Hj; lia.
  - split; [apply Hin, in_seq; lia|].
    rewrite Hv. cbn [velocities e0]. rewrite !get_repeat by lia. auto.
Qed.

(** C7, as the code has it.  In a container of radius [rad > 0] and height
    [H > 0], every particle the initialiser makes has a horizontal distance
    [r] with [0.001 <= r <= max 0.001 (0.9 * rad)] (so [r <= 0.9 * rad] as
    soon as [0.9 * rad >= 0.001]), a height with [|y| <= H / 2], the
    velocity [(0, 0, 0)], the configured initial fluid temperature, and a
    variance in [[0.8, 1.2]]. *)
Theorem C7_initial_ensemble (rnd : nat -> R) (params : SimulationParams)
    (k : nat) (rad H : R) (i : nat) :
  valid_oracle rnd ->
  containerRadius params = Fin rad -> 0 < rad ->
  containerHeight params = Fin H -> 0 < H ->
  (i < particleCount params)%nat ->
  exists x y z m : R,
    read_init (fst (init_ensemble rnd params k)) i
    = (Fin x, Fin y, Fin z, tempFluidInitial params, Fin m) /\
    0.001 <= hdist x z <= Rmax 0.001 (0.9 * rad) /\
    (0.001 <= 0.9 * rad -> hdist x z <= 0.9 * rad) /\
    Rabs y <= H / 2 /\
    0.8 <= m <= 1.2 /\
    get (velocities (fst (init_ensemble rnd params k))) (i * 3) = Fin 0 /\
    get (velocities (fst (init_ensemble rnd params k))) (i * 3 + 1) = Fin 0 /\
    get (velocities (fst (init_ensemble rnd params k))) (i * 3 + 2) = Fin 0.
Proof.
  intros Hr Hrad Hrad0 HH HH0 Hi.
  destruct (init_ensemble_spec rnd params k i Hi) as ((ki & Hki) & Hvel).
  destruct (fresh_spec rnd params ki rad H Hr Hrad (Rlt_le _ _ Hrad0) HH
              (Rlt_le _ _ HH0)) as (x & y & z & m & Hf & Hd & Hy & Hm).
  exists x, y, z, m. rewrite Hki.
  split; [exact Hf|]. split; [exact Hd|]. split.
  - intros Hbig. rewrite Rmax_right in Hd by assumption. lra.
  - split; [exact Hy|]. split; [exact Hm | exact Hvel].
Qed.

Lemma C7_initial_ensemble_witness :
  exists x y z m : R,
    read_init (fst (init_ensemble half_oracle water 0)) 1
    = (Fin x, Fin y, Fin z, tempFluidInitial water, Fin m) /\
    0.001 <= hdist x z <= Rmax 0.001 (0.9 * 0.1) /\
    (0.001 <= 0.9 * 0.1 -> hdist x z <= 0.9 * 0.1) /\
    Rabs y <= 0.2 / 2 /\
    0.8 <= m <= 1.2 /\
    get (velocities (fst (init_ensemble half_oracle water 0))) (1 * 3) = Fin 0 /\
    get (velocities (fst (init_ensemble half_oracle water 0))) (1 * 3 + 1)
    = Fin 0 /\
    get (velocities (fst (init_ensemble half_oracle water 0))) (1 * 3 + 2)
    = Fin 0.
Proof.
  apply (C7_initial_ensemble half_oracle water 0 0.1 0.2 1).
  - exact half_oracle_valid.
  - reflexivity.
  - lra.
  - reflexivity.
  - lra.
  - simpl; lia.
Defined.

(** C7, as stated, fails in a valid container of radius 0.001: the floor
    [0.001] of the radial coordinate exceeds [0.9 * 0.001]. *)
Lemma C7_counterexample :
  0 < 0.001 /\ (1 <= particleCount (with_radius 0.001 water))%nat /\
  exists x y z m : R,
    read_init (fst (init_ensemble zero_oracle (with_radius 0.001 water) 0)) 0
    = (Fin x, Fin y, Fin z, tempFluidInitial water, Fin m) /\
    ~ hdist x z <= 0.9 * 0.001.
Proof.
  split; [lra|]. split; [simpl; lia|].
  destruct (init_ensemble_spec zero_oracle (with_radius 0.001 water) 0 0)
    as ((ki & Hki) & _); [simpl; lia|].
  destruct (fresh_spec zero_oracle (with_radius 0.001 water) ki 0.001 0.2
              zero_oracle_valid eq_refl) as (x & y & z & m & Hf & Hd & _);
    [lra | reflexivity | lra |].
  exists x, y, z, m. rewrite Hki. split; [exact Hf | lra].
Qed.

(* ================================================================= *)
(** ** The empty ensemble *)

Lemma sim_frames_cons (rnd : nat -> R) (params : SimulationParams) (ra : num)
    (show : bool) (delta : num) (deltas : list num) (w : World) :
  frames rnd params ra show (delta :: deltas) w
  = frames rnd params ra show deltas
      (useFrame rnd params ra true true show delta w).
Proof. reflexivity. Qed.

Lemma lerp_nan_target (x t : num) : lerp x NaN t = NaN.
Proof. unfold lerp. rewrite mul_nan_r. apply add_nan_r. Qed.

Lemma lerp_nan_start (y : num) (t : R) : lerp NaN y (Fin t) = NaN.
Proof. unfold lerp. cbn [Js.sub Js.neg Js.add Js.mul]. reflexivity. Qed.

Lemma frameAvgT_empty (temps : list num) : frameAvgT temps 0 = NaN.
Proof.
  unfold frameAvgT, sum_temperatures. cbn [seq fold_left INR].
  js_unfold. decide_reals; try reflexivity; lra.
Qed.

Lemma useFrame_empty (rnd : nat -> R) (params : SimulationParams) (ra : num)
    (show : bool) (delta : num) (w : World) :
  particleCount params = 0%nat ->
  useFrame rnd params ra true true show delta w
  = {| sim := frame_state params w; ens := ens w; cursor := cursor w |}.
Proof.
  intros Hn. unfold useFrame, particle_loop. rewrite Hn. reflexivity.
Qed.

(** Once NaN, the running average stays NaN, whatever the frame. *)
Lemma avg_nan_stays (params : SimulationParams) (w : World) :
  s_avgSystemTemp (sim w) = NaN ->
  s_avgSystemTemp (frame_state params w) = NaN.
Proof.
  intros Hs. unfold frame_state, set_avgSystemTemp, smooth.
  cbn [s_avgSystemTemp]. rewrite Hs. apply lerp_nan_start.
Qed.

(** C10.  With [particleCount = 0] the average of the frame is [0 / 0],
    NaN; the running average is NaN after the first frame and after every
    later frame; the arrays and the cursor of the oracle are left as they
    were, and the frame returns normally. *)
Theorem C10_empty_ensemble (rnd : nat -> R) (params : SimulationParams)
    (ra : num) (show : bool) (w : World) :
  particleCount params = 0%nat ->
  frameAvgT (temperatures (ens w)) (particleCount params) = NaN /\
  (forall delta deltas,
     s_avgSystemTemp
       (sim (frames rnd params ra show (delta :: deltas) w)) = NaN /\
     ens (frames rnd params ra show (delta :: deltas) w) = ens w /\
     cursor (frames rnd params ra show (delta :: deltas) w) = cursor w).
Proof.
  intros Hn. split; [rewrite Hn; apply frameAvgT_empty|].
  intros delta deltas. rewrite sim_frames_cons.
  assert (H1 : s_avgSystemTemp
                 (sim (useFrame rnd params ra true true show delta w)) = NaN).
  { rewrite useFrame_empty by assumption. cbn [sim].
    unfold frame_state, set_avgSystemTemp; cbn [s_avgSystemTemp].
    rewrite Hn, frameAvgT_empty. apply lerp_nan_target. }
  assert (H2 : ens (useFrame rnd params ra true true show delta w) = ens w)
    by (rewrite useFrame_empty by assumption; reflexivity).
  assert (H3 : cursor (useFrame rnd params ra true true show delta w)
               = cursor w)
    by (rewrite useFrame_empty by assumption; reflexivity).
  revert H1 H2 H3.
  generalize (useFrame rnd params ra true true show delta w) as w1.
  induction deltas as [|d ds IH]; intros w1 H1 H2 H3; cbn [frames].
  - auto.
  - apply IH; rewrite useFrame_empty by assumption; cbn [sim ens cursor];
      auto.
    now apply avg_nan_stays.
Qed.

Lemma C10_empty_ensemble_witness :
  frameAvgT (temperatures (ens empty_world))
    (particleCount (with_count 0 water)) = NaN /\
  (forall delta deltas,
     s_avgSystemTemp
       (sim (frames zero_oracle (with_count 0 water) (Fin 0) true
               (delta :: deltas) empty_world)) = NaN /\
     ens (frames zero_oracle (with_count 0 water) (Fin 0) true
            (delta :: deltas) empty_world) = ens empty_world /\
     cursor (frames zero_oracle (with_count 0 water) (Fin 0) true
               (delta :: deltas) empty_world) = cursor empty_world).
Proof.
  apply (C10_empty_ensemble zero_oracle (with_count 0 water) (Fin 0) true
           empty_world).
  reflexivity.
Defined.

(* ================================================================= *)
(** ** The convection gate *)

Lemma max_finite (a b : R) : Js.max (Fin a) (Fin b) = Fin (Rmax a b).
Proof.
  unfold Js.max, Js.lt, Rltb, Rmax.
  destruct (Rlt_dec a b); destruct (Rle_dec a b); f_equal; lra.
Qed.

Lemma min_finite (a b : R) : Js.min (Fin a) (Fin b) = Fin (Rmin a b).
Proof.
  unfold Js.min, Js.lt, Rltb, Rmin.
  destruct (Rlt_dec b a); destruct (Rle_dec a b); f_equal; lra.
Qed.

Lemma div_finite (a b : R) : b <> 0 -> (Fin a / Fin b)%js = Fin (a / b).
Proof.
  intros Hb. unfold Js.div. destruct (Req_dec_T b 0); [contradiction|].
  reflexivity.
Qed.

Lemma ge_finite (x y : R) : (Fin x >=? Fin y)%js = true <-> y <= x.
Proof.
  unfold Js.ge, Rleb. destruct (Rle_dec y x); split; auto; discriminate.
Qed.

Lemma gt_finite (x y : R) : (Fin x >? Fin y)%js = true <-> y < x.
Proof.
  unfold Js.gt, Js.lt, Rltb. destruct (Rlt_dec y x); split; auto; discriminate.
Qed.

(** The Rayleigh number of the calculator, and its boiling test. *)
Lemma computed_rayleigh (params : SimulationParams) :
  rayleigh (computed params)
  = (gravity params * expansionCoefficient params
     * Js.max 0 (tempSurface params - tempFluidInitial params)
     * Js.cube (containerHeight params)
     / (viscosityDynamic params / density params
        * thermalDiffusivity params))%js.
Proof.
  unfold computed. destruct (_ || _); [reflexivity|].
  match goal with |- context [if Js.gt ?a ?b then _ else _] =>
    destruct (Js.gt a b) end; reflexivity.
Qed.

Lemma computed_boiling (params : SimulationParams) :
  ((tempFluidInitial params
    + Js.max 0 (tempSurface params - tempFluidInitial params) * 0.4
    >=? boilingPoint params)%js
   || (tempSurface params >? boilingPoint params)%js) = true ->
  flowRegime (computed params) = BoilingPhaseChange /\
  fluidState (computed params) = gas.
Proof. intros E. unfold computed. rewrite E. split; reflexivity. Qed.

Lemma computed_not_boiling (params : SimulationParams) :
  ((tempFluidInitial params
    + Js.max 0 (tempSurface params - tempFluidInitial params) * 0.4
    >=? boilingPoint params)%js
   || (tempSurface params >? boilingPoint params)%js) = false ->
  fluidState (computed params) = liquid.
Proof.
  intros E. unfold computed. rewrite E.
  match goal with |- context [if Js.gt ?a ?b then _ else _] =>
    destruct (Js.gt a b) end; reflexivity.
Qed.

Lemma slow_flow_rayleigh (Ts T0 : R) :
  Ts - T0 = 5 ->
  exists r,
    (Fin 0.1 * Fin 0.00001 * Js.max 0 (Fin Ts - Fin T0) * Js.cube (Fin 0.05)
     / (Fin 0.001 / Fin 1000 * Fin 4.17e-7))%js = Fin r /\
    1000 < r <= 1708.
Proof.
  intros Hd. cbn [Js.sub Js.neg Js.add]. rewrite max_finite.
  replace (Rmax 0 (Ts + - T0)) with 5 by (rewrite Rmax_right; lra).
  cbn [Js.mul Js.cube]. rewrite (div_finite 0.001 1000) by lra.
  cbn [Js.mul]. rewrite div_finite by lra.
  eexists; split; [reflexivity|]. lra.
Qed.

Lemma simmering_computed :
  exists r, rayleigh (computed simmering) = Fin r /\ 1000 < r <= 1708 /\
            flowRegime (computed simmering) = BoilingPhaseChange.
Proof.
  destruct (slow_flow_rayleigh 375 370) as (r & Hr & Hrange); [lra|].
  exists r. rewrite computed_rayleigh. split; [exact Hr|].
  split; [exact Hrange|].
  apply computed_boiling. apply orb_true_iff; right.
  apply gt_finite. lra.
Qed.

Lemma tepid_computed :
  exists r, rayleigh (computed tepid) = Fin r /\ 1000 < r <= 1708 /\
            fluidState (computed tepid) = liquid.
Proof.
  destruct (slow_flow_rayleigh 350 345) as (r & Hr & Hrange); [lra|].
  exists r. rewrite computed_rayleigh. split; [exact Hr|].
  split; [exact Hrange|].
  apply computed_not_boiling. apply orb_false_iff; split.
  - apply not_true_iff_false. unfold tepid; cbn [tempFluidInitial tempSurface
      boilingPoint Js.sub Js.neg Js.add].
    rewrite max_finite. cbn [Js.mul Js.add]. rewrite ge_finite.
    rewrite Rmax_right by lra. lra.
  - apply not_true_iff_false. unfold tepid; cbn [tempSurface boilingPoint].
    rewrite gt_finite. lra.
Qed.

Lemma regime_of_liquid (params : SimulationParams) (r : R) :
  rayleigh (computed params) = Fin r -> r <= 1708 ->
  fluidState (computed params) = liquid ->
  flowRegime (computed params) = Conductive.
Proof.
  unfold computed.
  destruct (_ || _); [discriminate 3|].
  match goal with |- context [if Js.gt ?a ?b then _ else _] =>
    destruct (Js.gt a b) eqn:E end; cbn [rayleigh flowRegime fluidState].
  - intros Hr Hle _. rewrite Hr in E. apply gt_finite in E. lra.
  - reflexivity.
Qed.

Lemma thermal_still (f : Frame) (s : SimState) (y r T : num) :
  thermal f s y r T
  = if canConvect f
    then lerp (thermal (still f) s y r T) (avgT f)
           (thermalRate f * 0.1 * dt f)%js
    else thermal (still f) s y r T.
Proof. unfold thermal, still; cbn. reflexivity. Qed.

Lemma toroidal_still (params : SimulationParams) (f : Frame)
    (x y z r T : num) :
  canConvect f = false -> toroidal params f x y z r T = (Fin 0, Fin 0).
Proof. intros E; unfold toroidal; rewrite E; reflexivity. Qed.

Lemma mkFrame_gate (params : SimulationParams) (ra ra' : num) (s : SimState)
    (delta : num) :
  (ra >? 1000)%js = (ra' >? 1000)%js ->
  mkFrame params ra s delta = mkFrame params ra' s delta.
Proof. intros E; unfold mkFrame; rewrite E; reflexivity. Qed.

Lemma useFrame_gate (rnd : nat -> R) (params : SimulationParams)
    (ra ra' : num) (show : bool) (delta : num) (w : World) :
  (ra >? 1000)%js = (ra' >? 1000)%js ->
  useFrame rnd params ra true true show delta w
  = useFrame rnd params ra' true true show delta w.
Proof.
  intros E; unfold useFrame.
  rewrite (mkFrame_gate params ra ra' _ delta E). reflexivity.
Qed.

(* ================================================================= *)
(** ** Phase change *)


Lemma c_state_recover rnd f s k q :
  c_state (fst (recover rnd f s k q)) = c_state q.
Proof. unfold recover. destruct (blown_up _ _ _); reflexivity. Qed.






(* ================================================================= *)
(** ** Instability recovery *)

Lemma advance_nan_p (f : Frame) (v : num) : advance f NaN v = NaN.
Proof. reflexivity. Qed.

Lemma floor_ceiling_nan f s vy T :
  floor_ceiling f s NaN vy T = (NaN, vy, T).
Proof.
  unfold floor_ceiling, floor_hit, ceiling_hit, Js.gt.
  destruct (halfH f); reflexivity.
Qed.

Lemma walls_nan_x f z vx vz : walls f NaN z vx vz = (NaN, z, vx, vz).
Proof. unfold walls, Js.gt. destruct (radius f); reflexivity. Qed.

Lemma walls_nan_z f x vx vz : walls f x NaN vx vz = (x, NaN, vx, vz).
Proof.
  unfold walls, Js.gt. cbn [Js.mul]. rewrite add_nan_r.
  destruct (radius f); reflexivity.
Qed.

(** A NaN coordinate before the loop body is still there at the check. *)
Lemma move_nan_blown rnd params f s k c :
  c_x c = NaN \/ c_y c = NaN \/ c_z c = NaN ->
  blown_at_check (move rnd params f s k c).
Proof.
  intros H. unfold blown_at_check, move.
  destruct (phase_force params f s _) as [st fy].
  destruct (toroidal params f _ _ _ _ _) as [fx fz].
  destruct H as [H | [H | H]]; rewrite H.
  - rewrite advance_nan_p.
    destruct (floor_ceiling f s _ _ _) as [[y' vy'] T'].
    rewrite walls_nan_x. reflexivity.
  - rewrite advance_nan_p, floor_ceiling_nan.
    destruct (walls f _ _ _ _) as [[[x' z'] vx'] vz'].
    cbn. unfold blown_up; cbn. rewrite orb_true_r. reflexivity.
  - rewrite advance_nan_p.
    destruct (floor_ceiling f s _ _ _) as [[y' vy'] T'].
    rewrite walls_nan_z. cbn. unfold blown_up; cbn. apply orb_true_r.
Qed.

Lemma body_blown rnd params f s show k c rad H :
  valid_oracle rnd -> radius f = Fin rad -> 0 <= rad ->
  halfH f = Fin (H / 2) -> 0 <= H ->
  blown_at_check (move rnd params f s k c) ->
  reset_cells rad H (s_tempFluidInitial s)
    (fst (particle_body rnd params f s show k c)).
Proof.
  intros Hr Hrad Hrad0 Hh HH0 Hb. rewrite particle_body_fst.
  unfold recover. unfold blown_at_check in Hb. rewrite Hb. cbn [fst].
  destruct (safe_state_spec rnd f s (k + 3)
              (c_state (move rnd params f s k c))
              (c_color (move rnd params f s k c)) rad (H / 2)
              Hr Hrad Hrad0 Hh) as (x & y & z & Hx & Hy & Hz & Hd & Hay);
    [lra|].
  exists x, y, z. unfold paint; cbn [c_x c_y c_z c_vx c_vy c_vz c_T].
  repeat (split; [assumption|]).
  split; [lra|]. repeat (split; [reflexivity|]). reflexivity.
Qed.

(* ================================================================= *)
(** ** Finite arithmetic of the stages *)

Lemma clamp10_bounds r : -10 <= clamp10 r <= 10.
Proof.
  unfold clamp10, Rmax, Rmin.
  destruct (Rle_dec 10 r); destruct (Rle_dec (-10) _); lra.
Qed.

Lemma clamp10_id r : -10 <= r <= 10 -> clamp10 r = r.
Proof.
  intros H. unfold clamp10, Rmax, Rmin.
  destruct (Rle_dec 10 r); destruct (Rle_dec (-10) _); lra.
Qed.

Lemma clampV_finite (r : R) : clampV (Fin r) = Fin (clamp10 r).
Proof.
  unfold clampV, MAX_VELOCITY, clamp10, Rmax, Rmin. js_unfold.
  destruct (Rle_dec 10 r); repeat (decide_reals; cbn);
    try (f_equal; lra); lra.
Qed.

Lemma integrate_finite (f : Frame) (v fa d m g : R) :
  dt f = Fin d -> inertiaFactor f = Fin m -> m <> 0 -> dragFactor f = Fin g ->
  integrate f (Fin v) (Fin fa) = Fin (clamp10 ((v + fa * d / m) * g)).
Proof.
  intros Hd Hm Hm0 Hg. unfold integrate. rewrite Hd, Hm, Hg.
  cbn [Js.mul Js.div]. destruct (Req_dec_T m 0); [contradiction|].
  cbn [Js.add Js.mul]. apply clampV_finite.
Qed.

Lemma advance_finite (f : Frame) (p v d : R) :
  dt f = Fin d -> advance f (Fin p) (Fin v) = Fin (p + v * d).
Proof. intros Hd. unfold advance. rewrite Hd. reflexivity. Qed.

Lemma sqrt_sumsq (x z : R) :
  Js.sqrt (Fin x * Fin x + Fin z * Fin z)%js = Fin (hdist x z).
Proof.
  cbn [Js.mul Js.add]. unfold Js.sqrt.
  destruct (Rlt_dec (x * x + z * z) 0) as [H | _]; [|reflexivity].
  exfalso; nra.
Qed.

(** The walls on a finite point with finite velocities: the point stays
    finite, the velocities are kept or halved and reversed, and inside the
    container nothing changes. *)
Lemma walls_finite (f : Frame) (x z vx vz rad : R) :
  radius f = Fin rad ->
  exists x' z' vx' vz',
    walls f (Fin x) (Fin z) (Fin vx) (Fin vz)
    = (Fin x', Fin z', Fin vx', Fin vz') /\
    (vx' = vx \/ vx' = vx * -0.5) /\ (vz' = vz \/ vz' = vz * -0.5) /\
    (hdist x z <= rad -> x' = x /\ z' = z /\ vx' = vx /\ vz' = vz).
Proof.
  intros Hrad. unfold walls. rewrite sqrt_sumsq, Hrad.
  unfold Js.gt, Js.lt, Rltb. destruct (Rlt_dec rad (hdist x z)) as [Hout | Hin].
  - cbn. do 4 eexists. split; [reflexivity|].
    split; [right; reflexivity|]. split; [right; reflexivity|].
    intros; lra.
  - do 4 eexists. split; [reflexivity|].
    split; [left; reflexivity|]. split; [left; reflexivity|].
    intros; repeat split.
Qed.

(** Floor and ceiling on a finite height with a finite velocity. *)
Lemma floor_ceiling_finite (f : Frame) (s : SimState) (y vy hh : R) (T : num) :
  halfH f = Fin hh ->
  exists y' vy',
    floor_ceiling f s (Fin y) (Fin vy) T
    = (Fin y', Fin vy',
       if Rlt_dec y (- hh) then lerp T (s_tempSurface s) 0.2 else T) /\
    (vy' = vy \/ vy' = vy * -0.4 \/ vy' = vy * -0.4 * -0.4) /\
    (- hh <= y <= hh -> y' = y /\ vy' = vy).
Proof.
  intros Hh. unfold floor_ceiling, floor_hit, ceiling_hit. rewrite Hh.
  js_unfold. cbn. destruct (Rlt_dec y (- hh)); cbn; decide_reals;
    do 2 eexists; (split; [reflexivity|]);
    (split; [auto | intros; lra || (split; reflexivity)]).
Qed.

(* ================================================================= *)
(** ** Finite frames *)

Lemma lerp_is_finite (x y t : num) :
  finite x -> finite y -> finite t -> finite (lerp x y t).
Proof.
  intros [a ->] [b ->] [c ->]. unfold lerp; cbn. eexists; reflexivity.
Qed.

Lemma sum_from_finite (temps : list num) (len a : nat) (acc : R) :
  (forall j, (a <= j < a + len)%nat -> finite (get temps j)) ->
  finite (fold_left (fun sumT k => (sumT + get temps k)%js) (seq a len)
            (Fin acc)).
Proof.
  revert a acc. induction len as [|len IH]; intros a acc Hf; cbn [seq fold_left].
  - eexists; reflexivity.
  - destruct (Hf a) as [t Ht]; [lia|]. rewrite Ht. cbn [Js.add].
    apply IH. intros j Hj; apply Hf; lia.
Qed.

Lemma frameAvgT_finite (n : nat) (e : Ensemble) :
  (0 < n)%nat -> finite_temperatures n e ->
  finite (frameAvgT (temperatures e) n).
Proof.
  intros Hn Hf. unfold frameAvgT, sum_temperatures.
  destruct (sum_from_finite (temperatures e) n 0 0) as [t ->].
  - intros j Hj; apply Hf; lia.
  - unfold Js.div. destruct (Req_dec_T (INR n) 0) as [E | _].
    + exfalso. apply (not_0_INR n); [lia | exact E].
    + eexists; reflexivity.
Qed.

Lemma frame_state_finite (params : SimulationParams) (w : World) :
  (0 < particleCount params)%nat ->
  finite_params params -> finite_sim (sim w) ->
  finite_temperatures (particleCount params) (ens w) ->
  finite_sim (frame_state params w).
Proof.
  intros Hn (P1 & P2 & P3 & P4 & P5 & P6 & P7 & _)
    (S1 & S2 & S3 & S4 & S5 & S6 & S7 & S8) Ht.
  assert (Hrate : forall r, finite (Fin r)) by (intros r; eexists; reflexivity).
  unfold finite_sim, frame_state, smooth, set_avgSystemTemp, lerpRate;
    cbn [s_tempSurface s_tempFluidInitial s_gravity s_viscosity s_expansion
         s_diffusivity s_density s_avgSystemTemp].
  repeat split; apply lerp_is_finite; auto.
  now apply frameAvgT_finite.
Qed.

Lemma or_else_finite (de : option num) :
  (de = None \/ exists r, de = Some (Fin r)) ->
  exists r, Js.or_else de 1.0 = Fin r.
Proof.
  intros [-> | [r ->]]; cbn.
  - eexists; reflexivity.
  - destruct (Req_dec_T r 0); eexists; reflexivity.
Qed.

Lemma mkFrame_still (params : SimulationParams) (ra : num) (s : SimState)
    (rad H : R) :
  containerRadius params = Fin rad -> containerHeight params = Fin H ->
  finite_params params -> finite_sim s ->
  still_frame (mkFrame params ra s (Fin 0)) rad H.
Proof.
  intros Hrad HH (_ & _ & _ & _ & _ & _ & _ & Hde)
    (_ & _ & _ & [mu Hmu] & _ & [al Hal] & [rho Hrho] & [av Hav]).
  destruct (or_else_finite _ Hde) as [de Hde'].
  unfold still_frame, mkFrame;
    cbn [dt halfH radius inertiaFactor dragFactor thermalRate avgT].
  rewrite Hde', Hrho, Hmu, Hal, Hav, HH.
  assert (Hin : exists m, Js.max 0.01 (Js.max 1 (Fin rho) * 0.001 * Fin de)%js
                          = Fin m /\ 0 < m).
  { js_unfold. repeat (decide_reals; cbn);
      eexists; (split; [reflexivity|]); lra. }
  destruct Hin as (m & -> & Hm).
  split. { js_unfold. decide_reals; [lra | reflexivity]. }
  split. { unfold Js.div. destruct (Req_dec_T 2 0); [lra | reflexivity]. }
  split; [assumption|].
  split; [exists m; auto|].
  split.
  { cbn [Js.mul Js.div]. destruct (Req_dec_T m 0); [lra|].
    js_unfold. cbn. repeat (decide_reals; cbn); try (f_equal; lra); lra. }
  split; eexists; reflexivity.
Qed.

Lemma lerp_zero_rate (T a q : R) : lerp (Fin T) (Fin a) (Fin (q * 0)) = Fin T.
Proof. unfold lerp; cbn. f_equal. ring. Qed.

(** With no time elapsed, the three thermal exchanges leave the
    temperature as it is. *)
Lemma thermal_zero_dt (f : Frame) (s : SimState) (y T : R) (r : num)
    (rad H : R) :
  still_frame f rad H ->
  finite (s_tempSurface s) -> finite (s_tempFluidInitial s) ->
  thermal f s (Fin y) r (Fin T) = Fin T.
Proof.
  intros (Hd & Hh & _ & _ & _ & [tr Htr] & [av Hav]) [a Ha] [b Hb].
  unfold thermal. rewrite Hd, Hh, Htr, Hav, Ha, Hb.
  assert (Hc : exists cf, Js.max 0 (1 - (Fin y + Fin (H / 2)) / 0.02)%js = Fin cf).
  { js_unfold. repeat (decide_reals; cbn); try lra; eexists; reflexivity. }
  destruct Hc as [cf ->]. cbn [Js.mul].
  repeat match goal with
         | |- context [if ?b then _ else _] => destruct b
         end; rewrite ?lerp_zero_rate; reflexivity.
Qed.

Lemma phase_force_finite (params : SimulationParams) (f : Frame)
    (s : SimState) (T : R) :
  finite (s_gravity s) -> finite (s_expansion s) -> finite (avgT f) ->
  exists fy, snd (phase_force params f s (Fin T)) = Fin fy.
Proof.
  intros [g Hg] [be Hbe] [av Hav]. unfold phase_force, buoyancy.
  rewrite Hg, Hbe, Hav. destruct (_ >? _)%js; cbn; eexists; reflexivity.
Qed.

Lemma gt_true_finite (a : num) (b : R) :
  (a >? Fin b)%js = true -> a = PInf \/ exists x, a = Fin x /\ b < x.
Proof.
  destruct a as [x| | |]; js_unfold; cbn; try discriminate; auto.
  destruct (Rlt_dec b x); [eauto | discriminate].
Qed.

Lemma toroidal_finite (params : SimulationParams) (f : Frame)
    (x y z T rad H : R) :
  radius f = Fin rad -> 0 < rad -> halfH f = Fin (H / 2) ->
  containerHeight params = Fin H -> 0 < H -> finite (avgT f) ->
  exists fx fz,
    toroidal params f (Fin x) (Fin y) (Fin z) (Fin (hdist x z)) (Fin T)
    = (Fin fx, Fin fz).
Proof.
  intros Hrad Hrad0 Hh HH HH0 [av Hav]. unfold toroidal.
  rewrite Hrad, Hh, HH, Hav.
  destruct (canConvect f); cbn [andb]; [|do 2 eexists; reflexivity].
  destruct (Fin (hdist x z) >? 0.001)%js eqn:Hr; [|do 2 eexists; reflexivity].
  apply gt_finite in Hr.
  cbn [Js.add Js.sub Js.neg].
  rewrite !div_finite by lra.
  cbn [Js.mul Js.add Js.sub Js.neg].
  destruct (_ && _); destruct (_ && _); do 2 eexists; reflexivity.
Qed.

Lemma brownian_finite (rnd : nat -> R) (k : nat) (T fa : R) :
  exists fj, brownian rnd k (Fin T) (Fin fa) = Fin fj.
Proof.
  unfold brownian, jitter, random. js_unfold. cbn.
  repeat (decide_reals; cbn); try lra; eexists; reflexivity.
Qed.

Lemma integrate_zero_dt (f : Frame) (v fa rad H : R) :
  still_frame f rad H ->
  integrate f (Fin v) (Fin fa) = Fin (clamp10 (v * 0.999)).
Proof.
  intros (Hd & _ & _ & (m & Hm & Hm0) & Hg & _).
  rewrite (integrate_finite f v fa 0 m 0.999 Hd Hm) by (assumption || lra).
  f_equal. f_equal. unfold Rdiv. rewrite Rmult_0_r, Rmult_0_l. lra.
Qed.

(* ================================================================= *)
(** ** Evaluating a frame between finite quantities *)

Lemma lt_finite (x y : R) : (Fin x <? Fin y)%js = true <-> x < y.
Proof.
  unfold Js.lt, Rltb. destruct (Rlt_dec x y); split; auto; discriminate.
Qed.

Lemma lt_finite_false (x y : R) : (Fin x <? Fin y)%js = false <-> y <= x.
Proof.
  unfold Js.lt, Rltb. destruct (Rlt_dec x y); split; auto; try discriminate;
    lra.
Qed.

Lemma gt_finite_false (x y : R) : (Fin x >? Fin y)%js = false <-> x <= y.
Proof. unfold Js.gt. apply lt_finite_false. Qed.

Lemma lerp_same (a t : R) : lerp (Fin a) (Fin a) (Fin t) = Fin a.
Proof. rewrite lerp_finite. f_equal. ring. Qed.

(** A configuration left alone: the smoothed parameters stay on their
    targets. *)
Lemma smooth_init (p : SimulationParams) :
  finite_params p -> smooth p (init_sim p) = init_sim p.
Proof.
  intros ([a1 H1] & [a2 H2] & [a3 H3] & [a4 H4] & [a5 H5] & [a6 H6]
          & [a7 H7] & _).
  unfold smooth, init_sim, lerpRate;
    cbn [s_tempSurface s_tempFluidInitial s_gravity s_viscosity s_expansion
         s_diffusivity s_density s_avgSystemTemp].
  rewrite H1, H2, H3, H4, H5, H6, H7, !lerp_same. reflexivity.
Qed.

(** The shared constants of a frame between finite quantities. *)
Lemma mkFrame_finite (params : SimulationParams) (ra : num) (s : SimState)
    (d rad H mu al rho av de : R) :
  containerRadius params = Fin rad -> containerHeight params = Fin H ->
  Js.or_else (densityEffect params) 1.0 = Fin de ->
  s_viscosity s = Fin mu -> s_diffusivity s = Fin al ->
  s_density s = Fin rho -> s_avgSystemTemp s = Fin av ->
  let m := Rmax 0.01 (Rmax 1 rho * 0.001 * de) in
  mkFrame params ra s (Fin d)
  = {| dt := Fin (Rmin d 0.05);
       halfH := Fin (H / 2);
       radius := Fin rad;
       inertiaFactor := Fin m;
       dragFactor :=
         Fin (Rmax 0 (Rmin 0.999 (1 - mu * 100 / m * Rmin d 0.05)));
       thermalRate := Fin (al * 80000);
       avgT := Fin av;
       canConvect := (ra >? 1000)%js |}.
Proof.
  intros Hrad HH Hde Hmu Hal Hrho Hav m.
  assert (Hm : 0.01 <= m) by apply Rmax_l.
  unfold mkFrame. rewrite Hrad, HH, Hde, Hmu, Hal, Hrho, Hav.
  rewrite !min_finite, (div_finite H 2) by lra.
  rewrite (max_finite 1 rho). cbn [Js.mul]. rewrite (max_finite 0.01).
  fold m. rewrite (div_finite _ m) by lra.
  cbn [Js.mul Js.sub Js.neg Js.add].
  rewrite min_finite, max_finite.
  replace (1.0 + - (mu * 100 / m * Rmin d 0.05))
    with (1 - mu * 100 / m * Rmin d 0.05) by lra.
  replace 0.0 with 0 by lra. reflexivity.
Qed.

(* ================================================================= *)
(** ** The example scenario *)

Lemma water_finite : finite_params water.
Proof.
  unfold finite_params, finite, water; cbn.
  repeat (split; [eexists; reflexivity|]). right; eexists; reflexivity.
Qed.

Lemma water_densityEffect : Js.or_else (densityEffect water) 1.0 = Fin 1.
Proof. cbn. destruct (Req_dec_T 1 0); [lra | reflexivity]. Qed.

Lemma scenario_frame_state (x0 z0 x1 z1 x2 z2 : R) (k : nat) :
  frame_state water (scenario_world x0 z0 x1 z1 x2 z2 k) = init_sim water.
Proof.
  unfold frame_state, scenario_world; cbn [sim ens].
  rewrite (smooth_init water water_finite).
  unfold frameAvgT, sum_temperatures, scenario_ensemble;
    cbn [temperatures particleCount water seq fold_left repeat get nth Js.add].
  rewrite div_finite by (simpl INR; lra).
  unfold set_avgSystemTemp, init_sim; cbn [s_avgSystemTemp tempFluidInitial
    tempSurface gravity viscosityDynamic expansionCoefficient
    thermalDiffusivity density water s_tempSurface s_tempFluidInitial
    s_gravity s_viscosity s_expansion s_diffusivity s_density].
  rewrite lerp_finite. do 2 f_equal. simpl INR. lra.
Qed.

Lemma scenario_frame (ra : num) :
  (ra >? 1000)%js = false ->
  heated_frame (mkFrame water ra (init_sim water) (Fin 0.016)).
Proof.
  intros Hra.
  rewrite (mkFrame_finite water ra (init_sim water) 0.016 0.1 0.2 0.001002
             1.43e-7 998 293 1 eq_refl eq_refl water_densityEffect
             eq_refl eq_refl eq_refl eq_refl).
  unfold heated_frame;
    cbn [dt halfH radius inertiaFactor dragFactor thermalRate avgT canConvect].
  assert (Hm : Rmax 0.01 (Rmax 1 998 * 0.001 * 1) = 0.998).
  { rewrite (Rmax_right 1 998) by lra. rewrite Rmax_right; lra. }
  rewrite Hm. rewrite (Rmin_left 0.016 0.05) by lra.
  split; [reflexivity|]. split; [f_equal; lra|]. split; [reflexivity|].
  split; [reflexivity|]. split.
  { eexists; split; [reflexivity|].
    rewrite Rmin_right by lra. rewrite Rmax_right by lra. lra. }
  split; [f_equal; lra|]. split; [reflexivity | exact Hra].
Qed.

(** Conduction from the plate wins over the cooling at the wall. *)
Lemma heated_thermal (f : Frame) (r : num) :
  heated_frame f ->
  exists t, thermal f (init_sim water) (Fin (-0.099)) r (Fin 293) = Fin t /\
            293.19 < t < 293.2.
Proof.
  intros (Hd & Hh & Hrad & _ & _ & Htr & _ & Hc).
  unfold thermal. rewrite Hd, Hh, Hrad, Htr, Hc.
  cbn [s_tempSurface s_tempFluidInitial init_sim tempSurface tempFluidInitial
       water Js.add Js.sub Js.neg].
  destruct (Fin (-0.099 + 0.1) <? 0.02)%js eqn:E;
    [|apply lt_finite_false in E; lra].
  rewrite (div_finite _ 0.02) by lra. cbn [Js.add Js.sub Js.neg].
  rewrite max_finite. cbn [Js.mul]. rewrite lerp_finite.
  assert (Hcf : Rmax 0 (1 + - ((-0.099 + 0.1) / 0.02)) = 0.95)
    by (rewrite Rmax_right; lra).
  rewrite Hcf.
  destruct (_ || _).
  - rewrite lerp_finite. eexists; split; [reflexivity|]. lra.
  - eexists; split; [reflexivity|]. lra.
Qed.

Lemma toroidal_off (params : SimulationParams) (f : Frame) (x y z r T : num) :
  canConvect f = false -> toroidal params f x y z r T = (Fin 0, Fin 0).
Proof. intros E; unfold toroidal; rewrite E; reflexivity. Qed.

Lemma brownian_value (rnd : nat -> R) (k : nat) (T fa : R) :
  brownian rnd k (Fin T) (Fin fa)
  = Fin (fa + (rnd k - 0.5) * (T / 500 * 0.05)).
Proof.
  unfold brownian, jitter, random. rewrite (div_finite T 500) by lra.
  cbn [Js.mul Js.sub Js.neg Js.add]. f_equal.
Qed.

(** One particle of the example scenario through the loop body. *)
Lemma heated_particle (rnd : nat -> R) (f : Frame) (show : bool) (k : nat)
    (c : Cells) (x z : R) :
  valid_oracle rnd -> heated_frame f ->
  c_x c = Fin x -> c_y c = Fin (-0.099) -> c_z c = Fin z ->
  c_vx c = Fin 0 -> c_vy c = Fin 0 -> c_vz c = Fin 0 -> c_T c = Fin 293 ->
  exists t vy,
    c_T (fst (particle_body rnd water f (init_sim water) show k c)) = Fin t /\
    293 < t /\
    c_vy (fst (particle_body rnd water f (init_sim water) show k c)) = Fin vy /\
    0 < vy.
Proof.
  intros Hr Hf Hx Hy Hz Hvx Hvy Hvz HT.
  pose proof Hf as (Hd & Hh & Hrad & Hm & (g & Hg & Hg1) & Htr & Hav & Hc).
  rewrite particle_body_fst. unfold paint; cbn [c_T c_vy].
  unfold move. rewrite Hx, Hy, Hz, Hvx, Hvy, Hvz, HT.
  destruct (heated_thermal f (Js.sqrt (Fin x * Fin x + Fin z * Fin z)%js) Hf)
    as (t & -> & Ht).
  rewrite (toroidal_off water f _ _ _ _ _ Hc).
  unfold phase_force, buoyancy. rewrite Hav.
  destruct (Fin t >? boilingPoint water)%js eqn:E;
    [apply gt_finite in E; lra|].
  cbn [s_gravity s_expansion init_sim gravity expansionCoefficient water
       Js.add Js.sub Js.neg Js.mul].
  rewrite !brownian_value.
  rewrite !(integrate_finite f _ _ 0.016 0.998 g Hd Hm) by (lra || assumption).
  pose proof (Hr k) as U0. pose proof (Hr (k + 1)%nat) as U1.
  pose proof (Hr (k + 2)%nat) as U2.
  set (fy := 0 + 9.81 * 0.000207 * (t + - (293)) * 250
             + (rnd (k + 1)%nat - 0.5) * (t / 500 * 0.05)).
  assert (Hfy : 0.08 < fy < 0.12) by (unfold fy; nra).
  assert (Hvy1 : clamp10 ((0 + fy * 0.016 / 0.998) * g)
                 = (0 + fy * 0.016 / 0.998) * g)
    by (apply clamp10_id; nra).
  rewrite Hvy1. set (vy := (0 + fy * 0.016 / 0.998) * g).
  assert (Hvy0 : 0.001 < vy < 0.002) by (unfold vy; nra).
  rewrite !(advance_finite f _ _ 0.016 Hd).
  destruct (floor_ceiling_finite f (init_sim water) (-0.099 + vy * 0.016) vy
              0.1 (Fin t) Hh) as (y' & vy' & -> & _ & Hin).
  destruct Hin as [-> ->]; [lra|].
  match goal with
  | |- context [walls f (Fin ?a) (Fin ?b) (Fin ?u) (Fin ?v)] =>
      destruct (walls_finite f a b u v 0.1 Hrad)
        as (x' & z' & vx' & vz' & -> & _)
  end.
  unfold recover; cbn [c_x c_y c_z blown_up Js.isFinite negb orb fst c_T c_vy].
  match goal with
  | |- context [Rlt_dec ?a ?b] => destruct (Rlt_dec a b); [lra|]
  end.
  exists t, vy. repeat split; lra.
Qed.

(** C3.  In the example scenario (three particles of water at rest at
    [y = -0.099] and 293 K, anywhere horizontally, one frame of 16 ms with
    the convection gate closed), whatever the oracle draws, every particle
    ends the frame with a temperature above 293 K and a vertical velocity
    above zero. *)
Theorem C3_example_scenario (rnd : nat -> R) (ra : num) (show : bool)
    (x0 z0 x1 z1 x2 z2 : R) (k i : nat) :
  valid_oracle rnd -> (ra >? 1000)%js = false -> (i < 3)%nat ->
  get (temperatures (ens (scenario_world x0 z0 x1 z1 x2 z2 k))) i = Fin 293 /\
  get (velocities (ens (scenario_world x0 z0 x1 z1 x2 z2 k))) (i * 3 + 1)
  = Fin 0 /\
  exists t vy,
    get (temperatures
           (ens (useFrame rnd water ra true true show 0.016
                   (scenario_world x0 z0 x1 z1 x2 z2 k)))) i = Fin t /\
    293 < t /\
    get (velocities
           (ens (useFrame rnd water ra true true show 0.016
                   (scenario_world x0 z0 x1 z1 x2 z2 k)))) (i * 3 + 1)
    = Fin vy /\
    0 < vy.
Proof.
  intros Hr Hra Hi.
  set (w := scenario_world x0 z0 x1 z1 x2 z2 k).
  assert (Hcells : exists x z,
            c_x (read (ens w) i) = Fin x /\
            c_y (read (ens w) i) = Fin (-0.099) /\
            c_z (read (ens w) i) = Fin z /\
            c_vx (read (ens w) i) = Fin 0 /\
            c_vy (read (ens w) i) = Fin 0 /\
            c_vz (read (ens w) i) = Fin 0 /\
            c_T (read (ens w) i) = Fin 293).
  { destruct i as [|[|[|i]]]; [| | |lia]; do 2 eexists;
      repeat split; reflexivity. }
  destruct Hcells as (x & z & Hx & Hy & Hz & Hvx & Hvy & Hvz & HT).
  split; [exact HT|]. split; [exact Hvy|].
  destruct (useFrame_spec rnd water ra show 0.016 w
              (scenario_wf x0 z0 x1 z1 x2 z2)) as (_ & _ & _ & Hbody).
  destruct (Hbody i Hi) as (ki & Hki).
  unfold w in Hki at 2 3. rewrite scenario_frame_state in Hki. fold w in Hki.
  destruct (heated_particle rnd _ show ki (read (ens w) i) x z Hr
              (scenario_frame ra Hra) Hx Hy Hz Hvx Hvy Hvz HT)
    as (t & vy & Et & Ht & Evy & Hvy0).
  rewrite <- Hki in Et, Evy.
  exists t, vy. split; [exact Et|]. split; [exact Ht|].
  split; [exact Evy | exact Hvy0].
Qed.

Lemma C3_example_scenario_witness :
  exists t vy,
    get (temperatures
           (ens (useFrame half_oracle water (Fin 0) true true true 0.016
                   (scenario_world 0.05 0 0 0.05 0 0 0)))) 1 = Fin t /\
    293 < t /\
    get (velocities
           (ens (useFrame half_oracle water (Fin 0) true true true 0.016
                   (scenario_world 0.05 0 0 0.05 0 0 0)))) (1 * 3 + 1)
    = Fin vy /\
    0 < vy.
Proof.
  refine (proj2 (proj2 (C3_example_scenario half_oracle (Fin 0) true
                          0.05 0 0 0.05 0 0 0 1 _ _ _))).
  - exact half_oracle_valid.
  - apply gt_finite_false; lra.
  - lia.
Defined.

(* ================================================================= *)
(** ** Instability recovery, after a frame *)

(** At [y = +Infinity] the plate is out of reach and the top cools: the
    thermal physics leaves a finite temperature. *)
Lemma thermal_lofted (f : Frame) (s : SimState) (r : num)
    (T d hh tr av T0 : R) :
  dt f = Fin d -> halfH f = Fin hh -> thermalRate f = Fin tr ->
  avgT f = Fin av -> s_tempFluidInitial s = Fin T0 ->
  exists t, thermal f s PInf r (Fin T) = Fin t.
Proof.
  intros Hd Hh Htr Hav Hs. unfold thermal. rewrite Hd, Hh, Htr, Hav, Hs.
  cbn [Js.add Js.sub Js.neg Js.lt Js.mul]. rewrite orb_true_r.
  rewrite lerp_finite.
  destruct (canConvect f); [rewrite lerp_finite|]; eexists; reflexivity.
Qed.

(** The toroidal forces on a finite horizontal position are finite,
    whatever the height. *)
Lemma toroidal_finite_xz (params : SimulationParams) (f : Frame)
    (x z T rad : R) (y : num) :
  radius f = Fin rad -> rad <> 0 -> finite (avgT f) ->
  exists fx fz,
    toroidal params f (Fin x) y (Fin z) (Fin (hdist x z)) (Fin T)
    = (Fin fx, Fin fz).
Proof.
  intros Hrad Hrad0 [av Hav]. unfold toroidal. rewrite Hrad, Hav.
  destruct (canConvect f); cbn [andb]; [|do 2 eexists; reflexivity].
  destruct (Fin (hdist x z) >? 0.001)%js eqn:Hr; [|do 2 eexists; reflexivity].
  apply gt_finite in Hr.
  set (yNorm := ((y + halfH f) / containerHeight params)%js).
  clearbody yNorm.
  rewrite !div_finite by lra.
  cbn [Js.mul Js.add Js.sub Js.neg].
  destruct (_ && _); destruct (_ && _); do 2 eexists; reflexivity.
Qed.

Lemma advance_pinf (f : Frame) (v d : R) :
  dt f = Fin d -> advance f PInf (Fin v) = PInf.
Proof. intros Hd. unfold advance. rewrite Hd. reflexivity. Qed.

(** A particle at [y = +Infinity] with its other cells finite, through
    sections A to D of a frame of finite constants: the ceiling brings it
    back to [halfH - 0.001], the coordinates the safety check finds are
    finite, and the temperature is the one the thermal physics left. *)
Lemma ceiling_rescue (rnd : nat -> R) (params : SimulationParams) (f : Frame)
    (s : SimState) (k : nat) (c : Cells)
    (x z vx vy vz T d hh rad m g tr av T0 : R) :
  dt f = Fin d -> halfH f = Fin hh -> radius f = Fin rad -> rad <> 0 ->
  inertiaFactor f = Fin m -> m <> 0 -> dragFactor f = Fin g ->
  thermalRate f = Fin tr -> avgT f = Fin av ->
  s_tempFluidInitial s = Fin T0 ->
  finite (s_gravity s) -> finite (s_expansion s) ->
  c_x c = Fin x -> c_y c = PInf -> c_z c = Fin z ->
  c_vx c = Fin vx -> c_vy c = Fin vy -> c_vz c = Fin vz -> c_T c = Fin T ->
  blown_up (c_x (move rnd params f s k c)) (c_y (move rnd params f s k c))
    (c_z (move rnd params f s k c)) = false /\
  c_y (move rnd params f s k c) = Fin (hh - 0.001) /\
  c_T (move rnd params f s k c) = tested_temperature f s c /\
  finite (c_T (move rnd params f s k c)).
Proof.
  intros Hd Hh Hrad Hrad0 Hm Hm0 Hg Htr Hav Hs Hgr Hbe
    Hx Hy Hz Hvx Hvy Hvz HT.
  unfold tested_temperature, move. rewrite Hx, Hy, Hz, Hvx, Hvy, Hvz, HT.
  rewrite sqrt_sumsq.
  destruct (thermal_lofted f s (Fin (hdist x z)) T d hh tr av T0
              Hd Hh Htr Hav Hs) as (t & ->).
  assert (Hav' : finite (avgT f)) by (exists av; exact Hav).
  destruct (toroidal_finite_xz params f x z t rad PInf Hrad Hrad0 Hav')
    as (fx & fz & ->).
  destruct (phase_force_finite params f s t Hgr Hbe Hav') as (fy & Hfy).
  destruct (phase_force params f s (Fin t)) as [st fy0].
  cbn [snd] in Hfy. subst fy0.
  rewrite !brownian_value.
  rewrite !(integrate_finite f _ _ d m g Hd Hm Hm0 Hg).
  rewrite !(advance_finite f _ _ d Hd).
  rewrite !(advance_pinf f _ d Hd).
  unfold floor_ceiling, floor_hit, ceiling_hit. rewrite Hh.
  cbn [Js.neg Js.lt Js.gt Js.sub Js.add Js.mul].
  match goal with
  | |- context [walls f (Fin ?a) (Fin ?b) (Fin ?u) (Fin ?v)] =>
      destruct (walls_finite f a b u v rad Hrad)
        as (x' & z' & vx' & vz' & -> & _)
  end.
  cbn [c_x c_y c_z c_T blown_up Js.isFinite negb orb].
  split; [reflexivity|]. split; [reflexivity|].
  split; [reflexivity | eexists; reflexivity].
Qed.

(** The shared constants of a frame of finite configuration, smoothed
    state and elapsed time are finite, with a non-zero inertia factor. *)
Lemma mkFrame_constants (params : SimulationParams) (ra : num) (s : SimState)
    (d rad H : R) :
  containerRadius params = Fin rad -> containerHeight params = Fin H ->
  finite_params params -> finite_sim s ->
  exists m g tr av,
    dt (mkFrame params ra s (Fin d)) = Fin (Rmin d 0.05) /\
    halfH (mkFrame params ra s (Fin d)) = Fin (H / 2) /\
    radius (mkFrame params ra s (Fin d)) = Fin rad /\
    inertiaFactor (mkFrame params ra s (Fin d)) = Fin m /\ m <> 0 /\
    dragFactor (mkFrame params ra s (Fin d)) = Fin g /\
    thermalRate (mkFrame params ra s (Fin d)) = Fin tr /\
    avgT (mkFrame params ra s (Fin d)) = Fin av.
Proof.
  intros Hrad HH (_ & _ & _ & _ & _ & _ & _ & Hde)
    (_ & _ & _ & [mu Hmu] & _ & [al Hal] & [rho Hrho] & [av Hav]).
  destruct (or_else_finite _ Hde) as [de Hde'].
  rewrite (mkFrame_finite params ra s d rad H mu al rho av de
             Hrad HH Hde' Hmu Hal Hrho Hav).
  cbn [dt halfH radius inertiaFactor dragFactor thermalRate avgT].
  do 4 eexists. repeat (split; [reflexivity|]).
  split; [|split; [reflexivity|split; reflexivity]].
  pose proof (Rmax_l 0.01 (Rmax 1 rho * 0.001 * de)). lra.
Qed.

Lemma lofted_finite_temperatures :
  finite_temperatures (particleCount water) (ens lofted_world).
Proof.
  intros j Hj. cbn in Hj.
  destruct j as [|[|[|j]]]; [| | | lia]; eexists; reflexivity.
Qed.

(** C4, as the code has it.  A particle whose coordinates are not all
    finite when the safety check runs, that is after the floor, the ceiling
    and the walls have been resolved, leaves the loop body with a finite
    position within [0.8 * rad] of the axis and [H / 4] (hence [H / 2]) of
    the mid-plane, the velocity [(0, 0, 0)] and the smoothed ambient
    temperature; the body writes no cell of another particle and does not
    touch [meta].  A particle that enters the frame with a NaN coordinate
    is such a particle.  An infinite coordinate does not always reach the
    check: a particle that enters the frame at [y = +Infinity] with its
    other cells finite, under a finite configuration, smoothed state,
    temperatures and elapsed time and a positive radius, is brought back
    to [H / 2 - 0.001] by the ceiling, the check does not fire, and the
    particle keeps the finite temperature the thermal physics of the frame
    gave it. *)
Theorem C4_recovery (rnd : nat -> R) (params : SimulationParams) (ra : num)
    (show : bool) (delta : num) (w : World) (rad H : R) (i : nat) :
  valid_oracle rnd ->
  containerRadius params = Fin rad -> 0 <= rad ->
  containerHeight params = Fin H -> 0 <= H ->
  wf_ensemble (particleCount params) (ens w) ->
  (i < particleCount params)%nat ->
  let s := frame_state params w in
  let f := mkFrame params ra s delta in
  (forall e k,
     wf_ensemble (particleCount params) e ->
     blown_at_check (move rnd params f s k (read e i)) ->
     reset_cells rad H (s_tempFluidInitial s)
       (read (fst (particle_iter rnd params f s show i (e, k))) i) /\
     (exists y, c_y (read (fst (particle_iter rnd params f s show i (e, k))) i)
                = Fin y /\ Rabs y <= H / 4) /\
     (forall j, j <> i ->
        read (fst (particle_iter rnd params f s show i (e, k))) j = read e j) /\
     meta (fst (particle_iter rnd params f s show i (e, k))) = meta e) /\
  (c_x (read (ens w) i) = NaN \/ c_y (read (ens w) i) = NaN \/
   c_z (read (ens w) i) = NaN ->
   reset_cells rad H (s_tempFluidInitial s)
     (read (ens (useFrame rnd params ra true true show delta w)) i)) /\
  (finite_params params -> finite_sim (sim w) ->
   finite_temperatures (particleCount params) (ens w) ->
   finite delta -> 0 < rad ->
   finite (c_x (read (ens w) i)) -> c_y (read (ens w) i) = PInf ->
   finite (c_z (read (ens w) i)) ->
   finite (c_vx (read (ens w) i)) -> finite (c_vy (read (ens w) i)) ->
   finite (c_vz (read (ens w) i)) -> finite (c_T (read (ens w) i)) ->
   (forall k, ~ blown_at_check (move rnd params f s k (read (ens w) i))) /\
   c_y (read (ens (useFrame rnd params ra true true show delta w)) i)
   = Fin (H / 2 - 0.001) /\
   c_T (read (ens (useFrame rnd params ra true true show delta w)) i)
   = tested_temperature f s (read (ens w) i) /\
   finite (c_T (read (ens (useFrame rnd params ra true true show delta w)) i))).
Proof.
  intros Hr Hrad Hrad0 HH HH0 Hwf Hi s f.
  assert (Hh : halfH f = Fin (H / 2)) by (apply halfH_mkFrame; assumption).
  split; [|split].
  - intros e k Hwfe Hb. rewrite particle_iter_eq. cbn [fst].
    rewrite (read_write_same (particleCount params)) by assumption.
    split; [apply body_blown; auto|]. split.
    + rewrite particle_body_fst. unfold recover, blown_at_check in *.
      rewrite Hb. cbn [fst paint c_y safe_state]. unfold random. rewrite Hh.
      cbn [Js.sub Js.neg Js.add Js.mul]. eexists; split; [reflexivity|].
      pose proof (Hr (k + 3 + 2)%nat). apply Rabs_le. nra.
    + split; [|reflexivity]. intros j Hj. now apply read_write_other.
  - intros Hnan.
    destruct (useFrame_spec rnd params ra show delta w Hwf)
      as (_ & _ & _ & Hcells).
    destruct (Hcells i Hi) as (ki & ->). fold s. fold f.
    apply body_blown; auto. now apply move_nan_blown.
  - intros Hp Hs Ht [d Hd] Hrad1 [x Hx] Hy [z Hz] [vx Hvx] [vy Hvy] [vz Hvz]
      [T HT].
    assert (Hn : (0 < particleCount params)%nat) by lia.
    pose proof (frame_state_finite params w Hn Hp Hs Ht) as Hfs. fold s in Hfs.
    destruct (mkFrame_constants params ra s d rad H Hrad HH Hp Hfs)
      as (m & g & tr & av & Fd & Fh & Fr & Fm & Fm0 & Fg & Ftr & Fav).
    rewrite <- Hd in Fd, Fh, Fr, Fm, Fg, Ftr, Fav.
    fold f in Fd, Fh, Fr, Fm, Fg, Ftr, Fav.
    destruct Hfs as (_ & [T0 HT0] & Hgr & _ & Hbe & _).
    assert (Hres : forall k,
              blown_up (c_x (move rnd params f s k (read (ens w) i)))
                (c_y (move rnd params f s k (read (ens w) i)))
                (c_z (move rnd params f s k (read (ens w) i))) = false /\
              c_y (move rnd params f s k (read (ens w) i))
              = Fin (H / 2 - 0.001) /\
              c_T (move rnd params f s k (read (ens w) i))
              = tested_temperature f s (read (ens w) i) /\
              finite (c_T (move rnd params f s k (read (ens w) i)))).
    { intros k.
      apply (ceiling_rescue rnd params f s k (read (ens w) i)
               x z vx vy vz T (Rmin d 0.05) (H / 2) rad m g tr av T0);
        auto; lra. }
    split.
    { intros k Hb. unfold blown_at_check in Hb.
      destruct (Hres k) as (Hnb & _). congruence. }
    destruct (useFrame_spec rnd params ra show delta w Hwf)
      as (_ & _ & _ & Hcells).
    destruct (Hcells i Hi) as (ki & ->). fold s. fold f.
    destruct (Hres ki) as (Hnb & Ey & ET & HfT).
    rewrite particle_body_fst. unfold recover. rewrite Hnb.
    cbn [fst paint c_y c_T]. auto.
Qed.

Lemma C4_recovery_witness :
  reset_cells 0.1 0.2 (s_tempFluidInitial (frame_state water nan_world))
    (read (ens (useFrame half_oracle water (rayleigh (computed water)) true
                  true true 0.016 nan_world)) 0) /\
  c_y (read (ens (useFrame half_oracle water (rayleigh (computed water)) true
                    true true 0.016 lofted_world)) 0)
  = Fin (0.2 / 2 - 0.001).
Proof.
  split.
  - refine (proj1 (proj2 (C4_recovery half_oracle water
                            (rayleigh (computed water))
                            true 0.016 nan_world 0.1 0.2 0 _ _ _ _ _ _ _)) _).
    + exact half_oracle_valid.
    + reflexivity.
    + lra.
    + reflexivity.
    + lra.
    + repeat split.
    + simpl; lia.
    + left; reflexivity.
  - refine (proj1 (proj2 (proj2 (proj2 (C4_recovery half_oracle water
                            (rayleigh (computed water))
                            true 0.016 lofted_world 0.1 0.2 0 _ _ _ _ _ _ _))
                     _ _ _ _ _ _ _ _ _ _ _ _))).
    + exact half_oracle_valid.
    + reflexivity.
    + lra.
    + reflexivity.
    + lra.
    + repeat split.
    + simpl; lia.
    + exact water_finite.
    + repeat split; eexists; reflexivity.
    + exact lofted_finite_temperatures.
    + eexists; reflexivity.
    + lra.
    + eexists; reflexivity.
    + reflexivity.
    + eexists; reflexivity.
    + eexists; reflexivity.
    + eexists; reflexivity.
    + eexists; reflexivity.
    + eexists; reflexivity.
Defined.

Lemma lofted_frame_state :
  exists av,
    frame_state water lofted_world
    = set_avgSystemTemp (init_sim water) (Fin av) /\ 293 <= av <= 300.
Proof.
  unfold frame_state, lofted_world; cbn [sim ens].
  rewrite (smooth_init water water_finite).
  unfold frameAvgT, sum_temperatures;
    cbn [temperatures particleCount water seq fold_left get nth Js.add].
  rewrite div_finite by (simpl INR; lra).
  cbn [s_avgSystemTemp init_sim tempFluidInitial water].
  rewrite lerp_finite. eexists; split; [reflexivity|]. simpl INR. lra.
Qed.

Lemma lofted_frame (ra : num) (av : R) :
  293 <= av <= 300 ->
  beaker_frame
    (mkFrame water ra (set_avgSystemTemp (init_sim water) (Fin av))
       (Fin 0.016)).
Proof.
  intros Hav.
  rewrite (mkFrame_finite water ra
             (set_avgSystemTemp (init_sim water) (Fin av)) 0.016 0.1 0.2 0.001002
             1.43e-7 998 av 1 eq_refl eq_refl water_densityEffect
             eq_refl eq_refl eq_refl eq_refl).
  unfold beaker_frame;
    cbn [dt halfH radius inertiaFactor dragFactor thermalRate avgT canConvect].
  assert (Hm : Rmax 0.01 (Rmax 1 998 * 0.001 * 1) = 0.998).
  { rewrite (Rmax_right 1 998) by lra. rewrite Rmax_right; lra. }
  rewrite Hm. rewrite (Rmin_left 0.016 0.05) by lra.
  split; [reflexivity|]. split; [f_equal; lra|]. split; [reflexivity|].
  split; [reflexivity|]. split; [eexists; reflexivity|].
  split; [f_equal; lra|]. exists av; auto.
Qed.

(** At [y = +Infinity] the plate is out of reach and the top cools. *)
Lemma lofted_thermal (f : Frame) (s : SimState) (r : num) :
  beaker_frame f -> s_tempFluidInitial s = Fin 293 ->
  exists t, thermal f s PInf r (Fin 300) = Fin t /\ 299 < t <= 300.
Proof.
  intros (Hd & Hh & _ & _ & _ & Htr & (av & Hav & Hav1)) Hs.
  unfold thermal. rewrite Hd, Hh, Htr, Hav, Hs.
  cbn [Js.add Js.sub Js.neg Js.lt Js.mul]. rewrite orb_true_r.
  rewrite lerp_finite.
  destruct (canConvect f).
  - rewrite lerp_finite. eexists; split; [reflexivity|]. nra.
  - eexists; split; [reflexivity|]. lra.
Qed.

Lemma toroidal_axis (params : SimulationParams) (f : Frame)
    (x y z T : num) (r : R) :
  r <= 0.001 -> toroidal params f x y z (Fin r) T = (Fin 0, Fin 0).
Proof.
  intros Hr. unfold toroidal.
  destruct (Fin r >? 0.001)%js eqn:E; [apply gt_finite in E; lra|].
  rewrite andb_false_r. reflexivity.
Qed.

Lemma hdist_origin : hdist 0 0 = 0.
Proof.
  unfold hdist. replace (0 * 0 + 0 * 0) with 0 by ring. apply sqrt_0.
Qed.

(** The lofted particle through the loop body: the ceiling brings it
    back, and it keeps a temperature near 300 K. *)
Lemma lofted_particle (rnd : nat -> R) (f : Frame) (s : SimState)
    (show : bool) (k : nat) (c : Cells) :
  beaker_frame f ->
  s_tempFluidInitial s = Fin 293 -> finite (s_gravity s) ->
  finite (s_expansion s) ->
  c_x c = Fin 0 -> c_y c = PInf -> c_z c = Fin 0 ->
  c_vx c = Fin 0 -> c_vy c = Fin 0 -> c_vz c = Fin 0 -> c_T c = Fin 300 ->
  exists t y,
    c_T (fst (particle_body rnd water f s show k c)) = Fin t /\ 299 < t /\
    c_y (fst (particle_body rnd water f s show k c)) = Fin y.
Proof.
  intros Hf Hs Hg Hbe Hx Hy Hz Hvx Hvy Hvz HT.
  pose proof Hf as (Hd & Hh & Hrad & Hm & (g & Hg') & Htr & (av & Hav & Hav1)).
  rewrite particle_body_fst. unfold paint; cbn [c_T c_y].
  unfold move. rewrite Hx, Hy, Hz, Hvx, Hvy, Hvz, HT.
  rewrite sqrt_sumsq, hdist_origin.
  destruct (lofted_thermal f s (Fin 0) Hf Hs) as (t & -> & Ht).
  rewrite (toroidal_axis water f _ _ _ _ 0) by lra.
  assert (Hav' : finite (avgT f)) by (exists av; exact Hav).
  destruct (phase_force_finite water f s t Hg Hbe Hav') as (fy & Hfy).
  destruct (phase_force water f s (Fin t)) as [st fy0].
  cbn [snd] in Hfy. subst fy0.
  rewrite !brownian_value.
  rewrite !(integrate_finite f _ _ 0.016 0.998 g Hd Hm) by (lra || assumption).
  rewrite !(advance_finite f _ _ 0.016 Hd).
  rewrite !(advance_pinf f _ 0.016 Hd).
  unfold floor_ceiling, floor_hit, ceiling_hit. rewrite Hh.
  cbn [Js.neg Js.lt Js.gt Js.sub Js.add Js.mul].
  match goal with
  | |- context [walls f (Fin ?a) (Fin ?b) (Fin ?u) (Fin ?v)] =>
      destruct (walls_finite f a b u v 0.1 Hrad)
        as (x' & z' & vx' & vz' & -> & _)
  end.
  unfold recover; cbn [c_x c_y c_z blown_up Js.isFinite negb orb fst c_T].
  exists t. eexists. split; [reflexivity|]. split; [lra | reflexivity].
Qed.

(** C4, as stated, fails for a particle thrown to [y = +Infinity]: the
    ceiling snaps it back before the safety check runs, so the check does
    not fire and the particle keeps a temperature near 300 K, which is not the
    ambient 293 K. *)
Lemma C4_counterexample :
  c_y (read (ens lofted_world) 0) = PInf /\
  exists t y,
    c_y (read (ens (useFrame half_oracle water (rayleigh (computed water))
                      true true true 0.016 lofted_world)) 0) = Fin y /\
    c_T (read (ens (useFrame half_oracle water (rayleigh (computed water))
                      true true true 0.016 lofted_world)) 0) = Fin t /\
    s_tempFluidInitial
      (sim (useFrame half_oracle water (rayleigh (computed water))
              true true true 0.016 lofted_world)) = Fin 293 /\
    t <> 293.
Proof.
  split; [reflexivity|].
  assert (Hwf : wf_ensemble (particleCount water) (ens lofted_world))
    by (repeat split).
  destruct (useFrame_spec half_oracle water (rayleigh (computed water)) true
              0.016 lofted_world Hwf) as (Hsim & _ & _ & Hbody).
  destruct (Hbody 0%nat) as (ki & Hki); [simpl; lia|].
  destruct lofted_frame_state as (av & Hs & Hav).
  rewrite Hs in Hki, Hsim.
  destruct (lofted_particle half_oracle _
              (set_avgSystemTemp (init_sim water) (Fin av)) true ki
              (read (ens lofted_world) 0)
              (lofted_frame (rayleigh (computed water)) av Hav))
    as (t & y & Et & Ht & Ey);
    try reflexivity; try (eexists; reflexivity).
  rewrite <- Hki in Et, Ey.
  exists t, y. split; [exact Ey|]. split; [exact Et|].
  split; [rewrite Hsim; reflexivity | lra].
Qed.

(* ================================================================= *)
(** ** A frame of zero duration *)

(** One finite particle through the loop body of a frame of zero
    duration: the temperature changes only by the floor bounce, which
    fires exactly when the particle was below the floor; inside the
    container the position is kept and each velocity component is scaled
    by the drag ceiling 0.999 and clamped. *)
Lemma still_particle (rnd : nat -> R) (params : SimulationParams)
    (f : Frame) (s : SimState) (show : bool) (k : nat) (c : Cells)
    (rad H x y z vx vy vz T : R) :
  still_frame f rad H -> 0 < rad -> 0 < H ->
  containerHeight params = Fin H ->
  finite (s_tempSurface s) -> finite (s_tempFluidInitial s) ->
  finite (s_gravity s) -> finite (s_expansion s) ->
  c_x c = Fin x -> c_y c = Fin y -> c_z c = Fin z ->
  c_vx c = Fin vx -> c_vy c = Fin vy -> c_vz c = Fin vz -> c_T c = Fin T ->
  c_T (fst (particle_body rnd params f s show k c))
  = (if Rlt_dec y (- (H / 2)) then lerp (Fin T) (s_tempSurface s) 0.2
     else Fin T) /\
  (- (H / 2) <= y <= H / 2 -> hdist x z <= rad ->
   c_x (fst (particle_body rnd params f s show k c)) = Fin x /\
   c_y (fst (particle_body rnd params f s show k c)) = Fin y /\
   c_z (fst (particle_body rnd params f s show k c)) = Fin z /\
   c_vx (fst (particle_body rnd params f s show k c))
   = Fin (clamp10 (vx * 0.999)) /\
   c_vy (fst (particle_body rnd params f s show k c))
   = Fin (clamp10 (vy * 0.999)) /\
   c_vz (fst (particle_body rnd params f s show k c))
   = Fin (clamp10 (vz * 0.999))).
Proof.
  intros Hf Hrad0 HH0 HH HTs HTi Hg Hbe Hx Hy Hz Hvx Hvy Hvz HT.
  pose proof Hf as (Hd & Hh & Hrad & _ & _ & _ & Hav).
  rewrite particle_body_fst.
  unfold paint; cbn [c_T c_x c_y c_z c_vx c_vy c_vz].
  unfold move. rewrite Hx, Hy, Hz, Hvx, Hvy, Hvz, HT.
  rewrite sqrt_sumsq.
  rewrite (thermal_zero_dt f s y T _ rad H Hf HTs HTi).
  destruct (phase_force_finite params f s T Hg Hbe Hav) as (fy & Hfy).
  destruct (phase_force params f s (Fin T)) as [st fy0].
  cbn [snd] in Hfy. subst fy0.
  destruct (toroidal_finite params f x y z T rad H Hrad Hrad0 Hh HH HH0 Hav)
    as (fx & fz & ->).
  rewrite !brownian_value.
  rewrite !(integrate_zero_dt f _ _ rad H Hf).
  rewrite !(advance_finite f _ _ 0 Hd).
  replace (x + clamp10 (vx * 0.999) * 0) with x by ring.
  replace (y + clamp10 (vy * 0.999) * 0) with y by ring.
  replace (z + clamp10 (vz * 0.999) * 0) with z by ring.
  destruct (floor_ceiling_finite f s y (clamp10 (vy * 0.999)) (H / 2)
              (Fin T) Hh) as (y' & vy' & -> & _ & Hyin).
  destruct (walls_finite f x z (clamp10 (vx * 0.999)) (clamp10 (vz * 0.999))
              rad Hrad) as (x' & z' & vx' & vz' & -> & _ & _ & Hxzin).
  unfold recover;
    cbn [c_x c_y c_z c_vx c_vy c_vz c_T blown_up Js.isFinite negb orb fst].
  split; [reflexivity|].
  intros Hy1 Hr1.
  destruct (Hyin Hy1) as [-> ->].
  destruct (Hxzin Hr1) as (-> & -> & -> & ->).
  repeat split.
Qed.

(** The cells of a finite particle after a frame of zero duration in a
    finite world. *)
Lemma zero_duration_cells (rnd : nat -> R) (params : SimulationParams)
    (ra : num) (show : bool) (w : World) (rad H : R) (i : nat)
    (x y z vx vy vz T : R) :
  containerRadius params = Fin rad -> 0 < rad ->
  containerHeight params = Fin H -> 0 < H ->
  finite_params params -> finite_sim (sim w) ->
  finite_temperatures (particleCount params) (ens w) ->
  wf_ensemble (particleCount params) (ens w) ->
  (i < particleCount params)%nat ->
  c_x (read (ens w) i) = Fin x -> c_y (read (ens w) i) = Fin y ->
  c_z (read (ens w) i) = Fin z ->
  c_vx (read (ens w) i) = Fin vx -> c_vy (read (ens w) i) = Fin vy ->
  c_vz (read (ens w) i) = Fin vz -> c_T (read (ens w) i) = Fin T ->
  c_T (read (ens (useFrame rnd params ra true true show (Fin 0) w)) i)
  = (if Rlt_dec y (- (H / 2))
     then lerp (Fin T) (s_tempSurface (frame_state params w)) 0.2
     else Fin T) /\
  (- (H / 2) <= y <= H / 2 -> hdist x z <= rad ->
   c_x (read (ens (useFrame rnd params ra true true show (Fin 0) w)) i)
   = Fin x /\
   c_y (read (ens (useFrame rnd params ra true true show (Fin 0) w)) i)
   = Fin y /\
   c_z (read (ens (useFrame rnd params ra true true show (Fin 0) w)) i)
   = Fin z /\
   c_vx (read (ens (useFrame rnd params ra true true show (Fin 0) w)) i)
   = Fin (clamp10 (vx * 0.999)) /\
   c_vy (read (ens (useFrame rnd params ra true true show (Fin 0) w)) i)
   = Fin (clamp10 (vy * 0.999)) /\
   c_vz (read (ens (useFrame rnd params ra true true show (Fin 0) w)) i)
   = Fin (clamp10 (vz * 0.999))).
Proof.
  intros Hrad Hrad0 HH HH0 Hp Hs Ht Hwf Hi Hx Hy Hz Hvx Hvy Hvz HT.
  destruct (useFrame_spec rnd params ra show (Fin 0) w Hwf)
    as (_ & _ & _ & Hbody).
  destruct (Hbody i Hi) as (ki & ->).
  assert (Hs' : finite_sim (frame_state params w)).
  { apply frame_state_finite; auto. lia. }
  pose proof (mkFrame_still params ra (frame_state params w) rad H Hrad HH
                Hp Hs') as Hf.
  destruct Hs' as (S1 & S2 & S3 & _ & S5 & _).
  apply (still_particle rnd params _ (frame_state params w) show ki
           (read (ens w) i) rad H x y z vx vy vz T); auto.
Qed.

Lemma init_sim_finite (p : SimulationParams) :
  finite_params p -> finite_sim (init_sim p).
Proof.
  intros (P1 & P2 & P3 & P4 & P5 & P6 & P7 & _).
  unfold finite_sim, init_sim; cbn. repeat split; assumption.
Qed.

Lemma repeat_temperatures_finite (n : nat) (t : R) (e : Ensemble) :
  temperatures e = repeat (Fin t) n -> finite_temperatures n e.
Proof.
  intros E j Hj. rewrite E, get_repeat by assumption. eexists; reflexivity.
Qed.

(** C2, as the code has it.  With [elapsedSeconds = 0], in a world of
    finite quantities, a particle's temperature is changed by the floor
    bounce only (the lerp of factor 0.2 toward the surface temperature),
    and exactly when the particle was below the floor before the frame; a
    particle inside the container keeps its position, and each component
    of its velocity becomes [0.999 * v] clamped to [[-10, 10]]: the drag
    factor is capped at 0.999, so a moving particle is slowed even when no
    time has elapsed. *)
Theorem C2_zero_duration_frame (rnd : nat -> R) (params : SimulationParams)
    (ra : num) (show : bool) (w : World) (rad H : R) (i : nat)
    (x y z vx vy vz T : R) :
  containerRadius params = Fin rad -> 0 < rad ->
  containerHeight params = Fin H -> 0 < H ->
  finite_params params -> finite_sim (sim w) ->
  finite_temperatures (particleCount params) (ens w) ->
  wf_ensemble (particleCount params) (ens w) ->
  (i < particleCount params)%nat ->
  c_x (read (ens w) i) = Fin x -> c_y (read (ens w) i) = Fin y ->
  c_z (read (ens w) i) = Fin z ->
  c_vx (read (ens w) i) = Fin vx -> c_vy (read (ens w) i) = Fin vy ->
  c_vz (read (ens w) i) = Fin vz -> c_T (read (ens w) i) = Fin T ->
  c_T (read (ens (useFrame rnd params ra true true show (Fin 0) w)) i)
  = (if Rlt_dec y (- (H / 2))
     then lerp (Fin T) (s_tempSurface (frame_state params w)) 0.2
     else Fin T) /\
  (- (H / 2) <= y <= H / 2 -> hdist x z <= rad ->
   c_x (read (ens (useFrame rnd params ra true true show (Fin 0) w)) i)
   = Fin x /\
   c_y (read (ens (useFrame rnd params ra true true show (Fin 0) w)) i)
   = Fin y /\
   c_z (read (ens (useFrame rnd params ra true true show (Fin 0) w)) i)
   = Fin z /\
   c_vx (read (ens (useFrame rnd params ra true true show (Fin 0) w)) i)
   = Fin (clamp10 (vx * 0.999)) /\
   c_vy (read (ens (useFrame rnd params ra true true show (Fin 0) w)) i)
   = Fin (clamp10 (vy * 0.999)) /\
   c_vz (read (ens (useFrame rnd params ra true true show (Fin 0) w)) i)
   = Fin (clamp10 (vz * 0.999))).
Proof. apply zero_duration_cells. Qed.

Lemma C2_zero_duration_frame_witness :
  c_T (read (ens (useFrame half_oracle water (rayleigh (computed water)) true
                    true true (Fin 0) drifting_world)) 0)
  = (if Rlt_dec 0 (- (0.2 / 2))
     then lerp (Fin 293) (s_tempSurface (frame_state water drifting_world)) 0.2
     else Fin 293).
Proof.
  refine (proj1 (C2_zero_duration_frame half_oracle water
                   (rayleigh (computed water)) true drifting_world 0.1 0.2 0
                   0 0 0 1 0 0 293 _ _ _ _ _ _ _ _ _ _ _ _ _ _ _ _));
    try reflexivity; try lra.
  - exact water_finite.
  - exact (init_sim_finite water water_finite).
  - apply (repeat_temperatures_finite 3 293); reflexivity.
  - repeat split.
  - simpl; lia.
Defined.

(** C2, as stated, fails for a particle that moves: no time elapses, the
    particle is inside the container, and its velocity goes from 1 to
    0.999. *)
Lemma C2_counterexample :
  c_vx (read (ens drifting_world) 0) = Fin 1 /\
  c_vx (read (ens (useFrame half_oracle water (rayleigh (computed water))
                     true true true (Fin 0) drifting_world)) 0) = Fin 0.999 /\
  0.999 <> 1.
Proof.
  split; [reflexivity|]. split; [|lra].
  destruct (zero_duration_cells half_oracle water (rayleigh (computed water))
              true drifting_world 0.1 0.2 0 0 0 0 1 0 0 293) as (_ & Hin);
    try reflexivity; try lra.
  - exact water_finite.
  - exact (init_sim_finite water water_finite).
  - apply (repeat_temperatures_finite 3 293); reflexivity.
  - repeat split.
  - simpl; lia.
  - destruct Hin as (_ & _ & _ & Hvx & _).
    + lra.
    + rewrite hdist_origin. lra.
    + rewrite Hvx. f_equal. rewrite clamp10_id; lra.
Qed.

(* ================================================================= *)
(** ** The convection gate, through the loop body *)

(** The boiling test of the calculator decides the fluid state and, when
    it fires, the regime. *)
Lemma computed_boiling_test (p : SimulationParams) :
  avgFluidTemp (computed p)
  = (tempFluidInitial p
     + Js.max 0 (tempSurface p - tempFluidInitial p) * 0.4)%js /\
  (fluidState (computed p) = gas <->
   ((avgFluidTemp (computed p) >=? boilingPoint p)%js
    || (tempSurface p >? boilingPoint p)%js) = true) /\
  (fluidState (computed p) = gas ->
   flowRegime (computed p) = BoilingPhaseChange).
Proof.
  unfold computed.
  destruct (_ || _) eqn:E.
  - cbn [avgFluidTemp fluidState flowRegime]. rewrite E.
    split; [reflexivity|]. split; [tauto | reflexivity].
  - match goal with |- context [if Js.gt ?a ?b then _ else _] =>
      destruct (Js.gt a b) end;
      cbn [avgFluidTemp fluidState flowRegime]; rewrite E;
      (split; [reflexivity|]); (split; [split; discriminate | discriminate]).
Qed.

(** The regime of a liquid, by the thresholds of the calculator. *)
Lemma regime_by_threshold (p : SimulationParams) :
  fluidState (computed p) = liquid ->
  flowRegime (computed p)
  = if (rayleigh (computed p) >? 1708)%js
    then (if (rayleigh (computed p) >? 1e9)%js
          then TurbulentConvection else LaminarConvection)
    else Conductive.
Proof.
  rewrite computed_rayleigh. unfold computed.
  destruct (_ || _); [discriminate 1|].
  match goal with |- context [if Js.gt ?a ?b then _ else _] =>
    destruct (Js.gt a b) end; [|reflexivity].
  match goal with |- context [if Js.gt ?a ?b then _ else _] =>
    destruct (Js.gt a b) end; reflexivity.
Qed.

(** The toroidal forces of an open gate, off the axis, on finite values:
    outward for a particle hotter than the average in the top fifth of the
    container, inward for a colder one in the bottom fifth, none
    otherwise. *)
Lemma toroidal_open (params : SimulationParams) (f : Frame)
    (x y z T av hh rad H : R) :
  canConvect f = true -> avgT f = Fin av -> halfH f = Fin hh ->
  radius f = Fin rad -> rad <> 0 ->
  containerHeight params = Fin H -> H <> 0 -> 0.001 < hdist x z ->
  (av < T -> 0.8 < (y + hh) / H ->
   toroidal params f (Fin x) (Fin y) (Fin z) (Fin (hdist x z)) (Fin T)
   = (Fin (x / hdist x z * (2 * (hdist x z / rad))),
      Fin (z / hdist x z * (2 * (hdist x z / rad))))) /\
  (T < av -> (y + hh) / H < 0.2 ->
   toroidal params f (Fin x) (Fin y) (Fin z) (Fin (hdist x z)) (Fin T)
   = (Fin (- (x / hdist x z * 2)), Fin (- (z / hdist x z * 2)))) /\
  (T <= av \/ (y + hh) / H <= 0.8 -> av <= T \/ 0.2 <= (y + hh) / H ->
   toroidal params f (Fin x) (Fin y) (Fin z) (Fin (hdist x z)) (Fin T)
   = (Fin 0, Fin 0)).
Proof.
  intros Hc Hav Hh Hrad Hrad0 HH HH0 Hr. unfold toroidal.
  rewrite Hc, Hav, Hh, Hrad, HH.
  assert (E : (Fin (hdist x z) >? 0.001)%js = true) by (apply gt_finite; lra).
  rewrite E. cbn [andb Js.add Js.sub Js.neg].
  rewrite !div_finite by lra.
  cbn [Js.mul Js.add Js.sub Js.neg].
  split; [|split].
  - intros HT Hy.
    assert (E1 : (Fin (T + - av) >? 0)%js = true) by (apply gt_finite; lra).
    assert (E2 : (Fin ((y + hh) / H) >? 0.8)%js = true)
      by (apply gt_finite; lra).
    assert (E3 : (Fin (T + - av) <? 0)%js = false)
      by (apply lt_finite_false; lra).
    rewrite E1, E2, E3. cbn [andb]. f_equal; f_equal; lra.
  - intros HT Hy.
    assert (E1 : (Fin (T + - av) >? 0)%js = false)
      by (apply gt_finite_false; lra).
    assert (E3 : (Fin (T + - av) <? 0)%js = true) by (apply lt_finite; lra).
    assert (E4 : (Fin ((y + hh) / H) <? 0.2)%js = true)
      by (apply lt_finite; lra).
    rewrite E1, E3, E4. cbn [andb Js.sub Js.neg Js.add]. f_equal; f_equal; lra.
  - intros Hhot Hcold.
    assert (E1 : ((Fin (T + - av) >? 0)%js
                  && (Fin ((y + hh) / H) >? 0.8)%js) = false).
    { apply andb_false_iff.
      destruct Hhot; [left | right]; apply gt_finite_false; lra. }
    assert (E2 : ((Fin (T + - av) <? 0)%js
                  && (Fin ((y + hh) / H) <? 0.2)%js) = false).
    { apply andb_false_iff.
      destruct Hcold; [left | right]; apply lt_finite_false; lra. }
    rewrite E1, E2. reflexivity.
Qed.

(** The outward force of an open gate reaches the velocity: for a particle
    off the axis that the thermal physics leaves hotter than the average,
    in the top fifth of the container, the horizontal velocity the safety
    check finds is the Euler step under the toroidal force and the jitter,
    dragged and clamped, kept or reflected by the wall. *)
Lemma open_gate_velocity (rnd : nat -> R) (params : SimulationParams)
    (f : Frame) (s : SimState) (k : nat) (c : Cells)
    (x y z vx vz t av hh rad H d m g : R) :
  canConvect f = true -> dt f = Fin d -> halfH f = Fin hh ->
  radius f = Fin rad -> rad <> 0 ->
  inertiaFactor f = Fin m -> m <> 0 -> dragFactor f = Fin g ->
  avgT f = Fin av -> containerHeight params = Fin H -> H <> 0 ->
  c_x c = Fin x -> c_y c = Fin y -> c_z c = Fin z ->
  c_vx c = Fin vx -> c_vz c = Fin vz ->
  tested_temperature f s c = Fin t ->
  0.001 < hdist x z -> av < t -> 0.8 < (y + hh) / H ->
  let v := clamp10 ((vx + (x / hdist x z * (2 * (hdist x z / rad))
                           + (rnd k - 0.5) * (t / 500 * 0.05)) * d / m) * g) in
  c_vx (move rnd params f s k c) = Fin v \/
  c_vx (move rnd params f s k c) = Fin (v * -0.5).
Proof.
  intros Hc Hd Hh Hrad Hrad0 Hm Hm0 Hg Hav HH HH0 Hx Hy Hz Hvx Hvz Ht
    Hr Hhot Htop v.
  unfold tested_temperature in Ht. unfold move.
  rewrite Hx, Hy, Hz, Hvx, Hvz in *. rewrite Ht. rewrite sqrt_sumsq.
  destruct (toroidal_open params f x y z t av hh rad H
              Hc Hav Hh Hrad Hrad0 HH HH0 Hr) as (Hout & _).
  rewrite (Hout Hhot Htop).
  destruct (phase_force params f s (Fin t)) as [st fy].
  rewrite !brownian_value.
  rewrite !(integrate_finite f _ _ d m g Hd Hm Hm0 Hg).
  rewrite !(advance_finite f _ _ d Hd).
  destruct (floor_ceiling f s _ _ _) as [[y' vy'] T'].
  match goal with
  | |- context [walls f (Fin ?a) (Fin ?b) (Fin ?u) (Fin ?w)] =>
      destruct (walls_finite f a b u w rad Hrad)
        as (x' & z' & vx' & vz' & -> & [Ev | Ev] & _)
  end; cbn [c_vx]; rewrite Ev; [left | right]; reflexivity.
Qed.

Lemma hdist_on_axis (x : R) : 0 <= x -> hdist x 0 = x.
Proof.
  intros Hx. unfold hdist. replace (x * x + 0 * 0) with (x * x) by ring.
  now apply sqrt_square.
Qed.

(** C9, as the code has it.  The integrator reads the Rayleigh number
    through the one test [rayleigh > 1000], so for a Rayleigh number in
    [(1000, 1708]] the gate is open.  The gated effects are applied
    exactly when the test holds: the bulk mixing is one more [lerp] toward
    the running average when the gate is open and nothing otherwise; the
    toroidal forces vanish when the gate is closed and within
    [r <= 0.001] of the axis, and with the gate open, off the axis, they
    are [2 * rNorm * (x, z) / r] for a particle hotter than the average in
    the top fifth of the container, [- 2 * (x, z) / r] for a colder one in
    the bottom fifth, and zero otherwise; the outward force reaches the
    velocity the loop body computes.  The calculator tests boiling first
    (estimated internal temperature [>=] the boiling point, or surface
    temperature [>] the boiling point): when the test fires the fluid is
    gas and the regime is [BoilingPhaseChange]; otherwise the fluid is
    liquid and the regime is convective only above 1708, so in
    [(1000, 1708]] the reported regime of a liquid is [Conductive] while
    the gate is open. *)
Theorem C9_convection_gate (rnd : nat -> R) (params : SimulationParams)
    (s : SimState) (delta : num) (r : R) :
  rayleigh (computed params) = Fin r -> 1000 < r <= 1708 ->
  canConvect (mkFrame params (rayleigh (computed params)) s delta) = true /\
  (fluidState (computed params) = liquid ->
   flowRegime (computed params) = Conductive) /\
  (fluidState (computed params) = gas ->
   flowRegime (computed params) = BoilingPhaseChange) /\
  (fluidState (computed params) = gas <->
   ((avgFluidTemp (computed params) >=? boilingPoint params)%js
    || (tempSurface params >? boilingPoint params)%js) = true) /\
  (forall p, fluidState (computed p) = liquid ->
     flowRegime (computed p)
     = if (rayleigh (computed p) >? 1708)%js
       then (if (rayleigh (computed p) >? 1e9)%js
             then TurbulentConvection else LaminarConvection)
       else Conductive) /\
  (forall ra, canConvect (mkFrame params ra s delta) = (ra >? 1000)%js) /\
  (forall x, (Fin x >? 1000)%js = true <-> 1000 < x) /\
  (forall f s' y rr T,
     thermal f s' y rr T
     = if canConvect f
       then lerp (thermal (still f) s' y rr T) (avgT f)
              (thermalRate f * 0.1 * dt f)%js
       else thermal (still f) s' y rr T) /\
  (forall f x y z rr T,
     canConvect f = false -> toroidal params f x y z rr T = (Fin 0, Fin 0)) /\
  (forall f x y z rr T,
     rr <= 0.001 -> toroidal params f x y z (Fin rr) T = (Fin 0, Fin 0)) /\
  (forall f x y z T av hh rad H,
     canConvect f = true -> avgT f = Fin av -> halfH f = Fin hh ->
     radius f = Fin rad -> rad <> 0 ->
     containerHeight params = Fin H -> H <> 0 -> 0.001 < hdist x z ->
     (av < T -> 0.8 < (y + hh) / H ->
      toroidal params f (Fin x) (Fin y) (Fin z) (Fin (hdist x z)) (Fin T)
      = (Fin (x / hdist x z * (2 * (hdist x z / rad))),
         Fin (z / hdist x z * (2 * (hdist x z / rad))))) /\
     (T < av -> (y + hh) / H < 0.2 ->
      toroidal params f (Fin x) (Fin y) (Fin z) (Fin (hdist x z)) (Fin T)
      = (Fin (- (x / hdist x z * 2)), Fin (- (z / hdist x z * 2)))) /\
     (T <= av \/ (y + hh) / H <= 0.8 -> av <= T \/ 0.2 <= (y + hh) / H ->
      toroidal params f (Fin x) (Fin y) (Fin z) (Fin (hdist x z)) (Fin T)
      = (Fin 0, Fin 0))) /\
  (forall f s' k c x y z vx vz t av hh rad H d m g,
     canConvect f = true -> dt f = Fin d -> halfH f = Fin hh ->
     radius f = Fin rad -> rad <> 0 ->
     inertiaFactor f = Fin m -> m <> 0 -> dragFactor f = Fin g ->
     avgT f = Fin av -> containerHeight params = Fin H -> H <> 0 ->
     c_x c = Fin x -> c_y c = Fin y -> c_z c = Fin z ->
     c_vx c = Fin vx -> c_vz c = Fin vz ->
     tested_temperature f s' c = Fin t ->
     0.001 < hdist x z -> av < t -> 0.8 < (y + hh) / H ->
     let v := clamp10 ((vx + (x / hdist x z * (2 * (hdist x z / rad))
                              + (rnd k - 0.5) * (t / 500 * 0.05)) * d / m)
                       * g) in
     c_vx (move rnd params f s' k c) = Fin v \/
     c_vx (move rnd params f s' k c) = Fin (v * -0.5)) /\
  (forall ra ra' show d w,
     (ra >? 1000)%js = (ra' >? 1000)%js ->
     useFrame rnd params ra true true show d w
     = useFrame rnd params ra' true true show d w).
Proof.
  intros Hr Hrange.
  destruct (computed_boiling_test params) as (_ & Hgas & Hboil).
  split.
  { cbn [mkFrame canConvect]. rewrite Hr. apply gt_finite. lra. }
  split; [intros Hliq; apply (regime_of_liquid params r); auto; lra|].
  split; [exact Hboil|].
  split; [exact Hgas|].
  split; [exact regime_by_threshold|].
  split; [reflexivity|].
  split; [intros x; apply gt_finite|].
  split; [exact thermal_still|].
  split; [intros f; apply toroidal_still|].
  split; [intros f x y z rr T; apply toroidal_axis|].
  split; [intros f x y z T av hh rad H; apply toroidal_open|].
  split; [intros f s' k c x y z vx vz t av hh rad H d m g;
          apply open_gate_velocity|].
  intros ra ra' show d w; apply useFrame_gate.
Qed.

Lemma C9_convection_gate_witness :
  canConvect
    (mkFrame tepid (rayleigh (computed tepid)) (init_sim tepid) 0.016) = true
  /\ flowRegime (computed tepid) = Conductive
  /\ toroidal tepid
       (mkFrame tepid (rayleigh (computed tepid)) (init_sim tepid) 0.016)
       (Fin 0.05) (Fin 0.02) (Fin 0) (Fin (hdist 0.05 0)) (Fin 349)
     = (Fin (0.05 / hdist 0.05 0 * (2 * (hdist 0.05 0 / 0.1))),
        Fin (0 / hdist 0.05 0 * (2 * (hdist 0.05 0 / 0.1)))).
Proof.
  destruct tepid_computed as (r & Hr & Hrange & Hliq).
  destruct (C9_convection_gate zero_oracle tepid (init_sim tepid) 0.016 r
              Hr Hrange)
    as (H1 & H2 & _ & _ & _ & _ & _ & _ & _ & _ & H3 & _ & _).
  split; [exact H1|]. split; [exact (H2 Hliq)|].
  refine (proj1 (H3 _ 0.05 0.02 0 349 345 (0.05 / 2) 0.1 0.05
                   H1 eq_refl _ eq_refl _ eq_refl _ _) _ _).
  - now apply halfH_mkFrame.
  - lra.
  - lra.
  - rewrite hdist_on_axis; lra.
  - lra.
  - lra.
Defined.

(** C9, as stated, fails under a plate hotter than the boiling point: the
    Rayleigh number lies in [(1000, 1708]] and the gate is open, but the
    reported regime is not [Conductive]. *)
Lemma C9_counterexample :
  exists r, rayleigh (computed simmering) = Fin r /\ 1000 < r <= 1708 /\
    canConvect
      (mkFrame simmering (rayleigh (computed simmering))
         (init_sim simmering) 0.016) = true /\
    flowRegime (computed simmering) <> Conductive.
Proof.
  destruct simmering_computed as (r & Hr & Hrange & Hreg).
  exists r. split; [exact Hr|]. split; [exact Hrange|]. split.
  - cbn [mkFrame canConvect]. rewrite Hr. apply gt_finite. lra.
  - rewrite Hreg. discriminate.
Qed.

(* ================================================================= *)
(** ** Runs of frames *)

Lemma frame_cell_bounds (rnd : nat -> R) (params : SimulationParams)
    (ra : num) (show : bool) (delta : num) (w : World) (rad H : R) (i : nat) :
  valid_oracle rnd ->
  containerRadius params = Fin rad -> 0 <= rad ->
  containerHeight params = Fin H -> 0 <= H ->
  wf_ensemble (particleCount params) (ens w) ->
  (i < particleCount params)%nat ->
  cell_bounds rad (H / 2)
    (read (ens (useFrame rnd params ra true true show delta w)) i).
Proof.
  intros Hr Hrad Hrad0 HH HH0 Hwf Hi.
  destruct (useFrame_spec rnd params ra show delta w Hwf)
    as (_ & _ & _ & Hcells).
  destruct (Hcells i Hi) as (ki & ->).
  rewrite particle_body_fst.
  destruct (physics_spec rnd params
              (mkFrame params ra (frame_state params w) delta)
              (frame_state params w) ki (read (ens w) i) rad (H / 2))
    as (Hb & _); auto.
  - apply halfH_mkFrame; assumption.
  - lra.
Qed.

Lemma frames_wf (rnd : nat -> R) (params : SimulationParams) (ra : num)
    (show : bool) (deltas : list num) :
  forall w,
    wf_ensemble (particleCount params) (ens w) ->
    wf_ensemble (particleCount params)
      (ens (frames rnd params ra show deltas w)) /\
    meta (ens (frames rnd params ra show deltas w)) = meta (ens w).
Proof.
  induction deltas as [|d ds IH]; intros w Hwf; cbn [frames].
  - split; [assumption | reflexivity].
  - destruct (useFrame_spec rnd params ra show d w Hwf)
      as (_ & Hwf1 & Hm1 & _).
    destruct (IH _ Hwf1) as (Hwf2 & Hm2).
    split; [assumption | congruence].
Qed.

(** X1.  Every frame of a run re-establishes the bounds: in a container of
    finite radius and height, from arrays of the right lengths holding any
    values at all, after one frame or more every particle has a finite
    position inside the container and a finite velocity with components in
    [[-10, 10]]; the arrays keep their lengths. *)
Theorem run_keeps_bounds (rnd : nat -> R) (params : SimulationParams)
    (ra : num) (show : bool) (deltas : list num) (delta : num) (w : World)
    (rad H : R) (i : nat) :
  valid_oracle rnd ->
  containerRadius params = Fin rad -> 0 <= rad ->
  containerHeight params = Fin H -> 0 <= H ->
  wf_ensemble (particleCount params) (ens w) ->
  (i < particleCount params)%nat ->
  wf_ensemble (particleCount params)
    (ens (frames rnd params ra show (deltas ++ [delta]) w)) /\
  cell_bounds rad (H / 2)
    (read (ens (frames rnd params ra show (deltas ++ [delta]) w)) i).
Proof.
  intros Hr Hrad Hrad0 HH HH0 Hwf Hi.
  split; [apply frames_wf; assumption|].
  rewrite frames_app. cbn [frames].
  apply frame_cell_bounds; auto.
  apply frames_wf; assumption.
Qed.

Lemma init_lengths (rnd : nat -> R) (params : SimulationParams) (l : list nat) :
  forall e k,
    let r := fold_left (fun acc i => init_particle rnd params i acc) l (e, k) in
    length (positions (fst r)) = length (positions e) /\
    length (velocities (fst r)) = length (velocities e) /\
    length (temperatures (fst r)) = length (temperatures e) /\
    length (colors (fst r)) = length (colors e) /\
    length (state (fst r)) = length (state e) /\
    snd r = (k + 4 * length l)%nat.
Proof.
  induction l as [|a l IH]; intros e k r; subst r; cbn [fold_left fst snd length].
  - repeat split; lia.
  - unfold init_particle at 2 4 6 8 10 12.
    destruct (fresh rnd params k) as [[[[x y] z] T] m].
    match goal with
    | |- context [fold_left _ l (?e1, ?k1)] =>
        destruct (IH e1 k1) as (H1 & H2 & H3 & H4 & H5 & H6)
    end.
    cbn [positions velocities temperatures colors state] in *.
    rewrite length_set3 in H1. rewrite length_set in H3.
    repeat split; try assumption. lia.
Qed.

Lemma mount_wf (rnd : nat -> R) (params : SimulationParams) (k : nat) :
  wf_ensemble (particleCount params) (ens (mount rnd params k)) /\
  cursor (mount rnd params k) = (k + 4 * particleCount params)%nat.
Proof.
  unfold mount, init_ensemble; cbn [ens cursor].
  match goal with
  | |- context [fold_left _ ?l (?e0, k)] =>
      pose proof (init_lengths rnd params l e0 k) as Hl
  end.
  cbv zeta in Hl. destruct Hl as (H1 & H2 & H3 & H4 & H5 & H6).
  cbn [positions velocities temperatures colors state] in *.
  rewrite !repeat_length in *. rewrite length_seq in H6.
  repeat split; assumption.
Qed.

(** X2.  From mount on: the initialiser makes arrays of the right lengths with
    four draws per particle, so every frame of a run that starts at mount
    leaves every particle inside the container with a clamped velocity. *)
Theorem run_from_mount (rnd : nat -> R) (params : SimulationParams)
    (ra : num) (show : bool) (deltas : list num) (delta : num) (k : nat)
    (rad H : R) (i : nat) :
  valid_oracle rnd ->
  containerRadius params = Fin rad -> 0 <= rad ->
  containerHeight params = Fin H -> 0 <= H ->
  (i < particleCount params)%nat ->
  cursor (mount rnd params k) = (k + 4 * particleCount params)%nat /\
  cell_bounds rad (H / 2)
    (read (ens (frames rnd params ra show (deltas ++ [delta])
                  (mount rnd params k))) i).
Proof.
  intros Hr Hrad Hrad0 HH HH0 Hi.
  destruct (mount_wf rnd params k) as (Hwf & Hc).
  split; [exact Hc|].
  rewrite frames_app. cbn [frames].
  apply frame_cell_bounds; auto.
  apply frames_wf; assumption.
Qed.

Lemma run_keeps_bounds_witness :
  wf_ensemble 3
    (ens (frames half_oracle water (rayleigh (computed water)) true
            ([Fin 0.016] ++ [Fin 0.016])
            (scenario_world 0.05 0 0 0.05 0 0 0))) /\
  cell_bounds 0.1 (0.2 / 2)
    (read (ens (frames half_oracle water (rayleigh (computed water)) true
                  ([Fin 0.016] ++ [Fin 0.016])
                  (scenario_world 0.05 0 0 0.05 0 0 0))) 1).
Proof.
  apply (run_keeps_bounds half_oracle water (rayleigh (computed water)) true
           [Fin 0.016] 0.016 (scenario_world 0.05 0 0 0.05 0 0 0) 0.1 0.2 1).
  - exact half_oracle_valid.
  - reflexivity.
  - lra.
  - reflexivity.
  - lra.
  - apply scenario_wf.
  - simpl; lia.
Defined.

Lemma run_from_mount_witness :
  cursor (mount half_oracle water 0) = (0 + 4 * 3)%nat /\
  cell_bounds 0.1 (0.2 / 2)
    (read (ens (frames half_oracle water (rayleigh (computed water)) true
                  ([Fin 0.016] ++ [Fin 0.016])
                  (mount half_oracle water 0))) 2).
Proof.
  apply (run_from_mount half_oracle water (rayleigh (computed water)) true
           [Fin 0.016] 0.016 0 0.1 0.2 2).
  - exact half_oracle_valid.
  - reflexivity.
  - lra.
  - reflexivity.
  - lra.
  - simpl; lia.
Defined.

(* ================================================================= *)
(** ** The display mode *)

Lemma body_motion (rnd : nat -> R) (params : SimulationParams) (f : Frame)
    (s : SimState) (show1 show2 : bool) (k : nat) (c1 c2 : Cells) :
  c_x c1 = c_x c2 -> c_y c1 = c_y c2 -> c_z c1 = c_z c2 ->
  c_vx c1 = c_vx c2 -> c_vy c1 = c_vy c2 -> c_vz c1 = c_vz c2 ->
  c_T c1 = c_T c2 ->
  snd (particle_body rnd params f s show1 k c1)
  = snd (particle_body rnd params f s show2 k c2) /\
  c_x (fst (particle_body rnd params f s show1 k c1))
  = c_x (fst (particle_body rnd params f s show2 k c2)) /\
  c_y (fst (particle_body rnd params f s show1 k c1))
  = c_y (fst (particle_body rnd params f s show2 k c2)) /\
  c_z (fst (particle_body rnd params f s show1 k c1))
  = c_z (fst (particle_body rnd params f s show2 k c2)) /\
  c_vx (fst (particle_body rnd params f s show1 k c1))
  = c_vx (fst (particle_body rnd params f s show2 k c2)) /\
  c_vy (fst (particle_body rnd params f s show1 k c1))
  = c_vy (fst (particle_body rnd params f s show2 k c2)) /\
  c_vz (fst (particle_body rnd params f s show1 k c1))
  = c_vz (fst (particle_body rnd params f s show2 k c2)) /\
  c_T (fst (particle_body rnd params f s show1 k c1))
  = c_T (fst (particle_body rnd params f s show2 k c2)) /\
  c_state (fst (particle_body rnd params f s show1 k c1))
  = c_state (fst (particle_body rnd params f s show2 k c2)).
Proof.
  intros Hx Hy Hz Hvx Hvy Hvz HT.
  unfold particle_body, recover, move.
  rewrite Hx, Hy, Hz, Hvx, Hvy, Hvz, HT.
  destruct (phase_force params f s _) as [st fy].
  destruct (toroidal params f _ _ _ _ _) as [fx fz].
  destruct (floor_ceiling f s _ _ _) as [[y' vy'] T'].
  destruct (walls f _ _ _ _) as [[[x' z'] vx'] vz'].
  cbn [c_x c_y c_z c_state c_color].
  destruct (blown_up x' y' z'); cbn; repeat split; reflexivity.
Qed.

Lemma iter_motion (rnd : nat -> R) (params : SimulationParams) (f : Frame)
    (s : SimState) (show1 show2 : bool) (i k : nat) (e1 e2 : Ensemble) :
  same_motion e1 e2 ->
  same_motion (fst (particle_iter rnd params f s show1 i (e1, k)))
              (fst (particle_iter rnd params f s show2 i (e2, k))) /\
  snd (particle_iter rnd params f s show1 i (e1, k))
  = snd (particle_iter rnd params f s show2 i (e2, k)) /\
  set (state e1) i
    (c_state (fst (particle_body rnd params f s show1 k (read e1 i))))
  = state (fst (particle_iter rnd params f s show1 i (e1, k))) /\
  c_state (fst (particle_body rnd params f s show1 k (read e1 i)))
  = c_state (fst (particle_body rnd params f s show2 k (read e2 i))).
Proof.
  intros (Hp & Hv & Ht). rewrite !particle_iter_eq. cbn [fst snd].
  destruct (body_motion rnd params f s show1 show2 k (read e1 i) (read e2 i))
    as (Hk & Ex & Ey & Ez & Evx & Evy & Evz & ET & Est);
    try (unfold read; cbn; congruence).
  unfold same_motion, write; cbn [positions velocities temperatures state].
  rewrite Hp, Hv, Ht, Ex, Ey, Ez, Evx, Evy, Evz, ET.
  repeat split; auto.
Qed.

Lemma loop_motion (rnd : nat -> R) (params : SimulationParams) (f : Frame)
    (s : SimState) (show1 show2 : bool) (l : list nat) :
  forall e1 e2 k,
    same_motion e1 e2 ->
    same_motion
      (fst (fold_left (fun acc i => particle_iter rnd params f s show1 i acc)
              l (e1, k)))
      (fst (fold_left (fun acc i => particle_iter rnd params f s show2 i acc)
              l (e2, k))) /\
    snd (fold_left (fun acc i => particle_iter rnd params f s show1 i acc)
           l (e1, k))
    = snd (fold_left (fun acc i => particle_iter rnd params f s show2 i acc)
             l (e2, k)) /\
    (state e1 = state e2 ->
     state (fst (fold_left
                   (fun acc i => particle_iter rnd params f s show1 i acc)
                   l (e1, k)))
     = state (fst (fold_left
                     (fun acc i => particle_iter rnd params f s show2 i acc)
                     l (e2, k)))).
Proof.
  induction l as [|a l IH]; intros e1 e2 k Hm; cbn [fold_left].
  - cbn [fst snd]. auto.
  - destruct (iter_motion rnd params f s show1 show2 a k e1 e2 Hm)
      as (Hm1 & Hk1 & _ & Hst).
    assert (Hs1 : state e1 = state e2 ->
                  state (fst (particle_iter rnd params f s show1 a (e1, k)))
                  = state (fst (particle_iter rnd params f s show2 a (e2, k)))).
    { intros Hs. rewrite !particle_iter_eq; cbn [fst write state]. congruence. }
    destruct (particle_iter rnd params f s show1 a (e1, k)) as [e1' k1].
    destruct (particle_iter rnd params f s show2 a (e2, k)) as [e2' k2].
    cbn [fst snd] in *. subst k2.
    destruct (IH e1' e2' k1 Hm1) as (H1 & H2 & H3).
    split; [assumption|]. split; [assumption|]. auto.
Qed.

(** X3.  The display mode is cosmetic, and so are the colour buffer, the
    stored phases and the variances: two worlds with the same smoothed state,
    cursor, positions, velocities and temperatures leave a frame with the same
    smoothed state, cursor, positions, velocities and temperatures, whatever
    the display mode of either; with the same stored phases they also leave it
    with the same phases. *)
Theorem display_is_cosmetic (rnd : nat -> R) (params : SimulationParams)
    (ra : num) (show1 show2 : bool) (delta : num) (w1 w2 : World) :
  sim w1 = sim w2 -> cursor w1 = cursor w2 ->
  same_motion (ens w1) (ens w2) ->
  sim (useFrame rnd params ra true true show1 delta w1)
  = sim (useFrame rnd params ra true true show2 delta w2) /\
  cursor (useFrame rnd params ra true true show1 delta w1)
  = cursor (useFrame rnd params ra true true show2 delta w2) /\
  same_motion (ens (useFrame rnd params ra true true show1 delta w1))
              (ens (useFrame rnd params ra true true show2 delta w2)) /\
  (state (ens w1) = state (ens w2) ->
   state (ens (useFrame rnd params ra true true show1 delta w1))
   = state (ens (useFrame rnd params ra true true show2 delta w2))).
Proof.
  intros Hs Hc Hm. unfold useFrame; cbn [negb orb].
  assert (Hfs : frame_state params w1 = frame_state params w2).
  { unfold frame_state. destruct Hm as (_ & _ & Ht). rewrite Hs, Ht.
    reflexivity. }
  rewrite Hfs, Hc. unfold particle_loop.
  destruct (loop_motion rnd params
              (mkFrame params ra (frame_state params w2) delta)
              (frame_state params w2) show1 show2
              (seq 0 (particleCount params)) (ens w1) (ens w2) (cursor w2) Hm)
    as (H1 & H2 & H3).
  destruct (fold_left _ _ (ens w1, cursor w2)) as [e1 k1].
  destruct (fold_left _ _ (ens w2, cursor w2)) as [e2 k2].
  cbn [fst snd sim ens cursor] in *. auto.
Qed.

Lemma display_is_cosmetic_witness :
  same_motion
    (ens (useFrame half_oracle water (rayleigh (computed water)) true true
            true 0.016 (scenario_world 0.05 0 0 0.05 0 0 0)))
    (ens (useFrame half_oracle water (rayleigh (computed water)) true true
            false 0.016 (scenario_world 0.05 0 0 0.05 0 0 0))).
Proof.
  refine (proj1 (proj2 (proj2
    (display_is_cosmetic half_oracle water (rayleigh (computed water))
       true false 0.016 (scenario_world 0.05 0 0 0.05 0 0 0)
       (scenario_world 0.05 0 0 0.05 0 0 0) _ _ _)))).
  - reflexivity.
  - reflexivity.
  - repeat split.
Defined.

(* ================================================================= *)
(** ** Draws and guards of a frame *)

Lemma body_cursor (rnd : nat -> R) (params : SimulationParams) (f : Frame)
    (s : SimState) (show : bool) (k : nat) (c : Cells) :
  snd (particle_body rnd params f s show k c)
  = (if blown_up (c_x (move rnd params f s k c)) (c_y (move rnd params f s k c))
          (c_z (move rnd params f s k c))
     then k + 6 else k + 3)%nat.
Proof.
  unfold particle_body, recover.
  destruct (blown_up _ _ _); reflexivity.
Qed.

Lemma loop_cursor (rnd : nat -> R) (params : SimulationParams) (f : Frame)
    (s : SimState) (show : bool) (l : list nat) :
  forall e k,
    (k + 3 * length l
     <= snd (fold_left (fun acc i => particle_iter rnd params f s show i acc)
               l (e, k))
     <= k + 6 * length l)%nat.
Proof.
  induction l as [|a l IH]; intros e k; cbn [fold_left length].
  - cbn [snd]. lia.
  - rewrite particle_iter_eq, body_cursor.
    match goal with
    | |- context [fold_left _ l (?e1, ?k1)] => specialize (IH e1 k1)
    end.
    destruct (blown_up _ _ _); lia.
Qed.

(** X4.  A frame draws three numbers from the oracle for each particle, and
    three more for each particle it resets: the cursor advances by at least [3
    * particleCount] and at most [6 * particleCount]. *)
Theorem frame_draws (rnd : nat -> R) (params : SimulationParams) (ra : num)
    (show : bool) (delta : num) (w : World) :
  (cursor w + 3 * particleCount params
   <= cursor (useFrame rnd params ra true true show delta w)
   <= cursor w + 6 * particleCount params)%nat.
Proof.
  unfold useFrame; cbn [negb orb]. unfold particle_loop.
  pose proof (loop_cursor rnd params
                (mkFrame params ra (frame_state params w) delta)
                (frame_state params w) show (seq 0 (particleCount params))
                (ens w) (cursor w)) as H.
  rewrite length_seq in H.
  destruct (fold_left _ _ _) as [e k]. exact H.
Qed.

(** X5.  The guards of the shared constants, for every configuration, smoothed
    state and elapsed time, NaN and the infinities included: the time step is
    NaN, [-Infinity] or a number of at most 0.05; the inertia factor is NaN,
    [+Infinity] or a number of at least 0.01, so that it is never zero; the
    drag factor is NaN or a number of [[0, 0.999]]. *)
Theorem frame_guards (params : SimulationParams) (ra : num) (s : SimState)
    (delta : num) :
  (dt (mkFrame params ra s delta) = NaN \/
   dt (mkFrame params ra s delta) = NInf \/
   exists d, dt (mkFrame params ra s delta) = Fin d /\ d <= 0.05) /\
  (inertiaFactor (mkFrame params ra s delta) = NaN \/
   inertiaFactor (mkFrame params ra s delta) = PInf \/
   exists m, inertiaFactor (mkFrame params ra s delta) = Fin m /\ 0.01 <= m) /\
  (dragFactor (mkFrame params ra s delta) = NaN \/
   exists g, dragFactor (mkFrame params ra s delta) = Fin g /\
             0 <= g <= 0.999).
Proof.
  unfold mkFrame; cbn [dt inertiaFactor dragFactor].
  split; [|split].
  - destruct delta; js_unfold; cbn; decide_reals; auto;
      right; right; eexists; (split; [reflexivity|]); lra.
  - set (x := (Js.max 1 (s_density s) * 0.001
                 * Js.or_else (densityEffect params) 1.0)%js).
    destruct x; js_unfold; cbn; decide_reals; auto;
      right; right; eexists; (split; [reflexivity|]); lra.
  - set (x := (1.0 - _)%js).
    destruct x; js_unfold; cbn; repeat (decide_reals; cbn); auto;
      right; eexists; (split; [reflexivity|]); lra.
Qed.

(* ================================================================= *)
(** ** NaN in the cells of a particle *)

Lemma lerp_nan_first (y t : num) : lerp NaN y t = NaN.
Proof. unfold lerp. rewrite mul_nan_r. reflexivity. Qed.

Lemma thermal_nan (f : Frame) (s : SimState) (y r : num) :
  thermal f s y r NaN = NaN.
Proof.
  unfold thermal.
  repeat match goal with
         | |- context [if ?b then _ else _] => destruct b
         end; rewrite ?lerp_nan_first; reflexivity.
Qed.

Lemma integrate_nan_velocity (f : Frame) (fa : num) : integrate f NaN fa = NaN.
Proof. reflexivity. Qed.

Lemma blown_x (y z : num) : blown_up NaN y z = true.
Proof. reflexivity. Qed.

Lemma blown_y (x z : num) : blown_up x NaN z = true.
Proof. unfold blown_up; cbn. now rewrite orb_true_r. Qed.

Lemma blown_z (x y : num) : blown_up x y NaN = true.
Proof. unfold blown_up; cbn. now rewrite orb_true_r. Qed.

(** A NaN in the velocity or in the temperature of a particle reaches its
    position within the loop body. *)
Lemma move_nan_blown_any (rnd : nat -> R) (params : SimulationParams)
    (f : Frame) (s : SimState) (k : nat) (c : Cells) :
  c_vx c = NaN \/ c_vy c = NaN \/ c_vz c = NaN \/ c_T c = NaN ->
  blown_at_check (move rnd params f s k c).
Proof.
  intros H. unfold blown_at_check, move.
  assert (Hv : integrate f (c_vx c)
                 (brownian rnd k
                    (thermal f s (c_y c)
                       (Js.sqrt (c_x c * c_x c + c_z c * c_z c)%js) (c_T c))
                    (fst (toroidal params f (c_x c) (c_y c) (c_z c)
                            (Js.sqrt (c_x c * c_x c + c_z c * c_z c)%js)
                            (thermal f s (c_y c)
                               (Js.sqrt (c_x c * c_x c + c_z c * c_z c)%js)
                               (c_T c))))) = NaN
               \/ integrate f (c_vy c)
                    (brownian rnd (k + 1)
                       (thermal f s (c_y c)
                          (Js.sqrt (c_x c * c_x c + c_z c * c_z c)%js) (c_T c))
                       (snd (phase_force params f s
                               (thermal f s (c_y c)
                                  (Js.sqrt (c_x c * c_x c + c_z c * c_z c)%js)
                                  (c_T c))))) = NaN
               \/ integrate f (c_vz c)
                    (brownian rnd (k + 2)
                       (thermal f s (c_y c)
                          (Js.sqrt (c_x c * c_x c + c_z c * c_z c)%js) (c_T c))
                       (snd (toroidal params f (c_x c) (c_y c) (c_z c)
                               (Js.sqrt (c_x c * c_x c + c_z c * c_z c)%js)
                               (thermal f s (c_y c)
                                  (Js.sqrt (c_x c * c_x c + c_z c * c_z c)%js)
                                  (c_T c))))) = NaN).
  { destruct H as [H | [H | [H | H]]]; rewrite H.
    - left; apply integrate_nan_velocity.
    - right; left; apply integrate_nan_velocity.
    - right; right; apply integrate_nan_velocity.
    - left. rewrite thermal_nan, brownian_nan_T. apply integrate_nan_force. }
  destruct (phase_force params f s _) as [st fy].
  destruct (toroidal params f _ _ _ _ _) as [fx fz].
  cbn [fst snd] in Hv.
  destruct Hv as [E | [E | E]]; rewrite E, advance_nan_v.
  - destruct (floor_ceiling f s _ _ _) as [[y' vy'] T'].
    rewrite walls_nan_x. reflexivity.
  - rewrite floor_ceiling_nan.
    destruct (walls f _ _ _ _) as [[[x' z'] vx'] vz'].
    cbn [c_x c_y c_z]. apply blown_y.
  - destruct (floor_ceiling f s _ _ _) as [[y' vy'] T'].
    rewrite walls_nan_z. cbn [c_x c_y c_z]. apply blown_z.
Qed.

(** X6.  A NaN does not survive a frame: a particle that enters a frame with a
    NaN in its position, its velocity or its temperature leaves it reset, at a
    finite position within [0.8 * rad] of the axis, at rest, at the smoothed
    ambient temperature. *)
Theorem nan_is_reset (rnd : nat -> R) (params : SimulationParams) (ra : num)
    (show : bool) (delta : num) (w : World) (rad H : R) (i : nat) :
  valid_oracle rnd ->
  containerRadius params = Fin rad -> 0 <= rad ->
  containerHeight params = Fin H -> 0 <= H ->
  wf_ensemble (particleCount params) (ens w) ->
  (i < particleCount params)%nat ->
  c_x (read (ens w) i) = NaN \/ c_y (read (ens w) i) = NaN \/
  c_z (read (ens w) i) = NaN \/ c_vx (read (ens w) i) = NaN \/
  c_vy (read (ens w) i) = NaN \/ c_vz (read (ens w) i) = NaN \/
  c_T (read (ens w) i) = NaN ->
  reset_cells rad H (s_tempFluidInitial (frame_state params w))
    (read (ens (useFrame rnd params ra true true show delta w)) i).
Proof.
  intros Hr Hrad Hrad0 HH HH0 Hwf Hi Hnan.
  destruct (useFrame_spec rnd params ra show delta w Hwf)
    as (_ & _ & _ & Hcells).
  destruct (Hcells i Hi) as (ki & ->).
  apply body_blown; auto.
  - apply halfH_mkFrame; assumption.
  - destruct Hnan as [E | [E | [E | E]]].
    + apply move_nan_blown; auto.
    + apply move_nan_blown; auto.
    + apply move_nan_blown; auto.
    + apply move_nan_blown_any; tauto.
Qed.

Lemma nan_is_reset_witness :
  reset_cells 0.1 0.2
    (s_tempFluidInitial (frame_state water nan_temperature_world))
    (read (ens (useFrame half_oracle water (rayleigh (computed water)) true
                  true true 0.016 nan_temperature_world)) 2).
Proof.
  apply (nan_is_reset half_oracle water (rayleigh (computed water)) true
           0.016 nan_temperature_world 0.1 0.2 2).
  - exact half_oracle_valid.
  - reflexivity.
  - lra.
  - reflexivity.
  - lra.
  - repeat split.
  - simpl; lia.
  - do 6 right. reflexivity.
Defined.

(* ================================================================= *)
(** ** NaN in the average temperature *)

Lemma add_nan_l (a : num) : (NaN + a)%js = NaN.
Proof. reflexivity. Qed.

Lemma brownian_nan_force (rnd : nat -> R) (k : nat) (T : num) :
  brownian rnd k T NaN = NaN.
Proof. reflexivity. Qed.

Lemma sum_from_nan (temps : list num) (len a : nat) :
  fold_left (fun sumT k => (sumT + get temps k)%js) (seq a len) NaN = NaN.
Proof.
  revert a; induction len as [|len IH]; intros a; cbn [seq fold_left]; auto.
Qed.

Lemma sum_with_nan (temps : list num) (len a j : nat) (acc : num) :
  (a <= j < a + len)%nat -> get temps j = NaN ->
  fold_left (fun sumT k => (sumT + get temps k)%js) (seq a len) acc = NaN.
Proof.
  revert a acc; induction len as [|len IH]; intros a acc Hj E;
    cbn [seq fold_left]; [lia|].
  destruct (Nat.eq_dec a j) as [-> | Hne].
  - rewrite E, add_nan_r. apply sum_from_nan.
  - apply IH; [lia | assumption].
Qed.

(** One NaN temperature makes the average of the frame NaN, and with it
    the running average. *)
Lemma frame_state_poisoned (params : SimulationParams) (w : World) :
  s_avgSystemTemp (sim w) = NaN \/
  (exists j, (j < particleCount params)%nat /\
             get (temperatures (ens w)) j = NaN) ->
  s_avgSystemTemp (frame_state params w) = NaN.
Proof.
  intros [H | (j & Hj & E)].
  - now apply avg_nan_stays.
  - unfold frame_state, set_avgSystemTemp; cbn [s_avgSystemTemp].
    unfold frameAvgT, sum_temperatures.
    rewrite (sum_with_nan _ _ 0 j) by (assumption || lia).
    cbn [Js.div]. apply lerp_nan_target.
Qed.

(** Around a NaN average a liquid particle gets a NaN buoyancy. *)
Lemma move_around_nan (rnd : nat -> R) (params : SimulationParams)
    (f : Frame) (s : SimState) (k : nat) (c : Cells) :
  avgT f = NaN ->
  c_state (move rnd params f s k c) = 1%nat \/
  blown_at_check (move rnd params f s k c).
Proof.
  intros Hav. unfold blown_at_check, move, phase_force, buoyancy.
  rewrite Hav.
  destruct (_ >? boilingPoint params)%js.
  - left.
    destruct (toroidal params f _ _ _ _ _) as [fx fz].
    destruct (floor_ceiling f s _ _ _) as [[y' vy'] T'].
    destruct (walls f _ _ _ _) as [[[x' z'] vx'] vz']. reflexivity.
  - right.
    destruct (toroidal params f _ _ _ _ _) as [fx fz].
    match goal with
    | |- context [brownian rnd (k + 1) ?T ?fy] =>
        assert (E : fy = NaN)
          by (unfold Js.sub; cbn [Js.neg];
              rewrite add_nan_r, mul_nan_r; cbn [Js.mul];
              apply add_nan_r);
        rewrite E
    end.
    rewrite brownian_nan_force.
    rewrite integrate_nan_force, advance_nan_v, floor_ceiling_nan.
    destruct (walls f _ _ _ _) as [[[x' z'] vx'] vz'].
    cbn [c_x c_y c_z]. apply blown_y.
Qed.

Lemma frame_around_nan (rnd : nat -> R) (params : SimulationParams)
    (ra : num) (show : bool) (delta : num) (w : World) (rad H : R) (i : nat) :
  valid_oracle rnd ->
  containerRadius params = Fin rad -> 0 <= rad ->
  containerHeight params = Fin H -> 0 <= H ->
  wf_ensemble (particleCount params) (ens w) ->
  (i < particleCount params)%nat ->
  s_avgSystemTemp (frame_state params w) = NaN ->
  c_state (read (ens (useFrame rnd params ra true true show delta w)) i)
  = 1%nat \/
  reset_cells rad H (s_tempFluidInitial (frame_state params w))
    (read (ens (useFrame rnd params ra true true show delta w)) i).
Proof.
  intros Hr Hrad Hrad0 HH HH0 Hwf Hi Hav.
  destruct (useFrame_spec rnd params ra show delta w Hwf)
    as (_ & _ & _ & Hcells).
  destruct (Hcells i Hi) as (ki & ->).
  set (s := frame_state params w) in *.
  set (f := mkFrame params ra s delta).
  destruct (move_around_nan rnd params f s ki (read (ens w) i)) as [Hg | Hb].
  - exact Hav.
  - left. rewrite particle_body_fst. unfold paint; cbn [c_state].
    rewrite c_state_recover. exact Hg.
  - right. apply body_blown; auto. apply halfH_mkFrame; assumption.
Qed.

(** X7.  A NaN average is for ever: once the
    running average temperature is NaN, or one temperature is, the running
    average is NaN after every later frame, and every frame leaves each
    particle either classified gas or reset (at rest, at the ambient
    temperature, at a random position). *)
Theorem nan_average_is_permanent (rnd : nat -> R) (params : SimulationParams)
    (ra : num) (show : bool) (deltas : list num) (delta : num) (w : World)
    (rad H : R) (i : nat) :
  valid_oracle rnd ->
  containerRadius params = Fin rad -> 0 <= rad ->
  containerHeight params = Fin H -> 0 <= H ->
  wf_ensemble (particleCount params) (ens w) ->
  (i < particleCount params)%nat ->
  s_avgSystemTemp (sim w) = NaN \/
  (exists j, (j < particleCount params)%nat /\
             get (temperatures (ens w)) j = NaN) ->
  s_avgSystemTemp (sim (frames rnd params ra show (deltas ++ [delta]) w))
  = NaN /\
  (c_state (read (ens (frames rnd params ra show (deltas ++ [delta]) w)) i)
   = 1%nat \/
   reset_cells rad H
     (s_tempFluidInitial
        (sim (frames rnd params ra show (deltas ++ [delta]) w)))
     (read (ens (frames rnd params ra show (deltas ++ [delta]) w)) i)).
Proof.
  intros Hr Hrad Hrad0 HH HH0 Hwf Hi Hnan.
  rewrite frames_app. cbn [frames].
  assert (Hmid : s_avgSystemTemp
                   (frame_state params (frames rnd params ra show deltas w))
                 = NaN).
  { clear Hi. revert w Hwf Hnan.
    induction deltas as [|d ds IH]; intros w Hwf Hnan; cbn [frames].
    - now apply frame_state_poisoned.
    - apply IH.
      + now apply useFrame_spec.
      + left. rewrite sim_useFrame. now apply frame_state_poisoned. }
  assert (Hwf' : wf_ensemble (particleCount params)
                   (ens (frames rnd params ra show deltas w)))
    by (apply frames_wf; assumption).
  rewrite sim_useFrame. split; [exact Hmid|].
  apply frame_around_nan; auto.
Qed.

Lemma nan_average_is_permanent_witness :
  s_avgSystemTemp
    (sim (frames half_oracle water (rayleigh (computed water)) true
            ([Fin 0.016] ++ [Fin 0.016]) nan_temperature_world)) = NaN /\
  (c_state
     (read (ens (frames half_oracle water (rayleigh (computed water)) true
                   ([Fin 0.016] ++ [Fin 0.016]) nan_temperature_world)) 0)
   = 1%nat \/
   reset_cells 0.1 0.2
     (s_tempFluidInitial
        (sim (frames half_oracle water (rayleigh (computed water)) true
                ([Fin 0.016] ++ [Fin 0.016]) nan_temperature_world)))
     (read (ens (frames half_oracle water (rayleigh (computed water)) true
                   ([Fin 0.016] ++ [Fin 0.016]) nan_temperature_world)) 0)).
Proof.
  apply (nan_average_is_permanent half_oracle water
           (rayleigh (computed water)) true [Fin 0.016] 0.016
           nan_temperature_world 0.1 0.2 0).
  - exact half_oracle_valid.
  - reflexivity.
  - lra.
  - reflexivity.
  - lra.
  - repeat split.
  - simpl; lia.
  - right. exists 2%nat. split; [simpl; lia | reflexivity].
Defined.

(* ================================================================= *)
(** ** The heat-map gradient *)

Lemma gradient_value (t : R) :
  gradient (Fin t)
  = if Rlt_dec t 0.25
    then (Fin (0.1 + (0.2 + - (0.1)) * (t * 4)),
          Fin (0.3 + (0.8 + - (0.3)) * (t * 4)),
          Fin (1.0 + (0.9 + - (1.0)) * (t * 4)))
    else if Rlt_dec t 0.5
    then (Fin (0.2 + (0.2 + - (0.2)) * ((t + - (0.25)) * 4)),
          Fin (0.8 + (0.9 + - (0.8)) * ((t + - (0.25)) * 4)),
          Fin (0.9 + (0.3 + - (0.9)) * ((t + - (0.25)) * 4)))
    else if Rlt_dec t 0.75
    then (Fin (0.2 + (0.9 + - (0.2)) * ((t + - (0.5)) * 4)),
          Fin (0.9 + (0.9 + - (0.9)) * ((t + - (0.5)) * 4)),
          Fin (0.3 + (0.2 + - (0.3)) * ((t + - (0.5)) * 4)))
    else (Fin (0.9 + (1.0 + - (0.9)) * ((t + - (0.75)) * 4)),
          Fin (0.9 + (0.2 + - (0.9)) * ((t + - (0.75)) * 4)),
          Fin (0.2 + (0.1 + - (0.2)) * ((t + - (0.75)) * 4))).
Proof.
  unfold gradient, Js.lt, Rltb.
  destruct (Rlt_dec t 0.25); [reflexivity|].
  destruct (Rlt_dec t 0.5); [reflexivity|].
  destruct (Rlt_dec t 0.75); reflexivity.
Qed.

(** X8.  The heat-map gradient has no jump: on [[0, 1]] each of its components
    moves by at most [2.8 * |t - t'|] between [t] and [t'], across the
    stops as well as within a segment; it starts at the cold colour and
    ends at the hot one. *)
Theorem gradient_has_no_jump (t t' : R) :
  0 <= t <= 1 -> 0 <= t' <= 1 ->
  Rabs (fst (fst (gradient_rgb t)) - fst (fst (gradient_rgb t')))
  <= 2.8 * Rabs (t - t') /\
  Rabs (snd (fst (gradient_rgb t)) - snd (fst (gradient_rgb t')))
  <= 2.8 * Rabs (t - t') /\
  Rabs (snd (gradient_rgb t) - snd (gradient_rgb t'))
  <= 2.8 * Rabs (t - t') /\
  gradient (Fin 0) = _cBlue /\ gradient (Fin 1) = _cRed.
Proof.
  intros Ht Ht'. unfold gradient_rgb. rewrite !gradient_value.
  assert (Habs : forall a b c, - c <= a - b <= c -> Rabs (a - b) <= c)
    by (intros; apply Rabs_le; lra).
  assert (Hd : forall a b, a - b <= Rabs (a - b) /\ b - a <= Rabs (a - b)).
  { intros a b. split; [apply Rle_abs|].
    rewrite Rabs_minus_sym. apply Rle_abs. }
  destruct (Hd t t') as [D1 D2].
  split; [|split; [|split; [|split]]].
  - destruct (Rlt_dec t 0.25), (Rlt_dec t 0.5), (Rlt_dec t 0.75),
      (Rlt_dec t' 0.25), (Rlt_dec t' 0.5), (Rlt_dec t' 0.75);
      try lra; cbn [cr cg cb fst snd real]; apply Habs; lra.
  - destruct (Rlt_dec t 0.25), (Rlt_dec t 0.5), (Rlt_dec t 0.75),
      (Rlt_dec t' 0.25), (Rlt_dec t' 0.5), (Rlt_dec t' 0.75);
      try lra; cbn [cr cg cb fst snd real]; apply Habs; lra.
  - destruct (Rlt_dec t 0.25), (Rlt_dec t 0.5), (Rlt_dec t 0.75),
      (Rlt_dec t' 0.25), (Rlt_dec t' 0.5), (Rlt_dec t' 0.75);
      try lra; cbn [cr cg cb fst snd real]; apply Habs; lra.
  - destruct (Rlt_dec 0 0.25); [|lra]. unfold _cBlue.
    repeat f_equal; lra.
  - destruct (Rlt_dec 1 0.25); [lra|]. destruct (Rlt_dec 1 0.5); [lra|].
    destruct (Rlt_dec 1 0.75); [lra|]. unfold _cRed.
    repeat f_equal; lra.
Qed.

Lemma gradient_has_no_jump_witness :
  Rabs (fst (fst (gradient_rgb 0.2)) - fst (fst (gradient_rgb 0.3)))
  <= 2.8 * Rabs (0.2 - 0.3) /\
  Rabs (snd (fst (gradient_rgb 0.2)) - snd (fst (gradient_rgb 0.3)))
  <= 2.8 * Rabs (0.2 - 0.3) /\
  Rabs (snd (gradient_rgb 0.2) - snd (gradient_rgb 0.3))
  <= 2.8 * Rabs (0.2 - 0.3) /\
  gradient (Fin 0) = _cBlue /\ gradient (Fin 1) = _cRed.
Proof.
  apply (gradient_has_no_jump 0.2 0.3); lra.
Defined.

(* ================================================================= *)
(** ** The temperature scale *)

Lemma tNorm_value (s : SimState) (a b T : R) :
  s_tempSurface s = Fin a -> s_tempFluidInitial s = Fin b ->
  tNorm s (Fin T) = Fin (Rmax 0 (Rmin 1 ((T - b) / Rmax 1 (a - b)))).
Proof.
  intros Ha Hb. unfold tNorm. rewrite Ha, Hb.
  cbn [Js.sub Js.neg Js.add]. rewrite max_finite.
  pose proof (Rmax_l 1 (a + - b)).
  rewrite div_finite by lra. rewrite min_finite, max_finite.
  reflexivity.
Qed.

(** X9.  The temperature scale of the colour ramp: between finite smoothed
    temperatures the normalised temperature never decreases when the
    temperature rises; when the surface is at least 1 K above the ambient it
    is 0 at the ambient temperature and 1 at the surface temperature; when it
    is not, the ramp spans 1 K above the ambient instead. *)
Theorem tNorm_scale (s : SimState) (a b : R) :
  s_tempSurface s = Fin a -> s_tempFluidInitial s = Fin b ->
  (forall T1 T2, T1 <= T2 ->
     real (tNorm s (Fin T1)) <= real (tNorm s (Fin T2))) /\
  (b + 1 <= a -> tNorm s (Fin b) = Fin 0 /\ tNorm s (Fin a) = Fin 1) /\
  (a <= b + 1 ->
   forall T, tNorm s (Fin T) = Fin (Rmax 0 (Rmin 1 (T - b)))).
Proof.
  intros Ha Hb. split; [|split].
  - intros T1 T2 HT. rewrite !(tNorm_value s a b) by assumption.
    cbn [real].
    pose proof (Rmax_l 1 (a - b)) as Hm.
    assert (Hq : (T1 - b) / Rmax 1 (a - b) <= (T2 - b) / Rmax 1 (a - b)).
    { unfold Rdiv. apply Rmult_le_compat_r; [|lra].
      left. apply Rinv_0_lt_compat. lra. }
    apply Rle_max_compat_l. apply Rle_min_compat_l. exact Hq.
  - intros Hab. rewrite !(tNorm_value s a b) by assumption.
    rewrite (Rmax_right 1 (a - b)) by lra.
    split; f_equal.
    + replace ((b - b) / (a - b)) with 0 by (unfold Rdiv; ring).
      rewrite Rmin_right by lra. apply Rmax_left; lra.
    + replace ((a - b) / (a - b)) with 1 by (field; lra).
      rewrite Rmin_left by lra. apply Rmax_right; lra.
  - intros Hab T. rewrite (tNorm_value s a b) by assumption.
    rewrite (Rmax_left 1 (a - b)) by lra. do 3 f_equal. field.
Qed.

Lemma tNorm_scale_witness :
  (forall T1 T2, T1 <= T2 ->
     real (tNorm (init_sim water) (Fin T1))
     <= real (tNorm (init_sim water) (Fin T2))) /\
  (293 + 1 <= 350 ->
   tNorm (init_sim water) (Fin 293) = Fin 0 /\
   tNorm (init_sim water) (Fin 350) = Fin 1) /\
  (350 <= 293 + 1 ->
   forall T, tNorm (init_sim water) (Fin T) = Fin (Rmax 0 (Rmin 1 (T - 293)))).
Proof.
  apply (tNorm_scale (init_sim water) 350 293); reflexivity.
Defined.

(* ================================================================= *)
(** ** Regimes of the calculator *)

Lemma gt_weaken (a : num) (x y : R) :
  y <= x -> (a >? Fin x)%js = true -> (a >? Fin y)%js = true.
Proof.
  intros Hxy. destruct a as [r| | |]; try (cbn; auto; fail).
  rewrite !gt_finite. lra.
Qed.

(** X10.  The regimes of the calculator and the gate of the integrator: the
    fluid state is gas exactly in the boiling regime; a liquid is turbulent
    above 1e9, laminar above 1708 and conductive otherwise (a NaN Rayleigh
    number included); and every frame run under a laminar or turbulent regime
    has its convection gate open. *)
Theorem regimes_and_gate (params : SimulationParams) (s : SimState)
    (delta : num) :
  (fluidState (computed params) = gas <->
   flowRegime (computed params) = BoilingPhaseChange) /\
  (fluidState (computed params) = liquid ->
   flowRegime (computed params)
   = if (rayleigh (computed params) >? 1708)%js
     then (if (rayleigh (computed params) >? 1e9)%js
           then TurbulentConvection else LaminarConvection)
     else Conductive) /\
  (flowRegime (computed params) = LaminarConvection \/
   flowRegime (computed params) = TurbulentConvection ->
   canConvect (mkFrame params (rayleigh (computed params)) s delta) = true) /\
  (rayleigh (computed params) = NaN ->
   canConvect (mkFrame params (rayleigh (computed params)) s delta) = false /\
   flowRegime (computed params) <> LaminarConvection /\
   flowRegime (computed params) <> TurbulentConvection).
Proof.
  cbn [mkFrame canConvect]. rewrite computed_rayleigh. unfold computed.
  destruct (_ || _).
  - cbn [flowRegime fluidState]. split; [tauto|].
    split; [discriminate|]. split; [intros [E | E]; discriminate|].
    intros E; rewrite E. repeat split; discriminate.
  - match goal with
    | |- context [if Js.gt ?a ?b then _ else _] =>
        destruct (Js.gt a b) eqn:E1
    end.
    + match goal with
      | |- context [if Js.gt ?a ?b then _ else _] =>
          destruct (Js.gt a b) eqn:E2
      end; cbn [flowRegime fluidState];
        (split; [split; discriminate|]); (split; [reflexivity|]);
        (split; [intros _; apply (gt_weaken _ 1708 1000); [lra | assumption]|]);
        intros E; rewrite E in E1; discriminate.
    + cbn [flowRegime fluidState].
      split; [split; discriminate|]. split; [reflexivity|].
      split; [intros [E | E]; discriminate|].
      intros E; rewrite E. repeat split; discriminate.
Qed.

(** X11.  A plate that is not hotter than the fluid never drives convection:
    with finite values and a non-zero density, viscosity and diffusivity, the
    Rayleigh number is 0, the integrator's gate is closed and the regime is
    not a convective one. *)
Theorem cold_plate_never_convects (params : SimulationParams) (s : SimState)
    (delta : num) (g be Ts T0 H mu rho al : R) :
  gravity params = Fin g -> expansionCoefficient params = Fin be ->
  tempSurface params = Fin Ts -> tempFluidInitial params = Fin T0 ->
  containerHeight params = Fin H ->
  viscosityDynamic params = Fin mu -> density params = Fin rho ->
  thermalDiffusivity params = Fin al ->
  mu <> 0 -> rho <> 0 -> al <> 0 -> Ts <= T0 ->
  rayleigh (computed params) = Fin 0 /\
  canConvect (mkFrame params (rayleigh (computed params)) s delta) = false /\
  flowRegime (computed params) <> LaminarConvection /\
  flowRegime (computed params) <> TurbulentConvection.
Proof.
  intros Hg Hbe HTs HT0 HH Hmu Hrho Hal Hmu0 Hrho0 Hal0 Hcold.
  assert (Hra : rayleigh (computed params) = Fin 0).
  { rewrite computed_rayleigh, Hg, Hbe, HTs, HT0, HH, Hmu, Hrho, Hal.
    cbn [Js.sub Js.neg Js.add]. rewrite max_finite.
    rewrite Rmax_left by lra. cbn [Js.mul Js.cube].
    rewrite (div_finite mu rho) by assumption. cbn [Js.mul].
    rewrite div_finite.
    - f_equal. unfold Rdiv. ring.
    - apply Rmult_integral_contrapositive_currified; [|assumption].
      unfold Rdiv. apply Rmult_integral_contrapositive_currified;
        [assumption | now apply Rinv_neq_0_compat]. }
  split; [exact Hra|]. cbn [mkFrame canConvect]. rewrite Hra.
  split; [apply gt_finite_false; lra|].
  unfold computed. rewrite computed_rayleigh in Hra.
  unfold computed in *.
  destruct (_ || _); cbn [flowRegime]; [split; discriminate|].
  rewrite Hra.
  destruct (Fin 0 >? 1708)%js eqn:E; [apply gt_finite in E; lra|].
  cbn [flowRegime]. split; discriminate.
Qed.

(** X12.  The Rayleigh number grows with the cube of the height: between
    finite values, with a non-zero density, viscosity and diffusivity, scaling
    the height by [c] scales the Rayleigh number by [c^3]. *)
Theorem rayleigh_cubic_in_height (params : SimulationParams)
    (g be Ts T0 H mu rho al c : R) :
  gravity params = Fin g -> expansionCoefficient params = Fin be ->
  tempSurface params = Fin Ts -> tempFluidInitial params = Fin T0 ->
  containerHeight params = Fin H ->
  viscosityDynamic params = Fin mu -> density params = Fin rho ->
  thermalDiffusivity params = Fin al ->
  mu <> 0 -> rho <> 0 -> al <> 0 ->
  exists ra,
    rayleigh (computed params) = Fin ra /\
    rayleigh (computed (with_height (c * H) params)) = Fin (c * c * c * ra).
Proof.
  intros Hg Hbe HTs HT0 HH Hmu Hrho Hal Hmu0 Hrho0 Hal0.
  assert (Hden : mu / rho * al <> 0).
  { apply Rmult_integral_contrapositive_currified; [|assumption].
    unfold Rdiv. apply Rmult_integral_contrapositive_currified;
      [assumption | now apply Rinv_neq_0_compat]. }
  rewrite !computed_rayleigh.
  unfold with_height; cbn [gravity expansionCoefficient tempSurface
    tempFluidInitial containerHeight viscosityDynamic density
    thermalDiffusivity].
  rewrite Hg, Hbe, HTs, HT0, HH, Hmu, Hrho, Hal.
  cbn [Js.sub Js.neg Js.add]. rewrite max_finite. cbn [Js.mul Js.cube].
  rewrite (div_finite mu rho) by assumption. cbn [Js.mul].
  rewrite !div_finite by assumption.
  eexists; split; [reflexivity|]. f_equal. unfold Rdiv. ring.
Qed.

Lemma cold_plate_never_convects_witness :
  rayleigh (computed cold_plate) = Fin 0 /\
  canConvect (mkFrame cold_plate (rayleigh (computed cold_plate))
                (init_sim cold_plate) 0.016) = false /\
  flowRegime (computed cold_plate) <> LaminarConvection /\
  flowRegime (computed cold_plate) <> TurbulentConvection.
Proof.
  apply (cold_plate_never_convects cold_plate (init_sim cold_plate) 0.016
           9.81 0.000207 280 293 0.2 0.001002 998 1.43e-7);
    try reflexivity; lra.
Defined.

Lemma rayleigh_cubic_in_height_witness :
  exists ra,
    rayleigh (computed water) = Fin ra /\
    rayleigh (computed (with_height (2 * 0.2) water))
    = Fin (2 * 2 * 2 * ra).
Proof.
  apply (rayleigh_cubic_in_height water
           9.81 0.000207 350 293 0.2 0.001002 998 1.43e-7 2);
    try reflexivity; lra.
Defined.

(* ================================================================= *)
(** ** The Nusselt number *)

Lemma Rpower_pos (x y : R) : 0 < Rpower x y.
Proof. unfold Rpower. apply exp_pos. Qed.

(** The correlation of the convective branch, on finite values. *)
Lemma correlation_floor (ra pr : R) :
  0 < ra -> 0 < pr ->
  exists nu,
    Js.sq (0.825
           + 0.387 * Math_pow_frac (Math_abs (Fin ra)) (1 / 6)
             / Math_pow_frac (1 + Math_pow_frac (0.492 / Fin pr) (9 / 16))
                 (8 / 27))%js = Fin nu /\
    0.825 * 0.825 < nu.
Proof.
  intros Hra Hpr. cbn [Math_abs]. rewrite Rabs_pos_eq by lra.
  unfold Math_pow_frac at 1. destruct (Rlt_dec 0 ra); [|lra].
  rewrite (div_finite 0.492 pr) by lra.
  assert (Hq : 0 < 0.492 / pr) by (apply Rdiv_lt_0_compat; lra).
  unfold Math_pow_frac at 2. destruct (Rlt_dec 0 (0.492 / pr)); [|lra].
  cbn [Js.add]. pose proof (Rpower_pos (0.492 / pr) (9 / 16)) as Hp1.
  unfold Math_pow_frac.
  destruct (Rlt_dec 0 (1 + Rpower (0.492 / pr) (9 / 16))); [|lra].
  pose proof (Rpower_pos (1 + Rpower (0.492 / pr) (9 / 16)) (8 / 27)) as Hp2.
  pose proof (Rpower_pos ra (1 / 6)) as Hp3.
  cbn [Js.mul]. rewrite div_finite by lra. cbn [Js.add Js.sq Js.mul].
  eexists; split; [reflexivity|].
  assert (Hn : 0 < 0.387 * Rpower ra (1 / 6)
                   / Rpower (1 + Rpower (0.492 / pr) (9 / 16)) (8 / 27)).
  { apply Rdiv_lt_0_compat; [|assumption]. nra. }
  nra.
Qed.

(** The calculator between finite values. *)
Lemma computed_finite (params : SimulationParams)
    (g be Ts T0 Tb H mu rho al : R) :
  gravity params = Fin g -> expansionCoefficient params = Fin be ->
  tempSurface params = Fin Ts -> tempFluidInitial params = Fin T0 ->
  boilingPoint params = Fin Tb -> containerHeight params = Fin H ->
  viscosityDynamic params = Fin mu -> density params = Fin rho ->
  thermalDiffusivity params = Fin al ->
  0 < mu -> 0 < rho -> 0 < al ->
  rayleigh (computed params)
  = Fin (g * be * Rmax 0 (Ts - T0) * (H * H * H) / (mu / rho * al)) /\
  (((Fin (T0 + Rmax 0 (Ts - T0) * 0.4) >=? Fin Tb)%js
    || (Fin Ts >? Fin Tb)%js) = true ->
   fluidState (computed params) = gas /\
   flowRegime (computed params) = BoilingPhaseChange) /\
  (((Fin (T0 + Rmax 0 (Ts - T0) * 0.4) >=? Fin Tb)%js
    || (Fin Ts >? Fin Tb)%js) = false ->
   fluidState (computed params) = liquid /\
   (1708 < g * be * Rmax 0 (Ts - T0) * (H * H * H) / (mu / rho * al) ->
    flowRegime (computed params) <> Conductive)).
Proof.
  intros Hg Hbe HTs HT0 HTb HH Hmu Hrho Hal Hmu0 Hrho0 Hal0.
  assert (Hnu0 : 0 < mu / rho) by (apply Rdiv_lt_0_compat; lra).
  unfold computed.
  rewrite Hg, Hbe, HTs, HT0, HTb, HH, Hmu, Hrho, Hal.
  cbn [Js.sub Js.neg Js.add]. rewrite max_finite.
  replace (Ts + - T0) with (Ts - T0) by lra.
  cbn [Js.mul Js.cube Js.add].
  rewrite (div_finite mu rho) by lra. cbn [Js.mul].
  rewrite (div_finite _ (mu / rho * al)) by nra.
  set (ra := g * be * Rmax 0 (Ts - T0) * (H * H * H) / (mu / rho * al)).
  destruct (_ || _).
  - cbn [rayleigh fluidState flowRegime].
    split; [reflexivity|]. split; [auto | discriminate].
  - destruct (Fin ra >? 1708)%js eqn:E.
    + destruct (Fin ra >? 1e9)%js; cbn [rayleigh fluidState flowRegime];
        (split; [reflexivity|]); (split; [discriminate|]);
        intros _; (split; [reflexivity|]); intros _; discriminate.
    + apply gt_finite_false in E. cbn [rayleigh fluidState flowRegime].
      split; [reflexivity|]. split; [discriminate|].
      intros _. split; [reflexivity|]. intros; lra.
Qed.

(** X13.  The Nusselt number by regime, between finite values with a positive
    height, viscosity, density and diffusivity: it is at least 100 when the
    calculator reports gas, exactly 1 in the conductive regime, and above
    [0.825^2] (about 0.68) in the convective ones, so it is always positive;
    the heat transfer coefficient is [k / L * Nu], and with a conductivity and
    an area that are not negative the heat transfer rate is not negative
    either. *)
Theorem nusselt_by_regime (params : SimulationParams) (kf area : num)
    (g be Ts T0 Tb H mu rho al k A : R) :
  gravity params = Fin g -> expansionCoefficient params = Fin be ->
  tempSurface params = Fin Ts -> tempFluidInitial params = Fin T0 ->
  boilingPoint params = Fin Tb -> containerHeight params = Fin H ->
  viscosityDynamic params = Fin mu -> density params = Fin rho ->
  thermalDiffusivity params = Fin al -> kf = Fin k -> area = Fin A ->
  0 < H -> 0 < mu -> 0 < rho -> 0 < al -> 0 <= k -> 0 <= A ->
  exists nu,
    nusselt (computed_heat params kf area) = Fin nu /\
    heatTransferCoeff (computed_heat params kf area) = Fin (k / H * nu) /\
    heatTransferRate (computed_heat params kf area)
    = Fin (k / H * nu * A * Rmax 0 (Ts - T0)) /\
    0.825 * 0.825 <= nu /\
    (fluidState (computed params) = gas -> 100 <= nu) /\
    (flowRegime (computed params) = Conductive -> nu = 1) /\
    0 <= k / H * nu * A * Rmax 0 (Ts - T0).
Proof.
  intros Hg Hbe HTs HT0 HTb HH Hmu Hrho Hal -> -> HH0 Hmu0 Hrho0 Hal0 Hk HA.
  assert (Hnu0 : 0 < mu / rho) by (apply Rdiv_lt_0_compat; lra).
  assert (Hpr0 : 0 < mu / rho / al) by (apply Rdiv_lt_0_compat; lra).
  assert (HdT : 0 <= Rmax 0 (Ts - T0)) by apply Rmax_l.
  assert (Hkh : 0 <= k / H).
  { unfold Rdiv. apply Rmult_le_pos; [lra|]. left.
    now apply Rinv_0_lt_compat. }
  assert (Hfin : forall nu, 0 <= nu ->
            0 <= k / H * nu * A * Rmax 0 (Ts - T0)).
  { intros nu Hn.
    apply Rmult_le_pos; [apply Rmult_le_pos; [apply Rmult_le_pos|]|];
      assumption. }
  destruct (computed_finite params g be Ts T0 Tb H mu rho al
              Hg Hbe HTs HT0 HTb HH Hmu Hrho Hal Hmu0 Hrho0 Hal0)
    as (_ & Hboil & Hliq).
  unfold computed_heat.
  rewrite Hg, Hbe, HTs, HT0, HTb, HH, Hmu, Hrho, Hal.
  assert (E1 : Js.max 0 (Fin Ts - Fin T0)%js = Fin (Rmax 0 (Ts - T0))).
  { cbn [Js.sub Js.neg Js.add]. rewrite max_finite. reflexivity. }
  rewrite E1, (div_finite mu rho), (div_finite (mu / rho) al) by lra.
  assert (E2 : (Fin g * Fin be * Fin (Rmax 0 (Ts - T0)) * Js.cube (Fin H)
                / (Fin (mu / rho) * Fin al))%js
               = Fin (g * be * Rmax 0 (Ts - T0) * (H * H * H)
                      / (mu / rho * al))).
  { cbn [Js.mul Js.cube]. apply div_finite. nra. }
  rewrite E2.
  assert (E3 : (Fin T0 + Fin (Rmax 0 (Ts - T0)) * 0.4)%js
               = Fin (T0 + Rmax 0 (Ts - T0) * 0.4)) by reflexivity.
  rewrite E3, (div_finite k H) by lra.
  set (ra := g * be * Rmax 0 (Ts - T0) * (H * H * H) / (mu / rho * al)) in *.
  destruct ((Fin (T0 + Rmax 0 (Ts - T0) * 0.4) >=? Fin Tb)%js
            || (Fin Ts >? Fin Tb)%js) eqn:Etest.
  - (* boiling *)
    destruct (Hboil eq_refl) as (Hst & Hreg). clear Hliq.
    rewrite max_finite.
    cbn [nusselt heatTransferCoeff heatTransferRate Js.sub Js.neg Js.add
         Js.mul].
    eexists; split; [reflexivity|]. split; [reflexivity|].
    split; [reflexivity|].
    assert (Hmax : Tb <= Rmax (T0 + Rmax 0 (Ts - T0) * 0.4) Ts).
    { apply orb_true_iff in Etest. destruct Etest as [E | E].
      - apply ge_finite in E.
        eapply Rle_trans; [exact E | apply Rmax_l].
      - apply gt_finite in E.
        eapply Rle_trans; [left; exact E | apply Rmax_r]. }
    split; [lra|]. split; [intros _; lra|].
    split; [rewrite Hreg; discriminate|]. apply Hfin. lra.
  - destruct (Hliq eq_refl) as (Hst & Hreg). clear Hboil.
    destruct (Fin ra >? 1708)%js eqn:Era.
    + (* convective *)
      apply gt_finite in Era.
      destruct (correlation_floor ra (mu / rho / al)) as (nu & Hnu & Hfl);
        [lra | assumption |].
      cbv zeta. rewrite Hnu.
      cbn [nusselt heatTransferCoeff heatTransferRate Js.mul].
      exists nu. split; [reflexivity|]. split; [reflexivity|].
      split; [reflexivity|]. split; [lra|].
      split; [rewrite Hst; discriminate|]. split.
      * intros Hc. exfalso. now apply (Hreg Era).
      * apply Hfin. nra.
    + cbn [nusselt heatTransferCoeff heatTransferRate Js.mul].
      exists 1. split; [reflexivity|]. split; [reflexivity|].
      split; [reflexivity|]. split; [lra|].
      split; [rewrite Hst; discriminate|]. split; [reflexivity|].
      apply Hfin. lra.
Qed.

Lemma nusselt_by_regime_witness :
  exists nu,
    nusselt (computed_heat water 0.6 0.0314) = Fin nu /\
    heatTransferCoeff (computed_heat water 0.6 0.0314)
    = Fin (0.6 / 0.2 * nu) /\
    heatTransferRate (computed_heat water 0.6 0.0314)
    = Fin (0.6 / 0.2 * nu * 0.0314 * Rmax 0 (350 - 293)) /\
    0.825 * 0.825 <= nu /\
    (fluidState (computed water) = gas -> 100 <= nu) /\
    (flowRegime (computed water) = Conductive -> nu = 1) /\
    0 <= 0.6 / 0.2 * nu * 0.0314 * Rmax 0 (350 - 293).
Proof.
  apply (nusselt_by_regime water 0.6 0.0314
           9.81 0.000207 350 293 373.15 0.2 0.001002 998 1.43e-7
           0.6 0.0314);
    try reflexivity; lra.
Defined.

(* ================================================================= *)
(** ** The wall *)

Lemma hdist_pos (x z : R) : x <> 0 \/ z <> 0 -> 0 < hdist x z.
Proof.
  intros H. unfold hdist. apply sqrt_lt_R0.
  destruct H as [H | H].
  - assert (0 < x * x) by (destruct (Rtotal_order x 0) as [?|[?|?]]; nra).
    nra.
  - assert (0 < z * z) by (destruct (Rtotal_order z 0) as [?|[?|?]]; nra).
    nra.
Qed.

Lemma hdist_slope (x z : R) :
  x <> 0 -> sqrt (1 + (z / x)²) = hdist x z / Rabs x.
Proof.
  intros Hx. unfold hdist.
  replace (1 + (z / x)²) with ((x * x + z * z) / x²)
    by (unfold Rsqr; field; assumption).
  rewrite sqrt_div_alt by (now apply Rsqr_pos_lt).
  now rewrite sqrt_Rsqr_abs.
Qed.

(** The angle of [Math.atan2] is the angle of the point: its cosine and
    sine are the coordinates over the distance to the origin. *)
Lemma angle_polar (x z : R) :
  x <> 0 \/ z <> 0 ->
  cos (Js.angle z x) = x / hdist x z /\ sin (Js.angle z x) = z / hdist x z.
Proof.
  intros H. pose proof (hdist_pos x z H) as Hd. unfold Js.angle.
  destruct (Rlt_dec 0 x) as [Hx | Hx].
  - rewrite cos_atan, sin_atan, hdist_slope by lra.
    rewrite Rabs_pos_eq by lra. split; field; lra.
  - destruct (Rlt_dec x 0) as [Hx' | Hx'].
    + assert (Hc : cos (atan (z / x)) = - x / hdist x z).
      { rewrite cos_atan, hdist_slope by lra.
        rewrite Rabs_left by lra. field; lra. }
      assert (Hs : sin (atan (z / x)) = - z / hdist x z).
      { rewrite sin_atan, hdist_slope by lra.
        rewrite Rabs_left by lra. field; lra. }
      destruct (Rlt_dec z 0).
      * rewrite cos_minus, sin_minus, cos_PI, sin_PI, Hc, Hs.
        split; field; lra.
      * rewrite neg_cos, neg_sin, Hc, Hs. split; field; lra.
    + assert (x = 0) by lra. subst x.
      assert (Hz : z <> 0) by (destruct H; [lra | assumption]).
      unfold hdist in *. replace (0 * 0 + z * z) with (z * z) in * by ring.
      destruct (Rlt_dec 0 z) as [Hz1 | Hz1].
      * rewrite cos_PI2, sin_PI2, sqrt_square by lra. split; field; lra.
      * destruct (Rlt_dec z 0) as [Hz2 | Hz2]; [|lra].
        rewrite cos_neg, sin_neg, cos_PI2, sin_PI2.
        replace (z * z) with (- z * - z) by ring.
        rewrite sqrt_square by lra. split; field; lra.
Qed.

(** X14.  The wall puts a particle back along its own ray: a particle at a
    finite point farther from the axis than the radius is moved to the point
    of the wall in the same direction from the axis, [rad * (x, z) / sqrt (x^2
    + z^2)], and its horizontal velocity is reversed and halved; a particle
    within the radius is left alone. *)
Theorem walls_project_radially (f : Frame) (x z rad : R) (vx vz : num) :
  radius f = Fin rad -> 0 <= rad ->
  (rad < hdist x z ->
   walls f (Fin x) (Fin z) vx vz
   = (Fin (rad * (x / hdist x z)), Fin (rad * (z / hdist x z)),
      (vx * (-0.5))%js, (vz * (-0.5))%js)) /\
  (hdist x z <= rad -> walls f (Fin x) (Fin z) vx vz = (Fin x, Fin z, vx, vz)).
Proof.
  intros Hrad Hrad0. unfold walls. rewrite Hrad.
  cbn [Js.mul Js.add Js.sqrt].
  destruct (Rlt_dec (x * x + z * z) 0) as [Hneg | _];
    [pose proof (sumsq_nonneg x z); lra|].
  fold (hdist x z). split; intros Hd.
  - assert (E : (Fin (hdist x z) >? Fin rad)%js = true)
      by (apply gt_finite; exact Hd).
    rewrite E.
    assert (Hnz : x <> 0 \/ z <> 0).
    { destruct (Req_dec x 0) as [Hx | Hx]; [|now left].
      destruct (Req_dec z 0) as [Hz | Hz]; [|now right].
      subst. unfold hdist in Hd.
      replace (0 * 0 + 0 * 0) with 0 in Hd by ring.
      rewrite sqrt_0 in Hd. lra. }
    destruct (angle_polar x z Hnz) as [Hc Hs].
    cbn [Js.atan2 Js.cos Js.sin Js.mul]. rewrite Hc, Hs. reflexivity.
  - assert (E : (Fin (hdist x z) >? Fin rad)%js = false)
      by (apply gt_finite_false; lra).
    rewrite E. reflexivity.
Qed.

Lemma walls_project_radially_witness :
  (0.1 < hdist 0.3 0.4 ->
   walls (mkFrame water (rayleigh (computed water)) (init_sim water) 0.016)
     (Fin 0.3) (Fin 0.4) (Fin 1) (Fin 2)
   = (Fin (0.1 * (0.3 / hdist 0.3 0.4)), Fin (0.1 * (0.4 / hdist 0.3 0.4)),
      (Fin 1 * (-0.5))%js, (Fin 2 * (-0.5))%js)) /\
  (hdist 0.3 0.4 <= 0.1 ->
   walls (mkFrame water (rayleigh (computed water)) (init_sim water) 0.016)
     (Fin 0.3) (Fin 0.4) (Fin 1) (Fin 2)
   = (Fin 0.3, Fin 0.4, Fin 1, Fin 2)).
Proof.
  apply (walls_project_radially
           (mkFrame water (rayleigh (computed water)) (init_sim water) 0.016)
           0.3 0.4 0.1 (Fin 1) (Fin 2)).
  - reflexivity.
  - lra.
Defined.

(* ================================================================= *)
(** ** The range of the temperatures *)

Lemma lerp_within (lo hi : R) (a b : num) (t : R) :
  within lo hi a -> within lo hi b -> 0 <= t <= 1 ->
  within lo hi (lerp a b (Fin t)).
Proof.
  intros (x & -> & Hx) (y & -> & Hy) Ht. rewrite lerp_finite.
  eexists; split; [reflexivity|].
  assert (0 <= t * (y - lo)) by (apply Rmult_le_pos; lra).
  assert (0 <= (1 - t) * (x - lo)) by (apply Rmult_le_pos; lra).
  assert (0 <= t * (hi - y)) by (apply Rmult_le_pos; lra).
  assert (0 <= (1 - t) * (hi - x)) by (apply Rmult_le_pos; lra).
  lra.
Qed.

(** A. The thermal physics never leaves the range of its sources. *)
Lemma thermal_within (f : Frame) (s : SimState) (lo hi d hh k y : R)
    (r T : num) :
  dt f = Fin d -> 0 <= d <= 0.05 -> halfH f = Fin hh ->
  thermalRate f = Fin k -> 0 <= k <= 1 ->
  within lo hi (avgT f) ->
  within lo hi (s_tempSurface s) -> within lo hi (s_tempFluidInitial s) ->
  - hh <= y -> within lo hi T ->
  within lo hi (thermal f s (Fin y) r T).
Proof.
  intros Hdt Hd Hh Hk Hk1 Hav Hs H0 Hy HT. unfold thermal.
  rewrite Hdt, Hh, Hk. cbn [Js.add].
  assert (HT1 : within lo hi
            (if (Fin (y + hh) <? 0.02)%js
             then lerp T (s_tempSurface s)
                    (Fin k * 20
                     * Js.max 0 (1 - Fin (y + hh) / 0.02) * Fin d)%js
             else T)).
  { destruct (Fin (y + hh) <? 0.02)%js eqn:E; [|exact HT].
    apply lt_finite in E.
    rewrite (div_finite (y + hh) 0.02) by lra.
    cbn [Js.sub Js.neg Js.add]. rewrite max_finite. cbn [Js.mul].
    apply lerp_within; try assumption.
    assert (Hq : 0 <= (y + hh) / 0.02).
    { apply Rmult_le_pos; [lra|]. left. apply Rinv_0_lt_compat. lra. }
    assert (Hc : 0 <= Rmax 0 (1 + - ((y + hh) / 0.02)) <= 1).
    { split; [apply Rmax_l|]. apply Rmax_lub; lra. }
    assert (Hkd : 0 <= k * 20 * d <= 1) by nra.
    replace (k * 20 * Rmax 0 (1 + - ((y + hh) / 0.02)) * d)
      with (k * 20 * d * Rmax 0 (1 + - ((y + hh) / 0.02))) by ring.
    nra. }
  set (T1 := if (Fin (y + hh) <? 0.02)%js then _ else T) in *.
  assert (HT2 : within lo hi
            (if ((radius f - r <? 0.015)%js
                 || (Fin hh - Fin y <? 0.01)%js)
             then lerp T1 (s_tempFluidInitial s) (Fin k * 5 * Fin d)%js
             else T1)).
  { destruct (_ || _); [|exact HT1]. cbn [Js.mul].
    apply lerp_within; try assumption. nra. }
  set (T2 := if (_ || _) then _ else T1) in *.
  destruct (canConvect f); [|exact HT2]. cbn [Js.mul].
  apply lerp_within; try assumption. nra.
Qed.

Lemma floor_ceiling_T (f : Frame) (s : SimState) (y vy T : num) :
  snd (floor_ceiling f s y vy T) = T \/
  snd (floor_ceiling f s y vy T) = lerp T (s_tempSurface s) 0.2.
Proof.
  unfold floor_ceiling.
  destruct (floor_hit f y);
    match goal with
    | |- context [ceiling_hit f ?a] => destruct (ceiling_hit f a)
    end; cbn [snd]; auto.
Qed.

Lemma move_T (rnd : nat -> R) (params : SimulationParams) (f : Frame)
    (s : SimState) (k : nat) (c : Cells) :
  c_T (move rnd params f s k c) = tested_temperature f s c \/
  c_T (move rnd params f s k c)
  = lerp (tested_temperature f s c) (s_tempSurface s) 0.2.
Proof.
  unfold move, tested_temperature.
  set (T3 := thermal f s _ _ _).
  destruct (phase_force params f s T3) as [st fy].
  destruct (toroidal params f _ _ _ _ _) as [fx fz].
  match goal with
  | |- context [floor_ceiling f s ?y ?vy T3] =>
      pose proof (floor_ceiling_T f s y vy T3) as HT;
      destruct (floor_ceiling f s y vy T3) as [[y' vy'] T']
  end.
  destruct (walls f _ _ _ _) as [[[x' z'] vx'] vz'].
  cbn [c_T snd] in *. exact HT.
Qed.

Lemma body_T_within (rnd : nat -> R) (params : SimulationParams) (f : Frame)
    (s : SimState) (show : bool) (k : nat) (c : Cells) (lo hi : R) :
  within lo hi (tested_temperature f s c) ->
  within lo hi (s_tempSurface s) -> within lo hi (s_tempFluidInitial s) ->
  within lo hi (c_T (fst (particle_body rnd params f s show k c))).
Proof.
  intros HT Hs H0. rewrite particle_body_fst. unfold paint; cbn [c_T].
  unfold recover. destruct (blown_up _ _ _); cbn [fst].
  - exact H0.
  - destruct (move_T rnd params f s k c) as [E | E]; rewrite E.
    + exact HT.
    + apply (lerp_within lo hi _ _ 0.2); try assumption. lra.
Qed.

Lemma sum_within (temps : list num) (lo hi : R) (l : list nat) :
  (forall j, In j l -> within lo hi (get temps j)) ->
  forall a,
    exists S,
      fold_left (fun sumT k => (sumT + get temps k)%js) l (Fin a)
      = Fin (a + S) /\
      INR (length l) * lo <= S <= INR (length l) * hi.
Proof.
  induction l as [|j l IH]; intros Hall a.
  - exists 0. cbn [fold_left length INR]. split; [f_equal; ring | lra].
  - destruct (Hall j (or_introl eq_refl)) as (t & Ht & Hr).
    cbn [fold_left]. rewrite Ht. cbn [Js.add].
    destruct (IH (fun i Hi => Hall i (or_intror Hi)) (a + t)) as (S & HS & Hb).
    exists (t + S). split; [rewrite HS; f_equal; ring|].
    change (length (j :: l)) with (Datatypes.S (length l)).
    rewrite S_INR. lra.
Qed.

Lemma frameAvgT_within (temps : list num) (n : nat) (lo hi : R) :
  (0 < n)%nat ->
  (forall j, (j < n)%nat -> within lo hi (get temps j)) ->
  within lo hi (frameAvgT temps n).
Proof.
  intros Hn Hall. unfold frameAvgT, sum_temperatures.
  destruct (sum_within temps lo hi (seq 0 n)) with (a := 0)
    as (S & HS & Hb).
  { intros j Hj. apply in_seq in Hj. apply Hall. lia. }
  rewrite length_seq in Hb. rewrite HS.
  assert (Hpos : 0 < INR n) by (apply lt_0_INR; exact Hn).
  rewrite div_finite by lra.
  eexists; split; [reflexivity|].
  replace (0 + S) with S by ring.
  split.
  - apply (Rmult_le_reg_r (INR n)); [exact Hpos|].
    replace (S / INR n * INR n) with S by (field; lra). lra.
  - apply (Rmult_le_reg_r (INR n)); [exact Hpos|].
    replace (S / INR n * INR n) with S by (field; lra). lra.
Qed.

(** One frame keeps the invariant. *)
Lemma frame_thermal_invariant (rnd : nat -> R) (params : SimulationParams)
    (ra : num) (show : bool) (delta : num) (w : World) (rad H lo hi : R) :
  valid_oracle rnd ->
  containerRadius params = Fin rad -> 0 <= rad ->
  containerHeight params = Fin H -> 0.001 <= H ->
  (0 < particleCount params)%nat ->
  wf_ensemble (particleCount params) (ens w) ->
  within lo hi (tempSurface params) ->
  within lo hi (tempFluidInitial params) ->
  within 0 1.25e-5 (thermalDiffusivity params) ->
  elapsed delta ->
  thermal_invariant params lo hi H w ->
  thermal_invariant params lo hi H
    (useFrame rnd params ra true true show delta w).
Proof.
  intros Hr Hrad Hrad0 HH HH0 Hn Hwf HpS Hp0 Hpa (d & -> & Hd)
    (IS & I0 & Iav & Ia & Icells).
  assert (HsS : within lo hi (s_tempSurface (frame_state params w))).
  { apply (lerp_within lo hi _ _ 0.05); try assumption. lra. }
  assert (Hs0 : within lo hi (s_tempFluidInitial (frame_state params w))).
  { apply (lerp_within lo hi _ _ 0.05); try assumption. lra. }
  assert (Hsa : within 0 1.25e-5 (s_diffusivity (frame_state params w))).
  { apply (lerp_within 0 1.25e-5 _ _ 0.05); try assumption. lra. }
  assert (Hsav : within lo hi (s_avgSystemTemp (frame_state params w))).
  { apply (lerp_within lo hi _ _ 0.1); try assumption; [|lra].
    apply frameAvgT_within; [exact Hn|].
    intros j Hj. exact (proj1 (Icells j Hj)). }
  rewrite <- (sim_useFrame rnd params ra show (Fin d) w) in HsS, Hs0, Hsa, Hsav.
  split; [exact HsS|]. split; [exact Hs0|]. split; [exact Hsav|].
  split; [exact Hsa|].
  rewrite sim_useFrame in HsS, Hs0, Hsa, Hsav.
  intros i Hi.
  destruct (useFrame_spec rnd params ra show (Fin d) w Hwf)
    as (_ & _ & _ & Hcells).
  destruct (Hcells i Hi) as (ki & ->).
  set (s := frame_state params w) in *.
  set (f := mkFrame params ra s (Fin d)).
  assert (Hh : halfH f = Fin (H / 2)) by (apply halfH_mkFrame; exact HH).
  split.
  - apply body_T_within; try assumption.
    destruct (Icells i Hi) as (HT & y & Hy & Hfloor).
    unfold tested_temperature. rewrite Hy.
    destruct Hsa as (al & Hal & Hal1).
    apply (thermal_within f s lo hi (Rmin d 0.05) (H / 2) (al * 80000));
      try assumption.
    + unfold f, mkFrame; cbn [dt]. apply min_finite.
    + split; [apply Rmin_glb; lra | apply Rmin_r].
    + unfold f, mkFrame; cbn [thermalRate]. rewrite Hal. reflexivity.
    + lra.
  - rewrite particle_body_fst. unfold paint; cbn [c_y].
    destruct (physics_spec rnd params f s ki (read (ens w) i) rad (H / 2))
      as ((x & y & z & vx & vy & vz & _ & Ey & _ & _ & _ & _ & _ & _ & _ & Hy)
          & _); auto; [lra|].
    exists y. split; [exact Ey|].
    assert (Hb : Rabs y <= H / 2) by (apply Hy; lra).
    unfold Rabs in Hb. destruct (Rcase_abs y); lra.
Qed.

(** X15.  The simulated temperatures obey a maximum principle. With a
    diffusivity of at most [1.25e-5] (smoothed and configured), elapsed times
    that are finite and not negative, and a container at least 1 mm high, a
    run that starts with the surface and ambient temperatures (smoothed and
    configured), the running average and every particle's temperature between
    [lo] and [hi], and no particle below the floor, keeps all of them there
    after every frame: conduction, cooling, mixing, the floor contact and the
    reset never take a temperature outside the range of the temperatures they
    mix. *)
Theorem temperatures_stay_in_range (rnd : nat -> R)
    (params : SimulationParams) (ra : num) (show : bool)
    (deltas : list num) (w : World) (rad H lo hi : R) :
  valid_oracle rnd ->
  containerRadius params = Fin rad -> 0 <= rad ->
  containerHeight params = Fin H -> 0.001 <= H ->
  (0 < particleCount params)%nat ->
  wf_ensemble (particleCount params) (ens w) ->
  within lo hi (tempSurface params) ->
  within lo hi (tempFluidInitial params) ->
  within 0 1.25e-5 (thermalDiffusivity params) ->
  Forall elapsed deltas ->
  thermal_invariant params lo hi H w ->
  thermal_invariant params lo hi H (frames rnd params ra show deltas w).
Proof.
  intros Hr Hrad Hrad0 HH HH0 Hn Hwf HpS Hp0 Hpa Hds. revert w Hwf.
  induction Hds as [|d ds Hd Hds IH]; intros w Hwf Hinv; cbn [frames].
  - exact Hinv.
  - apply IH.
    + now apply useFrame_spec.
    + now apply (frame_thermal_invariant rnd params ra show d w rad H lo hi).
Qed.

Lemma scenario_thermal_invariant :
  thermal_invariant water 293 350 0.2 (scenario_world 0.05 0 0 0.05 0 0 0).
Proof.
  unfold thermal_invariant, within; cbn [sim scenario_world init_sim water
    s_tempSurface s_tempFluidInitial s_avgSystemTemp s_diffusivity
    tempSurface tempFluidInitial thermalDiffusivity particleCount].
  split; [eexists; split; [reflexivity | lra]|].
  split; [eexists; split; [reflexivity | lra]|].
  split; [eexists; split; [reflexivity | lra]|].
  split; [eexists; split; [reflexivity | lra]|].
  intros i Hi.
  destruct i as [|[|[|i]]]; [| | | lia];
    (split; [eexists; split; [reflexivity | lra]
            | eexists; split; [reflexivity | lra]]).
Qed.

Lemma temperatures_stay_in_range_witness :
  thermal_invariant water 293 350 0.2
    (frames half_oracle water (rayleigh (computed water)) true
       [Fin 0.016; Fin 0.016] (scenario_world 0.05 0 0 0.05 0 0 0)).
Proof.
  apply (temperatures_stay_in_range half_oracle water
           (rayleigh (computed water)) true [Fin 0.016; Fin 0.016]
           (scenario_world 0.05 0 0 0.05 0 0 0) 0.1 0.2 293 350).
  - exact half_oracle_valid.
  - reflexivity.
  - lra.
  - reflexivity.
  - lra.
  - simpl; lia.
  - apply scenario_wf.
  - exists 350. split; [reflexivity | lra].
  - exists 293. split; [reflexivity | lra].
  - exists 1.43e-7. split; [reflexivity | lra].
  - repeat constructor; exists 0.016; (split; [reflexivity | lra]).
  - exact scenario_thermal_invariant.
Defined.
